(** * A verification model of the Mikrotik monitor

    The development embeds the collection pipeline of the monitor:
    the SQLite-backed [DataStore] (src/data_store.py), the host check,
    the collection cycle, the connect handler and the background loop
    (src/app.py).  Python values, the clock and the SQL statements are
    modelled by executable definitions; the router and the user are the
    environment. *)

From Stdlib Require Import ZArith Lia Bool Ascii String List Permutation Sorted.
From stdpp Require Import base option list gmap strings sorting pretty.
Import ListNotations.

Local Open Scope string_scope.
Local Open Scope Z_scope.

(** ** Python values

    A Python [str] is modelled by a Rocq [string] whose characters are the
    code points U+0000 to U+00FF.  A value received from the router library
    is [None], a [bool], an [int] or a [str]. *)

Module Py.

Inductive value : Type :=
| PNone
| PBool (b : bool)
| PInt (z : Z)
| PStr (s : string).

(** A raised exception, with the name of its class.  Only classes derived
    from [Exception] are modelled. *)
Inductive outcome (A : Type) : Type :=
| Returns (a : A)
| Raises (exn : string).

Arguments Returns {A} a.
Arguments Raises {A} exn.

Definition bind {A B : Type} (m : outcome A) (k : A -> outcome B) : outcome B :=
  match m with
  | Returns a => k a
  | Raises e => Raises e
  end.

(** [dict.get(key, default)] on a dictionary with string keys. *)
Definition dict_get (d : gmap string value) (key : string) (default : value) : value :=
  match d !! key with
  | Some v => v
  | None => default
  end.

Definition is_digit (c : ascii) : bool :=
  let n := Z.of_N (N_of_ascii c) in (48 <=? n) && (n <=? 57).

Definition digit_value (c : ascii) : Z := Z.of_N (N_of_ascii c) - 48.

(** White space skipped by [int()] around a number: the ASCII blanks
    and, below U+0100, the Unicode spaces U+0085 and U+00A0. *)
Definition is_space (c : ascii) : bool :=
  let n := Z.of_N (N_of_ascii c) in
  ((9 <=? n) && (n <=? 13)) || (n =? 32) || (n =? 133) || (n =? 160).

Fixpoint lstrip (s : string) : string :=
  match s with
  | String c s' => if is_space c then lstrip s' else s
  | EmptyString => EmptyString
  end.

Fixpoint all_space (s : string) : bool :=
  match s with
  | String c s' => is_space c && all_space s'
  | EmptyString => true
  end.

(** Digits of a decimal literal, read left to right with the value so far.
    A single underscore may stand between two digits; trailing white space
    ends the literal. [after_digit] tells whether the previous character
    was a digit. *)
Fixpoint parse_digits (s : string) (acc : Z) (after_digit : bool) : option Z :=
  match s with
  | EmptyString => if after_digit then Some acc else None
  | String c s' =>
      if is_digit c then parse_digits s' (10 * acc + digit_value c) true
      else if Ascii.eqb c "_" then
        if after_digit then
          match s' with
          | String c' _ => if is_digit c' then parse_digits s' acc false else None
          | EmptyString => None
          end
        else None
      else if after_digit && all_space s then Some acc
      else None
  end.

Fixpoint count_digits (s : string) : nat :=
  match s with
  | EmptyString => O
  | String c s' => if is_digit c then S (count_digits s') else count_digits s'
  end.

(** [sys.int_info.default_max_str_digits]: a decimal literal with more
    digits is refused. *)
Definition max_str_digits : nat := 4300.

Definition parse_literal (s : string) : option Z :=
  if (count_digits s <=? max_str_digits)%nat then parse_digits s 0 false else None.

(** [int(s)] for a string, base ten. *)
Definition int_of_str (s : string) : option Z :=
  match lstrip s with
  | String "+" s' => parse_literal s'
  | String "-" s' => option_map Z.opp (parse_literal s')
  | s' => parse_literal s'
  end.

(** The builtin [int(v)]. *)
Definition int (v : value) : outcome Z :=
  match v with
  | PNone => Raises "TypeError"
  | PBool b => Returns (if b then 1 else 0)
  | PInt z => Returns z
  | PStr s =>
      match int_of_str s with
      | Some z => Returns z
      | None => Raises "ValueError"
      end
  end.

(** [s.split(':')[0]]: the text before the first colon. *)
Fixpoint before_colon (s : string) : string :=
  match s with
  | EmptyString => EmptyString
  | String c s' => if Ascii.eqb c ":" then EmptyString else String c (before_colon s')
  end.

(** [str.startswith]. *)
Definition startswith (s p : string) : bool := String.prefix p s.

End Py.

(** ** Regular expressions

    The fragment of Python's [re] syntax that the host check uses:
    literal characters, the class [\d], concatenation, alternation,
    bounded repetition [{m,n}] and the anchor [$].  Matching is by
    derivatives; for a yes/no answer it agrees with the backtracking
    search of [re]. *)

Module Regex.

Inductive re : Type :=
| Void
| Eps
| Chr (c : ascii)
| Digit
| Cat (r s : re)
| Alt (r s : re)
| Star (r : re).

Fixpoint nullable (r : re) : bool :=
  match r with
  | Void => false
  | Eps => true
  | Chr _ => false
  | Digit => false
  | Cat r s => nullable r && nullable s
  | Alt r s => nullable r || nullable s
  | Star _ => true
  end.

Fixpoint deriv (c : ascii) (r : re) : re :=
  match r with
  | Void => Void
  | Eps => Void
  | Chr c' => if Ascii.eqb c c' then Eps else Void
  | Digit => if Py.is_digit c then Eps else Void
  | Cat r s =>
      if nullable r then Alt (Cat (deriv c r) s) (deriv c s)
      else Cat (deriv c r) s
  | Alt r s => Alt (deriv c r) (deriv c s)
  | Star r => Cat (deriv c r) (Star r)
  end.

(** The strings of a regular expression. *)
Inductive lang : re -> string -> Prop :=
| lang_eps : lang Eps ""
| lang_chr c : lang (Chr c) (String c "")
| lang_digit c : Py.is_digit c = true -> lang Digit (String c "")
| lang_cat r s u v : lang r u -> lang s v -> lang (Cat r s) (u ++ v)
| lang_alt_l r s u : lang r u -> lang (Alt r s) u
| lang_alt_r r s u : lang s u -> lang (Alt r s) u
| lang_star_nil r : lang (Star r) ""
| lang_star_cons r u v : lang r u -> lang (Star r) v -> lang (Star r) (u ++ v).

(** The whole string is matched by [r]. *)
Fixpoint fullmatch (r : re) (s : string) : bool :=
  match s with
  | EmptyString => nullable r
  | String c s' => fullmatch (deriv c r) s'
  end.

(** [r{n}] *)
Fixpoint times (n : nat) (r : re) : re :=
  match n with
  | O => Eps
  | S n' => Cat r (times n' r)
  end.

(** [r{m,m+k}] *)
Fixpoint upto (k : nat) (r : re) : re :=
  match k with
  | O => Eps
  | S k' => Alt Eps (Cat r (upto k' r))
  end.

Definition between (m k : nat) (r : re) : re := Cat (times m r) (upto k r).

(** The string without its last character. *)
Fixpoint drop_last (s : string) : string :=
  match s with
  | EmptyString => EmptyString
  | String c EmptyString => EmptyString
  | String c s' => String c (drop_last s')
  end.

Fixpoint ends_with_newline (s : string) : bool :=
  match s with
  | EmptyString => false
  | String c EmptyString => Ascii.eqb c "010"
  | String _ s' => ends_with_newline s'
  end.

(** [re.compile('^' r '$').match(s)] is not [None]: [match] starts at the
    beginning of [s], and [$] holds at the end of [s] and just before a
    newline that ends [s]. *)
Definition match_to_dollar (r : re) (s : string) : bool :=
  fullmatch r s || (ends_with_newline s && fullmatch r (drop_last s)).

End Regex.

(** ** The host check of src/app.py *)

Module HostCheck.

Import Regex.

(** [(\d{1,3}\.){3}\d{1,3}], the pattern between [^] and [$]. *)
Definition ip_pattern : re :=
  Cat (times 3 (Cat (between 1 2 Digit) (Chr ".")))
      (between 1 2 Digit).

(** [is_valid_ip(ip)]: [bool(ip_pattern.match(ip))]. *)
Definition is_valid_ip (ip : string) : bool := match_to_dollar ip_pattern ip.

(** The number that a string of decimal digits writes. *)
Fixpoint decimal_from (acc : Z) (s : string) : Z :=
  match s with
  | EmptyString => acc
  | String c s' => decimal_from (10 * acc + Py.digit_value c) s'
  end.

Fixpoint all_digits (s : string) : bool :=
  match s with
  | EmptyString => true
  | String c s' => Py.is_digit c && all_digits s'
  end.

(** One to three digits. *)
Definition digit_group (o : string) : Prop :=
  all_digits o = true /\ (1 <= String.length o <= 3)%nat.

(** An octet of a dotted quad: one to three digits that write a number
    from 0 to 255. *)
Definition octet (o : string) : Prop :=
  digit_group o /\ 0 <= decimal_from 0 o <= 255.

Definition dotted (a b c d : string) : string :=
  (a ++ "." ++ b ++ "." ++ c ++ "." ++ d)%string.

End HostCheck.

(** ** The clock

    A naive [datetime] is the number of microseconds since
    0001-01-01T00:00:00; the representable instants end with year 9999.
    A reading of [datetime.now()] is an input of the model. *)

Module DateTime.

Definition datetime : Type := Z.

Definition usec_per_second : Z := 1000000.
Definition usec_per_hour : Z := 3600 * usec_per_second.
Definition usec_per_day : Z := 24 * usec_per_hour.

(** [date.max.toordinal()] *)
Definition max_ordinal : Z := 3652059.

Definition representable (t : Z) : bool :=
  (0 <=? t) && (t <? max_ordinal * usec_per_day).

Definition days_in_month : list Z :=
  [-1; 31; 28; 31; 30; 31; 30; 31; 31; 30; 31; 30; 31].

Definition days_before_month : list Z :=
  [-1; 0; 31; 59; 90; 120; 151; 181; 212; 243; 273; 304; 334].

Definition table_at (t : list Z) (i : Z) : Z := nth (Z.to_nat i) t 0.

(** The proleptic Gregorian date of the ordinal [n], with 0001-01-01 the
    ordinal 1, by the 400, 100, 4 and 1 year cycles. *)
Definition ord2ymd (n : Z) : Z * Z * Z :=
  let n := n - 1 in
  let n400 := n / 146097 in
  let n := n mod 146097 in
  let year := n400 * 400 + 1 in
  let n100 := n / 36524 in
  let n := n mod 36524 in
  let n4 := n / 1461 in
  let n := n mod 1461 in
  let n1 := n / 365 in
  let n := n mod 365 in
  let year := year + n100 * 100 + n4 * 4 + n1 in
  if (n1 =? 4) || (n100 =? 4) then (year - 1, 12, 31)
  else
    let leapyear := (n1 =? 3) && (negb (n4 =? 24) || (n100 =? 3)) in
    let month := Z.shiftr (n + 50) 5 in
    let preceding :=
      table_at days_before_month month
      + (if (2 <? month) && leapyear then 1 else 0) in
    if n <? preceding then
      let month := month - 1 in
      let preceding :=
        preceding
        - (table_at days_in_month month
           + (if (month =? 2) && leapyear then 1 else 0)) in
      (year, month, n - preceding + 1)
    else (year, month, n - preceding + 1).

Fixpoint zeros (n : nat) : string :=
  match n with
  | O => ""
  | S n' => String "0" (zeros n')
  end.

(** [%0wd] for a number that is not negative. *)
Definition zero_padded (w : nat) (z : Z) : string :=
  let digits := pretty z in
  (zeros (w - String.length digits) ++ digits)%string.

(** [datetime.isoformat()]: the fraction is left out when it is zero. *)
Definition isoformat (t : datetime) : string :=
  let '(y, m, d) := ord2ymd (t / usec_per_day + 1) in
  let r := t mod usec_per_day in
  let hh := r / usec_per_hour in
  let mm := (r mod usec_per_hour) / (60 * usec_per_second) in
  let ss := (r mod (60 * usec_per_second)) / usec_per_second in
  let us := r mod usec_per_second in
  (zero_padded 4 y ++ "-" ++ zero_padded 2 m ++ "-" ++ zero_padded 2 d
   ++ "T" ++ zero_padded 2 hh ++ ":" ++ zero_padded 2 mm ++ ":"
   ++ zero_padded 2 ss
   ++ (if (us =? 0)%Z then "" else "." ++ zero_padded 6 us))%string.

(** [t - timedelta(hours=h)]: an instant outside the years 1 to 9999
    raises [OverflowError]. *)
Definition minus_hours (t : datetime) (h : Z) : Py.outcome datetime :=
  let t' := t - h * usec_per_hour in
  if representable t' then Py.Returns t' else Py.Raises "OverflowError".

(** [(datetime.now() - timedelta(hours=hours)).isoformat()], the lower
    end of a query window. *)
Definition window_start (now : datetime) (hours : Z) : Py.outcome string :=
  Py.bind (minus_hours now hours) (fun t => Py.Returns (isoformat t)).

(** The instant of a calendar date and time of day. [ordinal] is
    [date.toordinal()]. *)
Definition at_ordinal (ordinal hh mm ss us : Z) : datetime :=
  (ordinal - 1) * usec_per_day + hh * usec_per_hour
  + mm * 60 * usec_per_second + ss * usec_per_second + us.

End DateTime.

(** ** The storage engine

    The part of SQLite and of Python's [sqlite3] module that the store
    relies on: 64-bit integers, text compared byte by byte, parameter
    binding, [NOT NULL] columns with [TEXT] affinity, [ORDER BY],
    [GROUP BY], [SUM], [MAX], [COUNT] and [LIMIT]. *)

Module Sqlite.

Import Py.

Definition int64_min : Z := - 2 ^ 63.
Definition int64_max : Z := 2 ^ 63 - 1.

Definition fits_int64 (z : Z) : bool := (int64_min <=? z) && (z <=? int64_max).

(** A value held by the engine. *)
Inductive sqlvalue : Type :=
| SqlNull
| SqlInteger (z : Z)
| SqlText (s : string).

(** Binding a Python [int]: one that does not fit 64 bits is refused. *)
Definition bind_integer (z : Z) : outcome Z :=
  if fits_int64 z then Returns z else Raises "OverflowError".

(** Binding a Python value as a statement parameter. *)
Definition bind_parameter (v : value) : outcome sqlvalue :=
  match v with
  | PNone => Returns SqlNull
  | PBool b => Returns (SqlInteger (if b then 1 else 0))
  | PInt z => bind (bind_integer z) (fun z' => Returns (SqlInteger z'))
  | PStr s => Returns (SqlText s)
  end.

(** A value written to a [TEXT NOT NULL] column: an integer is turned
    into its decimal text, a null is refused. *)
Definition text_not_null (v : sqlvalue) : outcome string :=
  match v with
  | SqlNull => Raises "IntegrityError"
  | SqlInteger z => Returns (pretty z)
  | SqlText s => Returns s
  end.

(** [a <= b] on text, by the default collation (byte order, a proper
    prefix first). *)
Definition text_le (a b : string) : bool := String.leb a b.

(** [WHERE column >= ?] *)
Definition where_ge {A : Type} (column : A -> string) (bound : string)
  (rows : list A) : list A :=
  List.filter (fun r => text_le bound (column r)) rows.

(** [AND column = ?] *)
Definition where_eq {A : Type} (column : A -> string) (v : string)
  (rows : list A) : list A :=
  List.filter (fun r => String.eqb (column r) v) rows.

(** [ORDER BY]: [x] is put in front of the first row that it may precede,
    so rows with equal keys keep the order in which they were produced.
    (The engine leaves the order of such rows open.) *)
Fixpoint insert_ordered {A : Type} (precedes : A -> A -> bool) (x : A)
  (l : list A) : list A :=
  match l with
  | [] => [x]
  | y :: l' =>
      if precedes x y then x :: l else y :: insert_ordered precedes x l'
  end.

Definition order_by {A : Type} (precedes : A -> A -> bool) (l : list A) : list A :=
  foldr (insert_ordered precedes) [] l.

Definition ascending_text {A : Type} (column : A -> string) (x y : A) : bool :=
  text_le (column x) (column y).

Definition descending_integer {A : Type} (column : A -> Z) (x y : A) : bool :=
  column y <=? column x.

(** [GROUP BY column]: the distinct keys, in ascending order. *)
Fixpoint insert_key (k : string) (keys : list string) : list string :=
  match keys with
  | [] => [k]
  | k' :: keys' =>
      match String.compare k k' with
      | Lt => k :: keys
      | Eq => keys
      | Gt => k' :: insert_key k keys'
      end
  end.

Definition group_keys (ks : list string) : list string := foldr insert_key [] ks.

(** [SUM] over integers: the running total must fit 64 bits at every row. *)
Fixpoint sum_from (acc : Z) (l : list Z) : outcome Z :=
  match l with
  | [] => Returns acc
  | z :: l' =>
      if fits_int64 (acc + z) then sum_from (acc + z) l'
      else Raises "OperationalError"
  end.

Definition sum_integers (l : list Z) : outcome Z := sum_from 0 l.

(** [MAX] over text. *)
Definition text_max (a b : string) : string := if text_le a b then b else a.

Definition max_text (l : list string) : string :=
  match l with
  | [] => ""
  | a :: l' => foldl text_max a l'
  end.

(** [COUNT( * )] *)
Definition count_rows {A : Type} (l : list A) : Z := Z.of_nat (length l).

(** [LIMIT n]: a negative [n] means no limit. *)
Definition limit {A : Type} (n : Z) (l : list A) : list A :=
  if n <? 0 then l else take (Z.to_nat n) l.

End Sqlite.

(** ** The store of src/data_store.py

    A database is the content of its three tables, in the order of the
    row ids.  Rows are only ever appended, so the id that [AUTOINCREMENT]
    gives to a new row is the number of rows plus one.  Every method
    opens its own connection; what a method has written and not committed
    is lost when the connection is closed. *)

Module DataStore.

Import Py Sqlite.

(** *** Inputs *)

(** A per-address record as [MikrotikAPI.get_traffic_by_ip] builds it. *)
Record traffic_record : Type := {
  tr_ip_address : string;
  tr_tx_bytes : Z;
  tr_rx_bytes : Z;
  tr_total_bytes : Z;
  tr_connections : Z;
  tr_timestamp : string
}.

(** The counters of one interface as [MikrotikAPI.get_bandwidth_usage]
    builds them. *)
Record interface_counters : Type := {
  ic_tx_bytes : Z;
  ic_rx_bytes : Z;
  ic_tx_packets : Z;
  ic_rx_packets : Z;
  ic_timestamp : string
}.

(** A raw entry of the router's connection table. *)
Abbreviation connection_entry := (gmap string value).

(** *** Tables *)

Record ip_traffic_row : Type := {
  it_id : Z;
  it_ip_address : string;
  it_tx_bytes : Z;
  it_rx_bytes : Z;
  it_total_bytes : Z;
  it_connections : Z;
  it_timestamp : string
}.

Record bandwidth_usage_row : Type := {
  bu_id : Z;
  bu_interface : string;
  bu_tx_bytes : Z;
  bu_rx_bytes : Z;
  bu_tx_packets : Z;
  bu_rx_packets : Z;
  bu_timestamp : string
}.

Record active_connections_row : Type := {
  ac_id : Z;
  ac_src_address : string;
  ac_dst_address : string;
  ac_protocol : string;
  ac_orig_bytes : Z;
  ac_repl_bytes : Z;
  ac_timestamp : string
}.

Record database : Type := {
  ip_traffic : list ip_traffic_row;
  bandwidth_usage : list bandwidth_usage_row;
  active_connections : list active_connections_row
}.

(** The database after [initialize_db] on a new file. *)
Definition empty_database : database :=
  {| ip_traffic := []; bandwidth_usage := []; active_connections := [] |}.

Definition next_id {A : Type} (table : list A) : Z := Z.of_nat (length table) + 1.

(** *** Writes *)

(** [INSERT INTO ip_traffic (...) VALUES (?, ?, ?, ?, ?, ?)] *)
Definition insert_ip_traffic (data : traffic_record) (table : list ip_traffic_row)
  : outcome (list ip_traffic_row) :=
  bind (bind_integer (tr_tx_bytes data)) (fun tx =>
  bind (bind_integer (tr_rx_bytes data)) (fun rx =>
  bind (bind_integer (tr_total_bytes data)) (fun total =>
  bind (bind_integer (tr_connections data)) (fun conns =>
  Returns (table ++ [ {| it_id := next_id table;
                         it_ip_address := tr_ip_address data;
                         it_tx_bytes := tx;
                         it_rx_bytes := rx;
                         it_total_bytes := total;
                         it_connections := conns;
                         it_timestamp := tr_timestamp data |} ])%list)))).

(** The [for] loop of a store method: one statement per element, stopped
    by the first exception. *)
Fixpoint for_each {A T : Type} (body : A -> T -> outcome T) (l : list A)
  (table : T) : outcome T :=
  match l with
  | [] => Returns table
  | a :: l' => bind (body a table) (for_each body l')
  end.

(** [store_ip_traffic(traffic_data)]: the flag returned and the database
    afterwards. *)
Definition store_ip_traffic (traffic_data : list traffic_record) (db : database)
  : bool * database :=
  match traffic_data with
  | [] => (false, db)
  | _ =>
      match for_each insert_ip_traffic traffic_data (ip_traffic db) with
      | Returns table =>
          (true, {| ip_traffic := table;
                    bandwidth_usage := bandwidth_usage db;
                    active_connections := active_connections db |})
      | Raises _ => (false, db)
      end
  end.

(** [INSERT INTO bandwidth_usage (...) VALUES (?, ?, ?, ?, ?, ?)] *)
Definition insert_bandwidth_usage (item : string * interface_counters)
  (table : list bandwidth_usage_row) : outcome (list bandwidth_usage_row) :=
  let '(interface, data) := item in
  bind (bind_integer (ic_tx_bytes data)) (fun tx =>
  bind (bind_integer (ic_rx_bytes data)) (fun rx =>
  bind (bind_integer (ic_tx_packets data)) (fun txp =>
  bind (bind_integer (ic_rx_packets data)) (fun rxp =>
  Returns (table ++ [ {| bu_id := next_id table;
                         bu_interface := interface;
                         bu_tx_bytes := tx;
                         bu_rx_bytes := rx;
                         bu_tx_packets := txp;
                         bu_rx_packets := rxp;
                         bu_timestamp := ic_timestamp data |} ])%list)))).

(** [store_bandwidth_usage(bandwidth_data)]: the dictionary is given by
    its items, in insertion order. *)
Definition store_bandwidth_usage
  (bandwidth_data : list (string * interface_counters)) (db : database)
  : bool * database :=
  match bandwidth_data with
  | [] => (false, db)
  | _ =>
      match for_each insert_bandwidth_usage bandwidth_data (bandwidth_usage db) with
      | Returns table =>
          (true, {| ip_traffic := ip_traffic db;
                    bandwidth_usage := table;
                    active_connections := active_connections db |})
      | Raises _ => (false, db)
      end
  end.

(** The body of the loop of [store_active_connections]: the fields are
    read from the entry, the byte counts go through [int], then the row
    is inserted with the timestamp of the batch. *)
Definition insert_active_connection (timestamp : string) (data : connection_entry)
  (table : list active_connections_row) : outcome (list active_connections_row) :=
  let src_address := dict_get data "src-address" (PStr "") in
  let dst_address := dict_get data "dst-address" (PStr "") in
  let protocol := dict_get data "protocol" (PStr "") in
  bind (int (dict_get data "orig-bytes" (PInt 0))) (fun orig_bytes =>
  bind (int (dict_get data "repl-bytes" (PInt 0))) (fun repl_bytes =>
  bind (bind_parameter src_address) (fun p1 =>
  bind (bind_parameter dst_address) (fun p2 =>
  bind (bind_parameter protocol) (fun p3 =>
  bind (bind_integer orig_bytes) (fun p4 =>
  bind (bind_integer repl_bytes) (fun p5 =>
  bind (text_not_null p1) (fun src =>
  bind (text_not_null p2) (fun dst =>
  bind (text_not_null p3) (fun proto =>
  Returns (table ++ [ {| ac_id := next_id table;
                         ac_src_address := src;
                         ac_dst_address := dst;
                         ac_protocol := proto;
                         ac_orig_bytes := p4;
                         ac_repl_bytes := p5;
                         ac_timestamp := timestamp |} ])%list)))))))))).

(** [store_active_connections(connection_data)], with the reading [now]
    of the clock. *)
Definition store_active_connections (now : DateTime.datetime)
  (connection_data : list connection_entry) (db : database) : bool * database :=
  match connection_data with
  | [] => (false, db)
  | _ =>
      let timestamp := DateTime.isoformat now in
      match for_each (insert_active_connection timestamp) connection_data
              (active_connections db) with
      | Returns table =>
          (true, {| ip_traffic := ip_traffic db;
                    bandwidth_usage := bandwidth_usage db;
                    active_connections := table |})
      | Raises _ => (false, db)
      end
  end.

(** *** Reads *)

(** A [DataFrame]: the column names and the rows. *)
Record frame (R : Type) : Type := {
  columns : list string;
  rows : list R
}.

Arguments columns {R} _.
Arguments rows {R} _.

(** [pd.DataFrame()] *)
Definition empty_frame {R : Type} : frame R := {| columns := []; rows := [] |}.

(** An optional text argument is used as a filter when it is neither
    [None] nor empty. *)
Definition truthy (a : option string) : bool :=
  match a with
  | Some s => negb (String.eqb s "")
  | None => false
  end.

Definition ip_traffic_columns : list string :=
  ["id"; "ip_address"; "tx_bytes"; "rx_bytes"; "total_bytes"; "connections";
   "timestamp"].

Definition bandwidth_usage_columns : list string :=
  ["id"; "interface"; "tx_bytes"; "rx_bytes"; "tx_packets"; "rx_packets";
   "timestamp"].

(** [get_ip_traffic_history(ip_address, hours)] at the clock reading [now]. *)
Definition get_ip_traffic_history (ip_address : option string) (hours : Z)
  (now : DateTime.datetime) (db : database) : frame ip_traffic_row :=
  match DateTime.window_start now hours with
  | Returns start =>
      let selected := where_ge it_timestamp start (ip_traffic db) in
      let selected :=
        if truthy ip_address
        then where_eq it_ip_address (default "" ip_address) selected
        else selected in
      {| columns := ip_traffic_columns;
         rows := order_by (ascending_text it_timestamp) selected |}
  | Raises _ => empty_frame
  end.

(** [get_bandwidth_history(interface, hours)] at the clock reading [now]. *)
Definition get_bandwidth_history (interface : option string) (hours : Z)
  (now : DateTime.datetime) (db : database) : frame bandwidth_usage_row :=
  match DateTime.window_start now hours with
  | Returns start =>
      let selected := where_ge bu_timestamp start (bandwidth_usage db) in
      let selected :=
        if truthy interface
        then where_eq bu_interface (default "" interface) selected
        else selected in
      {| columns := bandwidth_usage_columns;
         rows := order_by (ascending_text bu_timestamp) selected |}
  | Raises _ => empty_frame
  end.

Record top_ip_row : Type := {
  top_ip_address : string;
  top_total_tx_bytes : Z;
  top_total_rx_bytes : Z;
  top_total_bytes : Z;
  top_last_seen : string
}.

Definition top_ip_columns : list string :=
  ["ip_address"; "total_tx_bytes"; "total_rx_bytes"; "total_bytes"; "last_seen"].

(** The output row of one group of [ip_traffic] rows. *)
Definition summarize_ip (ip : string) (group : list ip_traffic_row)
  : outcome top_ip_row :=
  bind (sum_integers (map it_tx_bytes group)) (fun tx =>
  bind (sum_integers (map it_rx_bytes group)) (fun rx =>
  bind (sum_integers (map it_total_bytes group)) (fun total =>
  Returns {| top_ip_address := ip;
             top_total_tx_bytes := tx;
             top_total_rx_bytes := rx;
             top_total_bytes := total;
             top_last_seen := max_text (map it_timestamp group) |}))).

(** [GROUP BY ip_address] with the aggregates of the query. *)
Fixpoint grouped_ips (keys : list string) (selected : list ip_traffic_row)
  : outcome (list top_ip_row) :=
  match keys with
  | [] => Returns []
  | k :: keys' =>
      bind (summarize_ip k (where_eq it_ip_address k selected)) (fun r =>
      bind (grouped_ips keys' selected) (fun rs => Returns (r :: rs)))
  end.

(** [get_top_ips_by_traffic(limit, hours)] at the clock reading [now]. *)
Definition get_top_ips_by_traffic (limit : Z) (hours : Z)
  (now : DateTime.datetime) (db : database) : frame top_ip_row :=
  match
    bind (DateTime.window_start now hours) (fun start =>
    bind (bind_integer limit) (fun n =>
    let selected := where_ge it_timestamp start (ip_traffic db) in
    bind (grouped_ips (group_keys (map it_ip_address selected)) selected)
      (fun groups =>
    Returns (Sqlite.limit n (order_by (descending_integer top_total_bytes) groups)))))
  with
  | Returns result => {| columns := top_ip_columns; rows := result |}
  | Raises _ => empty_frame
  end.

(** The dictionary that [get_connection_stats] builds; the three
    mappings are given by their items, in insertion order. *)
Record connection_stats : Type := {
  total_connections : Z;
  protocol_counts : list (string * Z);
  top_sources : list (string * Z);
  top_destinations : list (string * Z)
}.

(** [SELECT column, COUNT( * ) as count ... GROUP BY column
    ORDER BY count DESC] *)
Definition count_by (column : active_connections_row -> string)
  (selected : list active_connections_row) : list (string * Z) :=
  order_by (descending_integer snd)
    (map (fun k => (k, count_rows (where_eq column k selected)))
       (group_keys (map column selected))).

(** [get_connection_stats(hours)].  The method reads the clock once for
    each of its four statements; [None] stands for the empty dictionary
    returned after an exception. *)
Definition get_connection_stats (hours : Z)
  (now1 now2 now3 now4 : DateTime.datetime) (db : database)
  : option connection_stats :=
  match
    bind (DateTime.window_start now1 hours) (fun start1 =>
    let total := count_rows (where_ge ac_timestamp start1 (active_connections db)) in
    bind (DateTime.window_start now2 hours) (fun start2 =>
    let protocols :=
      count_by ac_protocol (where_ge ac_timestamp start2 (active_connections db)) in
    bind (DateTime.window_start now3 hours) (fun start3 =>
    let sources :=
      Sqlite.limit 10
        (count_by ac_src_address
           (where_ge ac_timestamp start3 (active_connections db))) in
    bind (DateTime.window_start now4 hours) (fun start4 =>
    let destinations :=
      Sqlite.limit 10
        (count_by ac_dst_address
           (where_ge ac_timestamp start4 (active_connections db))) in
    Returns {| total_connections := total;
               protocol_counts := protocols;
               top_sources := sources;
               top_destinations := destinations |}))))
  with
  | Returns stats => Some stats
  | Raises _ => None
  end.

(** *** Notions used to state what the store does *)

(** The record that a row of [ip_traffic] holds, its id left out. *)
Definition record_of_row (row : ip_traffic_row) : traffic_record :=
  {| tr_ip_address := it_ip_address row;
     tr_tx_bytes := it_tx_bytes row;
     tr_rx_bytes := it_rx_bytes row;
     tr_total_bytes := it_total_bytes row;
     tr_connections := it_connections row;
     tr_timestamp := it_timestamp row |}.

(** The four numbers of a record fit 64 bits. *)
Definition record_fits (r : traffic_record) : Prop :=
  fits_int64 (tr_tx_bytes r) = true
  /\ fits_int64 (tr_rx_bytes r) = true
  /\ fits_int64 (tr_total_bytes r) = true
  /\ fits_int64 (tr_connections r) = true.

(** The total of a record is the sum of its two directions. *)
Definition record_consistent (r : traffic_record) : Prop :=
  tr_total_bytes r = tr_tx_bytes r + tr_rx_bytes r.

Definition row_consistent (row : ip_traffic_row) : Prop :=
  it_total_bytes row = it_tx_bytes row + it_rx_bytes row.

(** Rows in ascending order of their timestamps. *)
Definition ascending_timestamps (result : list ip_traffic_row) : Prop :=
  StronglySorted
    (fun x y => text_le (it_timestamp x) (it_timestamp y) = true) result.


(** The sum of a list of integers. *)
Definition total (l : list Z) : Z := foldr Z.add 0 l.

(** Every running total of [l], started from [acc], fits 64 bits. *)
Fixpoint running_totals_fit (acc : Z) (l : list Z) : Prop :=
  match l with
  | [] => True
  | z :: l' => fits_int64 (acc + z) = true /\ running_totals_fit (acc + z) l'
  end.

(** The rows of [ip_traffic] whose timestamp is not before [start]. *)
Definition window_rows (start : string) (db : database) : list ip_traffic_row :=
  List.filter (fun r => text_le start (it_timestamp r)) (ip_traffic db).

(** Those of them that carry the address [ip]. *)
Definition rows_of_ip (ip : string) (start : string) (db : database)
  : list ip_traffic_row :=
  List.filter (fun r => String.eqb (it_ip_address r) ip) (window_rows start db).

(** The three sums of every address of the window can be computed in
    64 bits. *)
Definition sums_fit (start : string) (db : database) : Prop :=
  forall ip,
    running_totals_fit 0 (map it_tx_bytes (rows_of_ip ip start db))
    /\ running_totals_fit 0 (map it_rx_bytes (rows_of_ip ip start db))
    /\ running_totals_fit 0 (map it_total_bytes (rows_of_ip ip start db)).

(** [t] is the greatest text of [l]. *)
Definition is_latest (t : string) (l : list string) : Prop :=
  In t l /\ Forall (fun u => text_le u t = true) l.

(** [e] sums up the rows of its address in the window. *)
Definition summarizes (start : string) (db : database) (e : top_ip_row) : Prop :=
  let group := rows_of_ip (top_ip_address e) start db in
  group <> []
  /\ top_total_tx_bytes e = total (map it_tx_bytes group)
  /\ top_total_rx_bytes e = total (map it_rx_bytes group)
  /\ top_total_bytes e = total (map it_total_bytes group)
  /\ is_latest (top_last_seen e) (map it_timestamp group).

(** The output row of a group whose sums can be computed. *)
Definition summary (ip : string) (group : list ip_traffic_row) : top_ip_row :=
  {| top_ip_address := ip;
     top_total_tx_bytes := total (map it_tx_bytes group);
     top_total_rx_bytes := total (map it_rx_bytes group);
     top_total_bytes := total (map it_total_bytes group);
     top_last_seen := max_text (map it_timestamp group) |}.

(** Rows in descending order of their totals. *)
Definition descending_totals (result : list top_ip_row) : Prop :=
  StronglySorted (fun x y => top_total_bytes y <= top_total_bytes x) result.

(** The number that a byte field of an entry stands for: zero when the
    entry has no such field, nothing when the field is null or a text
    that [int] does not read. *)
Definition number_of_field (data : connection_entry) (key : string) : option Z :=
  match data !! key with
  | None => Some 0
  | Some (PInt z) => Some z
  | Some (PBool b) => Some (if b then 1 else 0)
  | Some (PStr s) => int_of_str s
  | Some PNone => None
  end.

(** The text that a field of an entry is stored as: the empty text when
    the entry has no such field, nothing when the field is null or a
    number that does not fit 64 bits. *)
Definition text_of_field (data : connection_entry) (key : string) : option string :=
  match data !! key with
  | None => Some ""
  | Some (PStr s) => Some s
  | Some (PInt z) => if fits_int64 z then Some (pretty z) else None
  | Some (PBool b) => Some (if b then "1" else "0")
  | Some PNone => None
  end.

(** [row] holds the fields of [data] and the timestamp of the batch. *)
Definition row_of_entry (timestamp : string) (data : connection_entry)
  (row : active_connections_row) : Prop :=
  text_of_field data "src-address" = Some (ac_src_address row)
  /\ text_of_field data "dst-address" = Some (ac_dst_address row)
  /\ text_of_field data "protocol" = Some (ac_protocol row)
  /\ number_of_field data "orig-bytes" = Some (ac_orig_bytes row)
  /\ number_of_field data "repl-bytes" = Some (ac_repl_bytes row)
  /\ ac_timestamp row = timestamp.

(** Every field of the entry can be stored. *)
Definition storable (data : connection_entry) : Prop :=
  is_Some (text_of_field data "src-address")
  /\ is_Some (text_of_field data "dst-address")
  /\ is_Some (text_of_field data "protocol")
  /\ (exists z, number_of_field data "orig-bytes" = Some z /\ fits_int64 z = true)
  /\ (exists z, number_of_field data "repl-bytes" = Some z /\ fits_int64 z = true).

(** One of the two byte fields is a text that is not a number. *)
Definition non_numeric (data : connection_entry) : Prop :=
  exists key s,
    (key = "orig-bytes" \/ key = "repl-bytes")
    /\ data !! key = Some (PStr s)
    /\ int_of_str s = None.

(** A missing byte field is stored as zero. *)
Definition missing_is_zero (data : connection_entry) (row : active_connections_row)
  : Prop :=
  (data !! "orig-bytes" = None -> ac_orig_bytes row = 0)
  /\ (data !! "repl-bytes" = None -> ac_repl_bytes row = 0).

(** The four counters of an interface fit 64 bits. *)
Definition counters_fit (item : string * interface_counters) : Prop :=
  fits_int64 (ic_tx_bytes (snd item)) = true
  /\ fits_int64 (ic_rx_bytes (snd item)) = true
  /\ fits_int64 (ic_tx_packets (snd item)) = true
  /\ fits_int64 (ic_rx_packets (snd item)) = true.


End DataStore.

(** ** The router client of src/mikrotik_api.py

    [get_traffic_by_ip] builds the per-address records from the entries
    of the connection table; the request to the router, by which the
    entries are obtained, belongs to the environment. *)

Module Client.

Import Py DataStore.

(** The value of [ip_traffic[ip]]. *)
Record counters : Type := {
  tx_bytes : Z;
  rx_bytes : Z;
  connections : Z
}.

Definition no_traffic : counters :=
  {| tx_bytes := 0; rx_bytes := 0; connections := 0 |}.

(** [ip_traffic], a dictionary, by its items in insertion order.
    [update ip f d] is [d] after [if ip not in d: d[ip] = zeros] and
    [d[ip] = f(d[ip])]. *)
Fixpoint update (ip : string) (f : counters -> counters)
  (d : list (string * counters)) : list (string * counters) :=
  match d with
  | [] => [(ip, f no_traffic)]
  | (k, v) :: d' =>
      if String.eqb k ip then (k, f v) :: d' else (k, v) :: update ip f d'
  end.

Definition add_tx (n : Z) (c : counters) : counters :=
  {| tx_bytes := tx_bytes c + n; rx_bytes := rx_bytes c;
     connections := connections c + 1 |}.

Definition add_rx (n : Z) (c : counters) : counters :=
  {| tx_bytes := tx_bytes c; rx_bytes := rx_bytes c + n;
     connections := connections c + 1 |}.

(** [conn.get(key, '').split(':')[0]]: a value that is not a text has no
    [split]. *)
Definition address_of (conn : connection_entry) (key : string) : outcome string :=
  match dict_get conn key (PStr "") with
  | PStr s => Returns (before_colon s)
  | _ => Raises "AttributeError"
  end.

(** The body of the loop over the connections. *)
Definition count_connection (conn : connection_entry)
  (d : list (string * counters)) : outcome (list (string * counters)) :=
  bind (address_of conn "src-address") (fun src_ip =>
  bind (address_of conn "dst-address") (fun dst_ip =>
  bind (if String.eqb src_ip "" then Returns d
        else bind (int (dict_get conn "orig-bytes" (PInt 0)))
               (fun n => Returns (update src_ip (add_tx n) d)))
    (fun d =>
  if String.eqb dst_ip "" then Returns d
  else bind (int (dict_get conn "repl-bytes" (PInt 0)))
         (fun n => Returns (update dst_ip (add_rx n) d))))).

(** The records of the result; the clock is read once for each. *)
Fixpoint records (d : list (string * counters)) (clock : nat -> DateTime.datetime)
  : list traffic_record :=
  match d with
  | [] => []
  | (ip, data) :: d' =>
      {| tr_ip_address := ip;
         tr_tx_bytes := tx_bytes data;
         tr_rx_bytes := rx_bytes data;
         tr_total_bytes := tx_bytes data + rx_bytes data;
         tr_connections := connections data;
         tr_timestamp := DateTime.isoformat (clock O) |}
      :: records d' (fun k => clock (S k))
  end.

(** [get_traffic_by_ip()], given the entries that
    [get_active_connections()] returned and the readings of the clock:
    an exception is logged and gives the empty list. *)
Definition get_traffic_by_ip (entries : list connection_entry)
  (clock : nat -> DateTime.datetime) : list traffic_record :=
  match for_each count_connection entries [] with
  | Returns d => records d clock
  | Raises _ => []
  end.

End Client.

(** ** The interface counters of src/mikrotik_api.py

    [get_bandwidth_usage] builds a dictionary from the entries of the
    interface table; the request to the router, by which the entries are
    obtained, belongs to the environment. *)

Module Interfaces.

Import Py DataStore.

(** Whether two values are the same dictionary key: [True] is the key
    [1] and [False] the key [0]. *)
Definition same_key (a b : value) : bool :=
  match a, b with
  | PNone, PNone => true
  | PStr s, PStr t => String.eqb s t
  | PInt x, PInt y => x =? y
  | PBool x, PBool y => Bool.eqb x y
  | PBool x, PInt y => (if x then 1 else 0) =? y
  | PInt x, PBool y => x =? (if y then 1 else 0)
  | _, _ => false
  end.

(** [bandwidth_data[k] = v], the dictionary given by its items in
    insertion order: the value of a key that is there is replaced where
    the key stands. *)
Fixpoint set_item (k : value) (v : interface_counters)
  (d : list (value * interface_counters)) : list (value * interface_counters) :=
  match d with
  | [] => [(k, v)]
  | (k', v') :: d' =>
      if same_key k' k then (k', v) :: d' else (k', v') :: set_item k v d'
  end.

(** ['name' in interface and 'tx-byte' in interface and 'rx-byte' in
    interface] *)
Definition has_counters (interface : connection_entry) : bool :=
  bool_decide (is_Some (interface !! "name"))
  && bool_decide (is_Some (interface !! "tx-byte"))
  && bool_decide (is_Some (interface !! "rx-byte")).

(** The dictionary built for one interface; the clock is read after the
    four counters. *)
Definition read_counters (interface : connection_entry) (now : DateTime.datetime)
  : outcome interface_counters :=
  bind (int (dict_get interface "tx-byte" (PInt 0))) (fun tx =>
  bind (int (dict_get interface "rx-byte" (PInt 0))) (fun rx =>
  bind (int (dict_get interface "tx-packet" (PInt 0))) (fun txp =>
  bind (int (dict_get interface "rx-packet" (PInt 0))) (fun rxp =>
  Returns {| ic_tx_bytes := tx;
             ic_rx_bytes := rx;
             ic_tx_packets := txp;
             ic_rx_packets := rxp;
             ic_timestamp := DateTime.isoformat now |})))).

(** The loop over the interfaces; the clock is read once for each
    interface that has its counters. *)
Fixpoint collect (interfaces : list connection_entry)
  (clock : nat -> DateTime.datetime)
  (bandwidth_data : list (value * interface_counters))
  : outcome (list (value * interface_counters)) :=
  match interfaces with
  | [] => Returns bandwidth_data
  | interface :: rest =>
      if has_counters interface then
        bind (read_counters interface (clock O)) (fun data =>
        collect rest (fun k => clock (S k))
          (set_item (dict_get interface "name" PNone) data bandwidth_data))
      else collect rest clock bandwidth_data
  end.

(** [get_bandwidth_usage()], given the entries of the interface table
    and the readings of the clock: an exception is logged and gives the
    empty dictionary. *)
Definition get_bandwidth_usage (interfaces : list connection_entry)
  (clock : nat -> DateTime.datetime) : list (value * interface_counters) :=
  match collect interfaces clock [] with
  | Returns bandwidth_data => bandwidth_data
  | Raises _ => []
  end.

(** *** Notions used to state what it returns *)

(** The interfaces that the loop reads: those that have their name and
    their two byte counters. *)
Definition counted_interfaces (interfaces : list connection_entry)
  : list connection_entry :=
  List.filter has_counters interfaces.

(** The four counters of an interface are numbers for [int]; a packet
    counter may be missing. *)
Definition readable_counters (interface : connection_entry) : bool :=
  match read_counters interface 0 with
  | Returns _ => true
  | Raises _ => false
  end.

(** [data] holds the counters of [interface], a missing packet counter
    as zero. *)
Definition counters_from (interface : connection_entry) (data : interface_counters)
  : Prop :=
  int (dict_get interface "tx-byte" (PInt 0)) = Returns (ic_tx_bytes data)
  /\ int (dict_get interface "rx-byte" (PInt 0)) = Returns (ic_rx_bytes data)
  /\ int (dict_get interface "tx-packet" (PInt 0)) = Returns (ic_tx_packets data)
  /\ int (dict_get interface "rx-packet" (PInt 0)) = Returns (ic_rx_packets data).

(** The name of [interface] is the key [k]. *)
Definition named (k : value) (interface : connection_entry) : Prop :=
  exists n, interface !! "name" = Some n /\ same_key n k = true.

(** No two items have the same key. *)
Fixpoint distinct_keys (d : list (value * interface_counters)) : Prop :=
  match d with
  | [] => True
  | (k, _) :: d' =>
      Forall (fun kv => same_key k (fst kv) = false) d' /\ distinct_keys d'
  end.

End Interfaces.

(** ** The application of src/app.py *)

Module App.

Import Py DataStore.

(** *** Session state *)

(** The fields of a [MikrotikAPI] object. *)
Record MikrotikAPI : Type := {
  host : string;
  username : string;
  password : string;
  port : Z;
  use_ssl : bool;
  is_connected : bool
}.

(** [st.session_state]; [stop_event] holds whether the event is set. *)
Record session_state : Type := {
  connected : bool;
  api : option MikrotikAPI;
  data_store : database;
  last_update : option DateTime.datetime;
  update_interval : Z;
  auto_update : bool;
  stop_event : bool
}.

(** The state after the initialisation at the top of the script, on a
    new database file. *)
Definition initial_session : session_state :=
  {| connected := false;
     api := None;
     data_store := empty_database;
     last_update := None;
     update_interval := 60;
     auto_update := false;
     stop_event := false |}.

Definition set_connected (b : bool) (s : session_state) : session_state :=
  {| connected := b; api := api s; data_store := data_store s;
     last_update := last_update s; update_interval := update_interval s;
     auto_update := auto_update s; stop_event := stop_event s |}.

Definition set_api (a : option MikrotikAPI) (s : session_state) : session_state :=
  {| connected := connected s; api := a; data_store := data_store s;
     last_update := last_update s; update_interval := update_interval s;
     auto_update := auto_update s; stop_event := stop_event s |}.

Definition set_data_store (db : database) (s : session_state) : session_state :=
  {| connected := connected s; api := api s; data_store := db;
     last_update := last_update s; update_interval := update_interval s;
     auto_update := auto_update s; stop_event := stop_event s |}.

Definition set_last_update (t : DateTime.datetime) (s : session_state) : session_state :=
  {| connected := connected s; api := api s; data_store := data_store s;
     last_update := Some t; update_interval := update_interval s;
     auto_update := auto_update s; stop_event := stop_event s |}.

Definition set_update_interval (n : Z) (s : session_state) : session_state :=
  {| connected := connected s; api := api s; data_store := data_store s;
     last_update := last_update s; update_interval := n;
     auto_update := auto_update s; stop_event := stop_event s |}.

Definition set_auto_update (b : bool) (s : session_state) : session_state :=
  {| connected := connected s; api := api s; data_store := data_store s;
     last_update := last_update s; update_interval := update_interval s;
     auto_update := b; stop_event := stop_event s |}.

Definition set_stop_event (b : bool) (s : session_state) : session_state :=
  {| connected := connected s; api := api s; data_store := data_store s;
     last_update := last_update s; update_interval := update_interval s;
     auto_update := auto_update s; stop_event := b |}.

(** *** The environment of one collection cycle

    What the router client answers to each of the three requests of a
    cycle (a value, or an exception that leaves the method), an exception
    that leaves a store method after it has done its work (for instance
    out of its [finally] clause), and the readings of the clock. *)
Record cycle_environment : Type := {
  get_active_connections : outcome (list connection_entry);
  get_bandwidth_usage : outcome (list (string * interface_counters));
  get_traffic_by_ip : outcome (list traffic_record);
  store_connections_fault : option string;
  store_bandwidth_fault : option string;
  store_traffic_fault : option string;
  now_store_connections : DateTime.datetime;
  now_last_update : DateTime.datetime
}.

(** *** Statements that read and write the session and may raise *)

Definition action (A : Type) : Type := session_state -> outcome A * session_state.

Definition ret {A : Type} (a : A) : action A := fun s => (Returns a, s).

Definition raise {A : Type} (exn : string) : action A := fun s => (Raises exn, s).

Definition seq {A B : Type} (m : action A) (k : A -> action B) : action B :=
  fun s =>
    match m s with
    | (Returns a, s') => k a s'
    | (Raises e, s') => (Raises e, s')
    end.

(** [try: body / except Exception as e: handler]; what [body] did to the
    session before it raised stays done. *)
Definition try_except {A : Type} (body : action A) (handler : string -> action A)
  : action A :=
  fun s =>
    match body s with
    | (Returns a, s') => (Returns a, s')
    | (Raises e, s') => handler e s'
    end.

(** The answer of a method of the router client. *)
Definition request {A : Type} (answer : outcome A) : action A :=
  fun s => (answer, s).

(** A call of a store method: the database is replaced by the one the
    method leaves, then [fault], if any, is raised. *)
Definition call_store (fault : option string)
  (method : database -> bool * database) : action bool :=
  fun s =>
    let '(flag, db) := method (data_store s) in
    match fault with
    | Some e => (Raises e, set_data_store db s)
    | None => (Returns flag, set_data_store db s)
    end.

Definition when (b : bool) (m : action bool) : action unit :=
  if b then seq m (fun _ => ret tt) else ret tt.

Definition nonempty {A : Type} (l : list A) : bool :=
  match l with
  | [] => false
  | _ => true
  end.

(** An action keeps a property of the session. *)
Definition keeps {A : Type} (P : session_state -> Prop) (m : action A) : Prop :=
  forall s r s', m s = (r, s') -> P s -> P s'.

(** *** [collect_data] *)

(** The test that [collect_data] makes before its [try] statement:
    [not connected or not api]. *)
Definition collect_refused (s : session_state) : bool :=
  negb (connected s) || negb (bool_decide (is_Some (api s))).

(** The body of the [try] statement. *)
Definition collect_steps (env : cycle_environment) : action bool :=
  seq (request (get_active_connections env)) (fun connections =>
  seq (when (nonempty connections)
         (call_store (store_connections_fault env)
            (store_active_connections (now_store_connections env) connections)))
    (fun _ =>
  seq (request (get_bandwidth_usage env)) (fun bandwidth =>
  seq (when (nonempty bandwidth)
         (call_store (store_bandwidth_fault env) (store_bandwidth_usage bandwidth)))
    (fun _ =>
  seq (request (get_traffic_by_ip env)) (fun traffic =>
  seq (when (nonempty traffic)
         (call_store (store_traffic_fault env) (store_ip_traffic traffic)))
    (fun _ =>
  seq (fun s => (Returns tt, set_last_update (now_last_update env) s)) (fun _ =>
  ret true))))))).

(** The [try] statement with its handler, which logs and returns [False]. *)
Definition collect_guarded (env : cycle_environment) : action bool :=
  try_except (collect_steps env) (fun _ => ret false).

Definition collect_data (env : cycle_environment) : action bool :=
  fun s =>
    if collect_refused s then (Returns false, s) else collect_guarded env s.

(** A step that the cycle reaches raises: a request of the router
    client, or the store call made for an answer that is not empty. *)
Definition cycle_raises (env : cycle_environment) : Prop :=
  match get_active_connections env with
  | Raises _ => True
  | Returns connections =>
      (nonempty connections = true /\ is_Some (store_connections_fault env))
      \/ match get_bandwidth_usage env with
         | Raises _ => True
         | Returns bandwidth =>
             (nonempty bandwidth = true /\ is_Some (store_bandwidth_fault env))
             \/ match get_traffic_by_ip env with
                | Raises _ => True
                | Returns traffic =>
                    nonempty traffic = true /\ is_Some (store_traffic_fault env)
                end
         end
  end.

(** *** The Connect and Disconnect buttons *)

Record connection_settings : Type := {
  form_host : string;
  form_username : string;
  form_password : string;
  form_port : Z;
  form_use_ssl : bool
}.

(** What the sidebar shows after a click. *)
Inductive notice : Type :=
| InvalidHost
| ConnectedSuccessfully
| FailedToConnect
| DisconnectedSuccessfully
| DataUpdated
| UpdateFailed.

(** The session together with the number of background threads that the
    process has started. *)
Record process : Type := {
  session : session_state;
  threads_started : nat
}.

(** [MikrotikAPI(host, username, password, port, use_ssl)] followed by
    [connect()], whose result is [authenticated]. *)
Definition new_api (form : connection_settings) (authenticated : bool) : MikrotikAPI :=
  {| host := form_host form;
     username := form_username form;
     password := form_password form;
     port := form_port form;
     use_ssl := form_use_ssl form;
     is_connected := authenticated |}.

(** A click on Connect, shown while the session is not connected.
    [authenticated] is the result of [api.connect()], [env] the
    environment of the first collection. *)
Definition connect_button (form : connection_settings) (authenticated : bool)
  (env : cycle_environment) (p : process) : process * option notice :=
  let s := session p in
  if connected s then (p, None)
  else if negb (HostCheck.is_valid_ip (form_host form))
          && negb (startswith (form_host form) "http")
  then (p, Some InvalidHost)
  else
    let s := set_api (Some (new_api form authenticated)) s in
    if authenticated then
      let s := set_connected true s in
      let s := set_stop_event false s in
      let started := S (threads_started p) in
      let '(_, s) := collect_data env s in
      ({| session := s; threads_started := started |}, Some ConnectedSuccessfully)
    else
      ({| session := s; threads_started := threads_started p |}, Some FailedToConnect).

(** [MikrotikAPI.disconnect()] *)
Definition api_disconnect (a : MikrotikAPI) : MikrotikAPI :=
  {| host := host a; username := username a; password := password a;
     port := port a; use_ssl := use_ssl a; is_connected := false |}.

(** A click on Disconnect, shown while the session is connected. *)
Definition disconnect_button (p : process) : process * option notice :=
  let s := session p in
  if connected s then
    let s := set_api (option_map api_disconnect (api s)) s in
    let s := set_connected false s in
    let s := set_stop_event true s in
    ({| session := s; threads_started := threads_started p |},
     Some DisconnectedSuccessfully)
  else (p, None).

(** A click on Update Now, shown while the session is connected. *)
Definition update_now_button (env : cycle_environment) (p : process)
  : process * option notice :=
  let s := session p in
  if connected s then
    match collect_data env s with
    | (Returns true, s') =>
        ({| session := s'; threads_started := threads_started p |}, Some DataUpdated)
    | (_, s') =>
        ({| session := s'; threads_started := threads_started p |}, Some UpdateFailed)
    end
  else (p, None).

(** *** The background loop

    [background_data_collection] runs in a thread of its own, next to
    the user's actions on the session.  A world is the session, the place
    the thread has reached and the time it has spent in [time.sleep]. *)

Inductive place : Type :=
| LoopTest          (* about to evaluate the condition of the while loop *)
| LoopBody          (* about to evaluate the condition of the if statement *)
| CollectCall       (* about to call collect_data *)
| InCycle           (* inside the try statement of collect_data *)
| SleepCall         (* about to call time.sleep *)
| Sleeping (n : Z)  (* inside time.sleep(n) *)
| Exited            (* the loop has ended *)
| Crashed.          (* an exception has left the thread's function *)

Record world : Type := {
  shared : session_state;
  at_place : place;
  slept : Z
}.

Definition start_world (s : session_state) : world :=
  {| shared := s; at_place := LoopTest; slept := 0 |}.

(** What the user interface writes to the session from its own thread. *)
Inductive ui_write : Type :=
| SetStop
| ClearStop
| WriteConnected (b : bool)
| WriteAutoUpdate (b : bool)
| WriteInterval (n : Z)
| WriteApi (a : option MikrotikAPI).

Definition apply_write (u : ui_write) (s : session_state) : session_state :=
  match u with
  | SetStop => set_stop_event true s
  | ClearStop => set_stop_event false s
  | WriteConnected b => set_connected b s
  | WriteAutoUpdate b => set_auto_update b s
  | WriteInterval n => set_update_interval n s
  | WriteApi a => set_api a s
  end.

(** The interval slider offers 10 to 300 seconds. *)
Definition write_allowed (u : ui_write) : Prop :=
  match u with
  | WriteInterval n => 10 <= n <= 300
  | _ => True
  end.

Inductive label : Type :=
| TestStop (observed : bool)      (* stop_event.is_set() *)
| TestEnabled (observed : bool)   (* connected and auto_update *)
| EnterCollect (entered : bool)   (* collect_data passed its first test *)
| LeaveCollect (result : bool)    (* collect_data returned *)
| Escaped                         (* collect_data raised *)
| StartSleep (n : Z)
| Wake (n : Z)
| Ui (u : ui_write).

Definition is_thread_label (l : label) : bool :=
  match l with
  | Ui _ => false
  | _ => true
  end.

Definition move (w : world) (s : session_state) (p : place) : world :=
  {| shared := s; at_place := p; slept := slept w |}.

Inductive step : world -> label -> world -> Prop :=
| step_test_stop w :
    at_place w = LoopTest ->
    step w (TestStop (stop_event (shared w)))
      (move w (shared w) (if stop_event (shared w) then Exited else LoopBody))
| step_test_enabled w :
    at_place w = LoopBody ->
    let enabled := connected (shared w) && auto_update (shared w) in
    step w (TestEnabled enabled)
      (move w (shared w) (if enabled then CollectCall else SleepCall))
| step_enter_collect w :
    at_place w = CollectCall ->
    let refused := collect_refused (shared w) in
    step w (EnterCollect (negb refused))
      (move w (shared w) (if refused then SleepCall else InCycle))
| step_leave_collect w env result s' :
    at_place w = InCycle ->
    collect_guarded env (shared w) = (Returns result, s') ->
    step w (LeaveCollect result) (move w s' SleepCall)
| step_escape w env e s' :
    at_place w = InCycle ->
    collect_guarded env (shared w) = (Raises e, s') ->
    step w Escaped (move w s' Crashed)
| step_start_sleep w :
    at_place w = SleepCall ->
    step w (StartSleep (update_interval (shared w)))
      (move w (shared w) (Sleeping (update_interval (shared w))))
| step_wake w n :
    at_place w = Sleeping n ->
    step w (Wake n)
      {| shared := shared w; at_place := LoopTest; slept := slept w + n |}
| step_ui w u :
    write_allowed u ->
    step w (Ui u) (move w (apply_write u (shared w)) (at_place w)).

(** A run: the labels of its steps, the first one first. *)
Inductive run : world -> list label -> world -> Prop :=
| run_nil w : run w [] w
| run_step w0 ls w l w' :
    run w0 ls w -> step w l w' -> run w0 (ls ++ [l])%list w'.

Definition thread_trace (ls : list label) : list label :=
  List.filter is_thread_label ls.

(** In the trace of the thread, a call of [collect_data] follows the
    test of the [if] statement, found true, which follows the test of
    the stop event, found unset. *)
Definition cycle_follows_test (tr : list label) : Prop :=
  forall i b,
    tr !! i = Some (EnterCollect b) ->
    exists j, i = S (S j)
              /\ tr !! S j = Some (TestEnabled true)
              /\ tr !! j = Some (TestStop false).

(** In the trace of the thread, nothing follows the test that finds the
    stop event set. *)
Definition stop_ends_trace (tr : list label) : Prop :=
  forall i, tr !! i = Some (TestStop true) -> length tr = S i.

(** In the trace of the thread, the stop event is tested at the very
    start and right after a sleep, nowhere else. *)
Definition test_follows_wake (tr : list label) : Prop :=
  forall i b,
    tr !! i = Some (TestStop b) ->
    i = 0%nat \/ exists j n, i = S j /\ tr !! j = Some (Wake n).

(** What the trace of the thread tells about the place it has reached. *)
Definition trace_fits (tr : list label) (p : place) : Prop :=
  (p = LoopBody -> exists tr', tr = (tr' ++ [TestStop false])%list)
  /\ (p = CollectCall ->
      exists tr', tr = (tr' ++ [TestStop false; TestEnabled true])%list)
  /\ (p <> Exited -> ~ In (TestStop true) tr)
  /\ (p = LoopTest -> tr = [] \/ exists tr' n, tr = (tr' ++ [Wake n])%list).


(** The steps that the thread still takes, at most, once the stop event
    is set and stays set. *)
Definition steps_to_exit (p : place) : nat :=
  match p with
  | LoopBody => 6
  | CollectCall => 5
  | InCycle => 4
  | SleepCall => 3
  | Sleeping _ => 2
  | LoopTest => 1
  | Exited => 0
  | Crashed => 0
  end.

(** The sleeps that the thread still ends, at most, once the stop event
    is set and stays set. *)
Definition sleeps_to_exit (p : place) : nat :=
  match p with
  | LoopTest => 0
  | Exited => 0
  | Crashed => 0
  | _ => 1
  end.

Definition is_wake (l : label) : bool :=
  match l with
  | Wake _ => true
  | _ => false
  end.

Definition is_clear_stop (l : label) : bool :=
  match l with
  | Ui ClearStop => true
  | _ => false
  end.

(** The stop event is read at the top of every iteration and before and
    after sleeping: in the trace of the thread, a sleep follows a test
    of the stop event and is followed by one. *)
Definition stop_checked_around_sleep : Prop :=
  forall s0 ls w,
    run (start_world s0) ls w ->
    forall i n,
      thread_trace ls !! S i = Some (StartSleep n) ->
      exists b, thread_trace ls !! i = Some (TestStop b).

(** Once the stop event is set, the loop is left before a full period
    of sleep has passed. *)
Definition exits_promptly : Prop :=
  forall s0 ls1 w1 ls2 w2,
    run (start_world s0) ls1 w1 ->
    stop_event (shared w1) = true ->
    run w1 ls2 w2 ->
    at_place w2 = Exited ->
    slept w2 - slept w1 < update_interval (shared w1).

End App.

(** ** Calendar arithmetic

    Auxiliary notions for reasoning about [DateTime.ord2ymd] and
    [DateTime.isoformat]: the month and day of a day of the year, the
    order of dates, and numbers written with a fixed number of digits. *)

Module Calendar.

Import DateTime.

(** The month and the day of the month of the day [n] of a year, with
    January 1st the day 0: the last steps of [ord2ymd]. *)
Definition month_day (n : Z) (leapyear : bool) : Z * Z :=
  let month := Z.shiftr (n + 50) 5 in
  let preceding :=
    table_at days_before_month month
    + (if (2 <? month) && leapyear then 1 else 0) in
  if n <? preceding then
    let month := month - 1 in
    let preceding :=
      preceding
      - (table_at days_in_month month
         + (if (month =? 2) && leapyear then 1 else 0)) in
    (month, n - preceding + 1)
  else (month, n - preceding + 1).

(** A number that orders the days of a year as month and day do. *)
Definition day_number (md : Z * Z) : Z := fst md * 32 + snd md.

Definition month_day_in_range (md : Z * Z) : bool :=
  (1 <=? fst md) && (fst md <=? 12) && (1 <=? snd md) && (snd md <=? 31).

(** [p] holds of the numbers below [k]. *)
Fixpoint all_below (k : nat) (p : Z -> bool) : bool :=
  match k with
  | O => true
  | S k' => p (Z.of_nat k') && all_below k' p
  end.

(** The days of a year come in the order of their numbers, and the
    last day of a leap year comes after them. *)
Definition year_in_order (leapyear : bool) : bool :=
  all_below 365 (fun r =>
    month_day_in_range (month_day r leapyear)
    && ((r =? 364)
        || (day_number (month_day r leapyear)
            <? day_number (month_day (r + 1) leapyear)))
    && (negb leapyear
        || (day_number (month_day r leapyear) <? day_number (12, 31)))).

(** The counts of whole 400, 100, 4 and 1 year cycles before the day
    [n], counted from 0, and the days left over, as [ord2ymd] computes
    them. *)
Definition n400 (n : Z) : Z := n / 146097.
Definition n100 (n : Z) : Z := n mod 146097 / 36524.
Definition n4 (n : Z) : Z := n mod 146097 mod 36524 / 1461.
Definition n1 (n : Z) : Z := n mod 146097 mod 36524 mod 1461 / 365.
Definition left_over (n : Z) : Z := n mod 146097 mod 36524 mod 1461 mod 365.

(** The day is the last one of a 4 or of a 400 year cycle. *)
Definition last_of_cycle (n : Z) : bool := (n1 n =? 4) || (n100 n =? 4).

Definition leap_year (n : Z) : bool :=
  (n1 n =? 3) && (negb (n4 n =? 24) || (n100 n =? 3)).

Definition year_of (n : Z) : Z :=
  n400 n * 400 + 1 + n100 n * 100 + n4 n * 4 + n1 n
  - (if last_of_cycle n then 1 else 0).

Definition day_of_year (n : Z) : Z :=
  if last_of_cycle n then 365 else left_over n.

(** The first difference decides. *)
Definition lexicographic (c rest : comparison) : comparison :=
  match c with
  | Eq => rest
  | Lt => Lt
  | Gt => Gt
  end.

(** The order of dates. *)
Definition date_compare (a b : Z * Z * Z) : comparison :=
  let '(y1, m1, d1) := a in
  let '(y2, m2, d2) := b in
  lexicographic (y1 ?= y2) (lexicographic (m1 ?= m2) (d1 ?= d2)).

(** The decimal digit [z]. *)
Definition digit_char (z : Z) : ascii := pretty_N_char (Z.to_N z).

(** The last [w] decimal digits of [z]. *)
Fixpoint fixed_width (w : nat) (z : Z) : string :=
  match w with
  | O => ""
  | S w' => (fixed_width w' (z / 10) ++ String (digit_char (z mod 10)) "")%string
  end.

(** The fields of an instant, as [isoformat] prints them. *)
Record fields : Type := {
  year : Z;
  month : Z;
  day : Z;
  hour : Z;
  minute : Z;
  second : Z;
  microsecond : Z
}.

Definition fields_of (t : datetime) : fields :=
  let '(y, m, d) := ord2ymd (t / usec_per_day + 1) in
  let r := t mod usec_per_day in
  {| year := y; month := m; day := d;
     hour := r / usec_per_hour;
     minute := (r mod usec_per_hour) / (60 * usec_per_second);
     second := (r mod (60 * usec_per_second)) / usec_per_second;
     microsecond := r mod usec_per_second |}.

(** The text of [isoformat] from the fields. *)
Definition render (f : fields) : string :=
  (zero_padded 4 (year f) ++ "-" ++ zero_padded 2 (month f) ++ "-"
   ++ zero_padded 2 (day f) ++ "T" ++ zero_padded 2 (hour f) ++ ":"
   ++ zero_padded 2 (minute f) ++ ":" ++ zero_padded 2 (second f)
   ++ (if (microsecond f =? 0)%Z then ""
       else "." ++ zero_padded 6 (microsecond f)))%string.

Definition fields_compare (a b : fields) : comparison :=
  lexicographic (year a ?= year b)
  (lexicographic (month a ?= month b)
  (lexicographic (day a ?= day b)
  (lexicographic (hour a ?= hour b)
  (lexicographic (minute a ?= minute b)
  (lexicographic (second a ?= second b)
     (microsecond a ?= microsecond b)))))).

Definition fields_in_range (f : fields) : Prop :=
  0 <= year f < 10000 /\ 0 <= month f < 100 /\ 0 <= day f < 100
  /\ 0 <= hour f < 100 /\ 0 <= minute f < 100 /\ 0 <= second f < 100
  /\ 0 <= microsecond f < 1000000.

End Calendar.

(** ** Further notions used to state what the store does *)

Module StoreNotions.

Import Py Sqlite DataStore.

(** The item that a row of [bandwidth_usage] holds, its id left out. *)
Definition item_of_row (row : bandwidth_usage_row) : string * interface_counters :=
  (bu_interface row,
   {| ic_tx_bytes := bu_tx_bytes row;
      ic_rx_bytes := bu_rx_bytes row;
      ic_tx_packets := bu_tx_packets row;
      ic_rx_packets := bu_rx_packets row;
      ic_timestamp := bu_timestamp row |}).

(** Samples in ascending order of their timestamps. *)
Definition ascending_samples (result : list bandwidth_usage_row) : Prop :=
  StronglySorted
    (fun x y => text_le (bu_timestamp x) (bu_timestamp y) = true) result.

(** The rows of [bandwidth_usage] whose timestamp is not before [start]. *)
Definition samples_since (start : string) (db : database)
  : list bandwidth_usage_row :=
  List.filter (fun r => text_le start (bu_timestamp r)) (bandwidth_usage db).

(** The rows of [active_connections] whose timestamp is not before
    [start]. *)
Definition connections_since (start : string) (db : database)
  : list active_connections_row :=
  List.filter (fun r => text_le start (ac_timestamp r)) (active_connections db).

(** The number of rows of [l] whose [column] holds [k]. *)
Definition occurrences (column : active_connections_row -> string) (k : string)
  (l : list active_connections_row) : Z :=
  Z.of_nat (length (List.filter (fun r => String.eqb (column r) k) l)).

(** Counts in descending order. *)
Definition descending_counts (l : list (string * Z)) : Prop :=
  StronglySorted (fun x y => snd y <= snd x) l.

(** [counts] lists keys of [column] among [l], each once and with the
    number of its rows, the greater counts first. *)
Definition counts_rows (column : active_connections_row -> string)
  (l : list active_connections_row) (counts : list (string * Z)) : Prop :=
  List.NoDup (map fst counts)
  /\ Forall (fun kc => snd kc = occurrences column (fst kc) l /\ 1 <= snd kc) counts
  /\ descending_counts counts.

(** The instant at which the window of a query made at [now] for the
    last [hours] hours starts. *)
Definition window_instant (now : DateTime.datetime) (hours : Z) : Z :=
  now - hours * DateTime.usec_per_hour.

End StoreNotions.

(** ** Notions used to state what the router client computes *)

Module ClientNotions.

Import Py DataStore Client.

(** The address at one end of a connection: the text before the first
    colon of the field, empty when the entry has no such field. *)
Definition endpoint (conn : connection_entry) (key : string) : string :=
  match dict_get conn key (PStr "") with
  | PStr s => before_colon s
  | _ => ""
  end.

(** The number that a byte field stands for, zero when [int] refuses
    it. *)
Definition byte_count (conn : connection_entry) (key : string) : Z :=
  match int (dict_get conn key (PInt 0)) with
  | Returns z => z
  | Raises _ => 0
  end.

Definition is_text (v : value) : bool :=
  match v with
  | PStr _ => true
  | _ => false
  end.

Definition is_number (v : value) : bool :=
  match int v with
  | Returns _ => true
  | Raises _ => false
  end.

(** The loop body of [get_traffic_by_ip] can read the entry: both
    address fields are texts or missing, and the byte count of an end
    that has an address is one that [int] accepts. *)
Definition readable (conn : connection_entry) : bool :=
  is_text (dict_get conn "src-address" (PStr ""))
  && is_text (dict_get conn "dst-address" (PStr ""))
  && (String.eqb (endpoint conn "src-address") ""
      || is_number (dict_get conn "orig-bytes" (PInt 0)))
  && (String.eqb (endpoint conn "dst-address") ""
      || is_number (dict_get conn "repl-bytes" (PInt 0))).

(** What the loop body does to the dictionary for an entry that it can
    read. *)
Definition counted (conn : connection_entry) (d : list (string * counters))
  : list (string * counters) :=
  let src_ip := endpoint conn "src-address" in
  let dst_ip := endpoint conn "dst-address" in
  let d :=
    if String.eqb src_ip "" then d
    else update src_ip (add_tx (byte_count conn "orig-bytes")) d in
  if String.eqb dst_ip "" then d
  else update dst_ip (add_rx (byte_count conn "repl-bytes")) d.

(** The bytes that an entry adds to the sent bytes of its source, to the
    received bytes of its destination, and the ends that it adds to the
    connection counts. *)
Definition sent (conn : connection_entry) : Z :=
  if String.eqb (endpoint conn "src-address") "" then 0
  else byte_count conn "orig-bytes".

Definition received (conn : connection_entry) : Z :=
  if String.eqb (endpoint conn "dst-address") "" then 0
  else byte_count conn "repl-bytes".

Definition ends (conn : connection_entry) : Z :=
  (if String.eqb (endpoint conn "src-address") "" then 0 else 1)
  + (if String.eqb (endpoint conn "dst-address") "" then 0 else 1).

(** [ip] is the address of an end of [conn]. *)
Definition end_of (ip : string) (conn : connection_entry) : Prop :=
  ip <> "" /\ (endpoint conn "src-address" = ip \/ endpoint conn "dst-address" = ip).

(** The readings of the clock that stamp the records of a result. *)
Fixpoint readings (n : nat) (clock : nat -> DateTime.datetime)
  : list DateTime.datetime :=
  match n with
  | O => []
  | S n' => clock O :: readings n' (fun k => clock (S k))
  end.

End ClientNotions.

(** ** Notions used to state what the cycle and the loop do *)

Module AppNotions.

Import Py DataStore App.

(** A cycle in which the router client answers its three requests and
    no store method raises. *)
Definition answered (connections : list connection_entry)
  (bandwidth : list (string * interface_counters)) (traffic : list traffic_record)
  (now_store now_update : DateTime.datetime) : cycle_environment :=
  {| get_active_connections := Returns connections;
     get_bandwidth_usage := Returns bandwidth;
     get_traffic_by_ip := Returns traffic;
     store_connections_fault := None;
     store_bandwidth_fault := None;
     store_traffic_fault := None;
     now_store_connections := now_store;
     now_last_update := now_update |}.

(** The database after the three store calls of such a cycle, each made
    when its answer is not empty. *)
Definition stored_by_cycle (connections : list connection_entry)
  (bandwidth : list (string * interface_counters)) (traffic : list traffic_record)
  (now_store : DateTime.datetime) (db : database) : database :=
  let db :=
    if nonempty connections
    then snd (store_active_connections now_store connections db) else db in
  let db :=
    if nonempty bandwidth then snd (store_bandwidth_usage bandwidth db) else db in
  if nonempty traffic then snd (store_ip_traffic traffic db) else db.




(** Four groups of one to three digits joined by dots, with or without
    a newline at the very end. *)
Definition dotted_digits (host : string) : Prop :=
  exists a b c d,
    HostCheck.digit_group a /\ HostCheck.digit_group b
    /\ HostCheck.digit_group c /\ HostCheck.digit_group d
    /\ (host = HostCheck.dotted a b c d
        \/ host = (HostCheck.dotted a b c d ++ String "010" "")%string).

End AppNotions.

(** ** What the pages show: src/visualization.py and the metrics of
    src/app.py

    A double that the code computes is a whole number divided by a power
    of two; it is given by the two numbers, so the arithmetic below is
    exact. *)

Module Visualization.

Import Py.

Definition size_names : list string := ["B"; "KB"; "MB"; "GB"; "TB"; "PB"].

(** The integer nearest to [a / b], for [b] positive; of two nearest
    ones, the even one. *)
Definition round_half_even (a b : Z) : Z :=
  let q := a / b in
  let r := a mod b in
  if 2 * r <? b then q
  else if b <? 2 * r then q + 1
  else if Z.even q then q
  else q + 1.

(** [float(n)] for an [int]: the nearest number with 53 significant
    bits, which is a whole number; [OverflowError] when it would reach
    2^1024. *)
Definition float_of_int (n : Z) : outcome Z :=
  let a := Z.abs n in
  let excess := Z.log2 a + 1 - 53 in
  let rounded :=
    if excess <=? 0 then a
    else round_half_even a (2 ^ excess) * 2 ^ excess in
  if 2 ^ 1024 <=? rounded then Raises "OverflowError"
  else Returns (Z.sgn n * rounded).

(** The iterations of the [while] loop that follow the first one, on the
    double [m / 2 ^ k]: a division by [1024.0] is exact. *)
Fixpoint divide_by_1024 (units_left : nat) (m k : Z) (i : nat) : Z * Z * nat :=
  match units_left with
  | O => (m, k, i)
  | S units_left' =>
      if 1024 * 2 ^ k <=? m then divide_by_1024 units_left' m (k + 10) (S i)
      else (m, k, i)
  end.

(** The number of hundredths nearest to the double [m / 2 ^ k], without
    its sign. *)
Definition hundredths (m k : Z) : Z := round_half_even (100 * Z.abs m) (2 ^ k).

(** A number of hundredths with two decimals. *)
Definition two_decimals (h : Z) : string :=
  (pretty (h / 100) ++ "." ++ DateTime.zero_padded 2 (h mod 100))%string.

(** [f"{x:.2f}"] for the double [m / 2 ^ k]. *)
Definition format_2f (m k : Z) : string :=
  ((if (m <? 0)%Z then "-" else "") ++ two_decimals (hundredths m k))%string.

(** [human_readable_size(size_bytes)] for an [int]. *)
Definition human_readable_size (size_bytes : Z) : outcome string :=
  if size_bytes =? 0 then Returns "0B"
  else if 1024 <=? size_bytes then
    bind (float_of_int size_bytes) (fun m =>
    let '(m, k, i) := divide_by_1024 4 m 10 1 in
    Returns (format_2f m k ++ " " ++ nth i size_names "")%string)
  else
    bind (float_of_int size_bytes) (fun m =>
    Returns (format_2f m 0 ++ " B")%string).

(** The unit of a size that is at least one byte: the greatest power of
    1024 that is not above it, up to the fifth. *)
Definition unit_index (n : Z) : nat :=
  if n <? 1024 then 0%nat
  else if n <? 1024 ^ 2 then 1%nat
  else if n <? 1024 ^ 3 then 2%nat
  else if n <? 1024 ^ 4 then 3%nat
  else if n <? 1024 ^ 5 then 4%nat
  else 5%nat.

End Visualization.

Module Dashboard.

(** [timedelta.seconds] of a difference of [d] microseconds: the whole
    seconds of the difference within its day. *)
Definition timedelta_seconds (d : Z) : Z :=
  (d mod DateTime.usec_per_day) / DateTime.usec_per_second.

(** The text of the Data Age metric of the bandwidth page, at the
    reading [now] of the clock.  The page shows the metric when it has
    samples to show and there has been an update; [None] stands for no
    update. *)
Definition data_age (now : DateTime.datetime)
  (last_update : option DateTime.datetime) : option string :=
  match last_update with
  | Some t => Some (pretty (timedelta_seconds (now - t)) ++ " seconds")%string
  | None => None
  end.

End Dashboard.

(** ** Sample data *)

Module Examples.

Import Py Sqlite DataStore.



(** Noon of 2024-01-01 and three readings shortly after it. *)
Definition noon : DateTime.datetime := DateTime.at_ordinal 738886 12 0 0 0.

(** Two records of a collection made two seconds before noon. *)
Definition sample_traffic : list traffic_record :=
  [ {| tr_ip_address := "192.168.88.10";
       tr_tx_bytes := 4200; tr_rx_bytes := 0; tr_total_bytes := 4200;
       tr_connections := 3;
       tr_timestamp := "2024-01-01T11:59:58.100050" |};
    {| tr_ip_address := "8.8.8.8";
       tr_tx_bytes := 0; tr_rx_bytes := 9100; tr_total_bytes := 9100;
       tr_connections := 2;
       tr_timestamp := "2024-01-01T11:59:58.100021" |} ].

(** A record whose total is not the sum of its directions. *)
Definition inconsistent_record : traffic_record :=
  {| tr_ip_address := "10.0.0.7";
     tr_tx_bytes := 1; tr_rx_bytes := 2; tr_total_bytes := 7;
     tr_connections := 1;
     tr_timestamp := "2024-01-01T11:59:59" |}.

(** A record stamped two days before noon. *)
Definition stale_record : traffic_record :=
  {| tr_ip_address := "10.0.0.8";
     tr_tx_bytes := 5; tr_rx_bytes := 6; tr_total_bytes := 11;
     tr_connections := 1;
     tr_timestamp := "2023-12-30T12:00:00" |}.

Definition traffic_row (id : Z) (ip : string) (tx rx : Z) (timestamp : string)
  : ip_traffic_row :=
  {| it_id := id; it_ip_address := ip; it_tx_bytes := tx; it_rx_bytes := rx;
     it_total_bytes := tx + rx; it_connections := 1; it_timestamp := timestamp |}.

(** Two collections before noon of 2024-01-01 and one of the week before. *)
Definition traffic_database : database :=
  {| ip_traffic :=
       [ traffic_row 1 "192.168.88.10" 900 100 "2023-12-24T09:00:00.000100";
         traffic_row 2 "192.168.88.10" 300 50 "2024-01-01T10:00:00.000200";
         traffic_row 3 "8.8.8.8" 0 700 "2024-01-01T10:00:00.000210";
         traffic_row 4 "192.168.88.10" 200 40 "2024-01-01T11:00:00.000300";
         traffic_row 5 "8.8.8.8" 0 150 "2024-01-01T11:00:00.000310" ];
     bandwidth_usage := [];
     active_connections := [] |}.

(** Two rows of one address whose totals add up to 2^63. *)
Definition heavy_database : database :=
  {| ip_traffic :=
       [ traffic_row 1 "10.0.0.9" (2 ^ 61) (2 ^ 61) "2024-01-01T10:00:00";
         traffic_row 2 "10.0.0.9" (2 ^ 61) (2 ^ 61) "2024-01-01T11:00:00" ];
     bandwidth_usage := [];
     active_connections := [] |}.

(** Entries of a connection table: a complete one, one without byte
    counts, and one whose byte count is not a number. *)
Definition complete_entry : connection_entry :=
  list_to_map [ ("src-address", PStr "192.168.88.10:51234");
                ("dst-address", PStr "8.8.8.8:53");
                ("protocol", PStr "udp");
                ("orig-bytes", PInt 120);
                ("repl-bytes", PStr "300") ].

Definition bare_entry : connection_entry :=
  list_to_map [ ("src-address", PStr "192.168.88.11:40000");
                ("dst-address", PStr "1.1.1.1:443");
                ("protocol", PStr "tcp") ].

Definition garbled_entry : connection_entry :=
  list_to_map [ ("src-address", PStr "192.168.88.12:40001");
                ("dst-address", PStr "1.1.1.1:443");
                ("protocol", PStr "tcp");
                ("orig-bytes", PStr "n/a") ].

(** A session that is connected to a router. *)
Definition connected_session : App.session_state :=
  {| App.connected := true;
     App.api := Some {| App.host := "192.168.88.1"; App.username := "admin";
                        App.password := "secret"; App.port := 8728;
                        App.use_ssl := false; App.is_connected := true |};
     App.data_store := empty_database;
     App.last_update := Some (noon - 60 * DateTime.usec_per_second);
     App.update_interval := 60;
     App.auto_update := true;
     App.stop_event := false |}.


(** A cycle in which the router answers every request with nothing. *)
Definition silent_cycle : App.cycle_environment :=
  {| App.get_active_connections := Returns [];
     App.get_bandwidth_usage := Returns [];
     App.get_traffic_by_ip := Returns [];
     App.store_connections_fault := None;
     App.store_bandwidth_fault := None;
     App.store_traffic_fault := None;
     App.now_store_connections := noon;
     App.now_last_update := noon + 40 |}.

(** A cycle in which every request is answered. *)
Definition full_cycle : App.cycle_environment :=
  {| App.get_active_connections := Returns [complete_entry; bare_entry];
     App.get_bandwidth_usage :=
       Returns [ ("ether1",
                  {| ic_tx_bytes := 1000; ic_rx_bytes := 2000;
                     ic_tx_packets := 10; ic_rx_packets := 20;
                     ic_timestamp := "2024-01-01T12:00:00.000020" |}) ];
     App.get_traffic_by_ip := Returns sample_traffic;
     App.store_connections_fault := None;
     App.store_bandwidth_fault := None;
     App.store_traffic_fault := None;
     App.now_store_connections := noon;
     App.now_last_update := noon + 40 |}.

Definition router_form : App.connection_settings :=
  {| App.form_host := "192.168.88.1";
     App.form_username := "admin";
     App.form_password := "secret";
     App.form_port := 8728;
     App.form_use_ssl := false |}.

Definition fresh_process : App.process :=
  {| App.session := App.initial_session; App.threads_started := 0 |}.

(** A run of the loop in which the user disconnects while a cycle is in
    progress: the labels up to the write of the stop event, and those
    after it. *)
Definition labels_before_stop : list App.label :=
  [ App.TestStop false; App.TestEnabled true; App.EnterCollect true;
    App.Ui App.SetStop ].

Definition labels_after_stop : list App.label :=
  [ App.LeaveCollect true; App.StartSleep 60; App.Wake 60; App.TestStop true ].

(** The session that the cycle of that run leaves. *)
Definition session_after_cycle : App.session_state :=
  Eval vm_compute in
    snd (App.collect_guarded full_cycle (App.set_stop_event true connected_session)).

(** A run of the loop with automatic updates switched off, in which the
    stop event is set as soon as the sleep has begun. *)
Definition idle_session : App.session_state :=
  App.set_auto_update false connected_session.

Definition idle_labels_before_stop : list App.label :=
  [ App.TestStop false; App.TestEnabled false; App.StartSleep 60;
    App.Ui App.SetStop ].

Definition idle_labels_after_stop : list App.label :=
  [ App.Wake 60; App.TestStop true ].

End Examples.

(** ** Further sample data *)

Module Samples.

Import Py Sqlite DataStore.

(** Three samples of the interface counters; the counters of ether1 are
    lower in the later sample, as after a restart of the router. *)
Definition bandwidth_samples : list (string * interface_counters) :=
  [ ("ether1",
     {| ic_tx_bytes := 5000; ic_rx_bytes := 9000;
        ic_tx_packets := 50; ic_rx_packets := 90;
        ic_timestamp := "2024-01-01T11:58:00.000100" |});
    ("wlan1",
     {| ic_tx_bytes := 700; ic_rx_bytes := 300;
        ic_tx_packets := 7; ic_rx_packets := 3;
        ic_timestamp := "2024-01-01T11:58:00.000120" |});
    ("ether1",
     {| ic_tx_bytes := 10; ic_rx_bytes := 20;
        ic_tx_packets := 1; ic_rx_packets := 2;
        ic_timestamp := "2024-01-01T11:59:00.000100" |}) ].

Definition bandwidth_row (id : Z) (interface : string) (tx rx : Z)
  (timestamp : string) : bandwidth_usage_row :=
  {| bu_id := id; bu_interface := interface; bu_tx_bytes := tx; bu_rx_bytes := rx;
     bu_tx_packets := 1; bu_rx_packets := 1; bu_timestamp := timestamp |}.

(** A sample of the week before noon of 2024-01-01 and one of the hour
    before it. *)
Definition bandwidth_database : database :=
  {| ip_traffic := [];
     bandwidth_usage :=
       [ bandwidth_row 1 "ether1" 100 200 "2023-12-25T09:00:00.000100";
         bandwidth_row 2 "ether1" 4000 8000 "2024-01-01T11:30:00.000100" ];
     active_connections := [] |}.

Definition connection_row (id : Z) (src dst protocol timestamp : string)
  : active_connections_row :=
  {| ac_id := id; ac_src_address := src; ac_dst_address := dst;
     ac_protocol := protocol; ac_orig_bytes := 0; ac_repl_bytes := 0;
     ac_timestamp := timestamp |}.

(** The connection table of two polls before noon of 2024-01-01 and of
    one of the month before. *)
Definition connection_database : database :=
  {| ip_traffic := [];
     bandwidth_usage := [];
     active_connections :=
       [ connection_row 1 "192.168.88.10:50000" "8.8.8.8:53" "udp"
           "2023-11-30T08:15:00.250000";
         connection_row 2 "192.168.88.10:50001" "1.1.1.1:443" "tcp"
           "2024-01-01T11:00:00.000100";
         connection_row 3 "192.168.88.11:50002" "1.1.1.1:443" "tcp"
           "2024-01-01T11:00:00.000100";
         connection_row 4 "192.168.88.10:50001" "1.1.1.1:443" "tcp"
           "2024-01-01T11:01:00.000100";
         connection_row 5 "192.168.88.12:50003" "8.8.8.8:53" "udp"
           "2024-01-01T11:01:00.000100" ] |}.

(** What [get_connection_stats] answers for that table at noon of
    2024-01-01, for the day before. *)
Definition noon_statistics : connection_stats :=
  {| total_connections := 4;
     protocol_counts := [("tcp", 3); ("udp", 1)];
     top_sources :=
       [("192.168.88.10:50001", 2); ("192.168.88.11:50002", 1);
        ("192.168.88.12:50003", 1)];
     top_destinations := [("1.1.1.1:443", 3); ("8.8.8.8:53", 1)] |}.

(** Half an hour before noon. *)
Definition half_past_eleven : DateTime.datetime :=
  Examples.noon - 1800 * DateTime.usec_per_second.

(** The session after a click on Disconnect, and a run of the loop
    from the call of [collect_data] that the thread was about to make. *)
Definition disconnected_session : App.session_state :=
  App.session
    (fst (App.disconnect_button
            {| App.session := Examples.connected_session;
               App.threads_started := 1 |})).

Definition world_at_disconnect : App.world :=
  {| App.shared := disconnected_session; App.at_place := App.CollectCall;
     App.slept := 0 |}.

Definition labels_after_disconnect : list App.label :=
  [ App.EnterCollect false; App.StartSleep 60; App.Wake 60; App.TestStop true ].

Definition world_after_disconnect : App.world :=
  {| App.shared := disconnected_session; App.at_place := App.Exited;
     App.slept := 60 |}.


(** A form that names the router by its host name. *)
Definition named_router_form : App.connection_settings :=
  {| App.form_host := "router.lan";
     App.form_username := "admin";
     App.form_password := "secret";
     App.form_port := 8728;
     App.form_use_ssl := false |}.

End Samples.

(** * Properties *)

(** ** Matching by derivatives *)

Section RegexFacts.

Import Regex.

Lemma append_nil_l (s : string) : ("" ++ s)%string = s.
Proof. reflexivity. Qed.

Lemma append_cons (c : ascii) (s t : string) :
  (String c s ++ t)%string = String c (s ++ t).
Proof. reflexivity. Qed.

Lemma append_nil_r (s : string) : (s ++ "")%string = s.
Proof.
  induction s as [|c s IH]; [reflexivity | now rewrite append_cons, IH].
Qed.

Lemma append_assoc (a b c : string) :
  ((a ++ b) ++ c)%string = (a ++ (b ++ c))%string.
Proof.
  induction a as [|x a IH]; [reflexivity | now rewrite !append_cons, IH].
Qed.

Lemma append_eq_nil (u v : string) :
  (u ++ v)%string = "" -> u = "" /\ v = "".
Proof.
  destruct u; [rewrite append_nil_l; auto | rewrite append_cons; discriminate].
Qed.

Lemma nullable_lang (r : re) : nullable r = true <-> lang r "".
Proof.
  split.
  - induction r; simpl; intros H; try discriminate.
    + constructor.
    + apply andb_true_iff in H as [H1 H2].
      change "" with ("" ++ "")%string. constructor; auto.
    + apply orb_true_iff in H as [H|H]; [apply lang_alt_l | apply lang_alt_r]; auto.
    + constructor.
  - intros H. remember "" as e eqn:He. revert He.
    induction H; intros He; simpl; try discriminate; auto.
    + apply append_eq_nil in He as [-> ->].
      rewrite IHlang1, IHlang2; auto.
    + rewrite IHlang; auto.
    + rewrite IHlang; auto. apply orb_true_r.
Qed.

Lemma lang_deriv (r : re) (c : ascii) (s : string) :
  lang r (String c s) -> lang (deriv c r) s.
Proof.
  intros H. remember (String c s) as t eqn:Ht. revert c s Ht.
  induction H; intros a t Ht; simpl; try discriminate.
  - injection Ht as -> <-. rewrite Ascii.eqb_refl. constructor.
  - injection Ht as -> <-. rewrite H. constructor.
  - destruct u as [|x u]; rewrite ?append_nil_l, ?append_cons in Ht.
    + subst v. assert (Hn : nullable r = true) by (apply nullable_lang; assumption).
      rewrite Hn. apply lang_alt_r. auto.
    + injection Ht as -> <-.
      assert (Hd : lang (Cat (deriv a r) s) (u ++ v)) by (constructor; auto).
      destruct (nullable r); [apply lang_alt_l|]; exact Hd.
  - apply lang_alt_l; auto.
  - apply lang_alt_r; auto.
  - destruct u as [|x u]; rewrite ?append_nil_l, ?append_cons in Ht.
    + subst v. apply (IHlang2 a t eq_refl).
    + injection Ht as -> <-. constructor; auto.
Qed.

Lemma deriv_lang (r : re) (c : ascii) (s : string) :
  lang (deriv c r) s -> lang r (String c s).
Proof.
  revert s. induction r; simpl; intros t H.
  - inversion H.
  - inversion H.
  - destruct (Ascii.eqb c c0) eqn:E; [|inversion H].
    apply Ascii.eqb_eq in E as ->. inversion H; subst. constructor.
  - destruct (Py.is_digit c) eqn:E; [|inversion H].
    inversion H; subst. constructor; assumption.
  - assert (Hcat : forall t', lang (Cat (deriv c r1) r2) t' ->
                              lang (Cat r1 r2) (String c t')).
    { intros t' H'. inversion H'; subst.
      change (String c (u ++ v)) with (String c u ++ v)%string.
      constructor; auto. }
    destruct (nullable r1) eqn:En.
    + inversion H; subst.
      * apply Hcat; assumption.
      * change (String c t) with ("" ++ String c t)%string.
        constructor; [apply nullable_lang; assumption | auto].
    + apply Hcat; assumption.
  - inversion H; subst; [apply lang_alt_l | apply lang_alt_r]; auto.
  - inversion H; subst.
    change (String c (u ++ v)) with (String c u ++ v)%string.
    constructor; auto.
Qed.

(** Matching by derivatives decides the language. *)
Lemma fullmatch_lang (r : re) (s : string) : fullmatch r s = true <-> lang r s.
Proof.
  revert r. induction s as [|c s IH]; intros r; simpl.
  - apply nullable_lang.
  - rewrite IH. split; [apply deriv_lang | apply lang_deriv].
Qed.

End RegexFacts.

(** ** The host check *)

Section HostCheckFacts.

Import Regex HostCheck.

Lemma digit_group_cases (o : string) :
  digit_group o <->
  (exists x, o = String x "" /\ Py.is_digit x = true)
  \/ (exists x y, o = String x (String y "")
        /\ Py.is_digit x = true /\ Py.is_digit y = true)
  \/ (exists x y z, o = String x (String y (String z ""))
        /\ Py.is_digit x = true /\ Py.is_digit y = true /\ Py.is_digit z = true).
Proof.
  unfold digit_group. split.
  - intros [Hd Hl].
    destruct o as [|x [|y [|z [|t o]]]]; simpl in *; try lia.
    + left. exists x. rewrite andb_true_r in Hd. auto.
    + right; left. exists x, y.
      apply andb_true_iff in Hd as [Hx Hy]. rewrite andb_true_r in Hy. auto.
    + right; right. exists x, y, z.
      apply andb_true_iff in Hd as [Hx Hd].
      apply andb_true_iff in Hd as [Hy Hz]. rewrite andb_true_r in Hz. auto.
  - intros [(x & -> & Hx) | [(x & y & -> & Hx & Hy) | (x & y & z & -> & Hx & Hy & Hz)]];
      simpl; rewrite ?Hx, ?Hy, ?Hz; simpl; split; auto; lia.
Qed.

(** [\d{1,3}] matches exactly the groups of one to three digits. *)
Lemma digits_1_3_lang (o : string) :
  lang (between 1 2 Digit) o <-> digit_group o.
Proof.
  rewrite digit_group_cases. unfold between; simpl. split.
  - intros H. inversion H as [| | |? ? u v Hu Hv| | | |]; subst; clear H.
    inversion Hu as [| | |? ? u1 u2 Hu1 Hu2| | | |]; subst; clear Hu.
    inversion Hu1; subst; clear Hu1. inversion Hu2; subst; clear Hu2.
    rewrite append_nil_r, append_cons, append_nil_l.
    inversion Hv as [| | | |? ? ? Hv1|? ? ? Hv1| |]; subst; clear Hv;
      inversion Hv1 as [| | |? ? v1 v2 Hv2 Hv3| | | |]; subst; clear Hv1.
    + left. eauto.
    + inversion Hv2; subst; clear Hv2. rewrite append_cons, append_nil_l.
      inversion Hv3 as [| | | |? ? ? Hw|? ? ? Hw| |]; subst; clear Hv3;
        inversion Hw as [| | |? ? w1 w2 Hw1 Hw2| | | |]; subst; clear Hw.
      * right; left. eauto 6.
      * inversion Hw1; subst; clear Hw1. inversion Hw2; subst; clear Hw2.
        right; right. rewrite append_cons, append_nil_l. eauto 8.
  - assert (Hd : forall x, Py.is_digit x = true -> lang (Cat Digit Eps) (String x ""))
      by (intros x Hx; change (String x "") with (String x "" ++ "")%string;
          constructor; constructor; assumption).
    intros [(x & -> & Hx) | [(x & y & -> & Hx & Hy) | (x & y & z & -> & Hx & Hy & Hz)]].
    + change (String x "") with (String x "" ++ "")%string.
      constructor; [auto | apply lang_alt_l; constructor].
    + change (String x (String y "")) with (String x "" ++ (String y "" ++ ""))%string.
      constructor; [auto|]. apply lang_alt_r. constructor; [constructor; auto|].
      apply lang_alt_l; constructor.
    + change (String x (String y (String z "")))
        with (String x "" ++ (String y "" ++ (String z "" ++ "")))%string.
      constructor; [auto|]. apply lang_alt_r. constructor; [constructor; auto|].
      apply lang_alt_r. constructor; [constructor; auto | constructor].
Qed.

(** The pattern matches exactly four digit groups joined by dots. *)
Lemma ip_pattern_lang (s : string) :
  lang ip_pattern s <->
  exists a b c d, s = dotted a b c d
    /\ digit_group a /\ digit_group b /\ digit_group c /\ digit_group d.
Proof.
  unfold ip_pattern, dotted. simpl times. split.
  - intros H.
    inversion H as [| | |? ? u v Hu Hv| | | |]; subst; clear H.
    inversion Hu as [| | |? ? u1 u' Hu1 Hu'| | | |]; subst; clear Hu.
    inversion Hu' as [| | |? ? u2 u'' Hu2 Hu''| | | |]; subst; clear Hu'.
    inversion Hu'' as [| | |? ? u3 u4 Hu3 Hu4| | | |]; subst; clear Hu''.
    inversion Hu4; subst; clear Hu4.
    inversion Hu1 as [| | |? ? a p Ha Hp| | | |]; subst; clear Hu1.
    inversion Hu2 as [| | |? ? b q Hb Hq| | | |]; subst; clear Hu2.
    inversion Hu3 as [| | |? ? c r Hc Hr| | | |]; subst; clear Hu3.
    inversion Hp; subst; clear Hp. inversion Hq; subst; clear Hq.
    inversion Hr; subst; clear Hr.
    exists a, b, c, v. rewrite <- !digits_1_3_lang.
    repeat split; auto.
    rewrite append_nil_r, !append_assoc. reflexivity.
  - intros (a & b & c & d & -> & Ha & Hb & Hc & Hd).
    apply digits_1_3_lang in Ha, Hb, Hc, Hd.
    replace (a ++ "." ++ b ++ "." ++ c ++ "." ++ d)%string
      with (((a ++ ".") ++ ((b ++ ".") ++ ((c ++ ".") ++ "")) ) ++ d)%string
      by (rewrite append_nil_r, !append_assoc; reflexivity).
    repeat constructor; auto.
Qed.

Lemma ends_with_newline_spec (s : string) :
  ends_with_newline s = true <-> exists t, s = (t ++ String "010" "")%string.
Proof.
  induction s as [|c s IH].
  - simpl. split; [discriminate|]. intros [[|x t] H]; discriminate.
  - destruct s as [|c' s'].
    + simpl. rewrite Ascii.eqb_eq. split.
      * intros ->. exists "". reflexivity.
      * intros [[|x [|y t]] H]; rewrite ?append_cons, ?append_nil_l in H;
          try discriminate; congruence.
    + change (ends_with_newline (String c (String c' s')))
        with (ends_with_newline (String c' s')).
      rewrite IH. split.
      * intros [t ->]. exists (String c t). reflexivity.
      * intros [[|x t] H]; rewrite ?append_cons, ?append_nil_l in H;
          [discriminate|]. injection H as -> H. eauto.
Qed.

Lemma drop_last_app (t : string) (c : ascii) :
  drop_last (t ++ String c "") = t.
Proof.
  induction t as [|x t IH]; [reflexivity|].
  rewrite append_cons. destruct t as [|y t'].
  - reflexivity.
  - rewrite append_cons in *.
    change (drop_last (String x (String y (t' ++ String c ""))))
      with (String x (drop_last (String y (t' ++ String c "")))).
    now rewrite IH.
Qed.

(** What the host check accepts: four groups of one to three digits
    joined by dots, with or without a newline at the very end. *)
Lemma is_valid_ip_iff (ip : string) :
  is_valid_ip ip = true <->
  exists a b c d,
    digit_group a /\ digit_group b /\ digit_group c /\ digit_group d
    /\ (ip = dotted a b c d \/ ip = (dotted a b c d ++ String "010" "")%string).
Proof.
  unfold is_valid_ip, match_to_dollar.
  rewrite orb_true_iff, andb_true_iff, ends_with_newline_spec,
    !fullmatch_lang, !ip_pattern_lang.
  split.
  - intros [(a & b & c & d & -> & H) | [[t ->] H]].
    + exists a, b, c, d. tauto.
    + rewrite drop_last_app in H.
      destruct H as (a & b & c & d & -> & H). exists a, b, c, d. tauto.
  - intros (a & b & c & d & Ha & Hb & Hc & Hd & [-> | ->]).
    + left. exists a, b, c, d. tauto.
    + right. split; [eauto|]. rewrite drop_last_app.
      exists a, b, c, d. tauto.
Qed.

(** Every dotted quad of octets passes the host check. *)
Lemma is_valid_ip_dotted_quad (a b c d : string) :
  octet a -> octet b -> octet c -> octet d ->
  is_valid_ip (dotted a b c d) = true.
Proof.
  intros [Ha _] [Hb _] [Hc _] [Hd _].
  apply is_valid_ip_iff. exists a, b, c, d. tauto.
Qed.

End HostCheckFacts.

(** C3.  The host check is meant to reject an address with an octet out
    of range; it accepts 999.999.999.999, whose octets write 999. *)
Theorem is_valid_ip_accepts_out_of_range :
  HostCheck.is_valid_ip "999.999.999.999" = true
  /\ HostCheck.decimal_from 0 "999" = 999
  /\ ~ HostCheck.octet "999".
Proof.
  split; [reflexivity|]. split; [reflexivity|].
  intros [_ H]. vm_compute in H. destruct H as [_ H]. apply H. reflexivity.
Qed.

(** ** The storage engine *)

Section EngineFacts.

Import Py Sqlite.

Context {A : Type}.

Lemma insert_ordered_perm (precedes : A -> A -> bool) (x : A) (l : list A) :
  insert_ordered precedes x l ≡ₚ x :: l.
Proof.
  induction l as [|y l IH]; simpl; [reflexivity|].
  destruct (precedes x y); [reflexivity|].
  rewrite IH. apply perm_swap.
Qed.

(** [ORDER BY] returns the rows it was given. *)
Lemma order_by_perm (precedes : A -> A -> bool) (l : list A) :
  order_by precedes l ≡ₚ l.
Proof.
  induction l as [|x l IH]; simpl; [reflexivity|].
  rewrite insert_ordered_perm. now rewrite IH.
Qed.

Lemma order_by_length (precedes : A -> A -> bool) (l : list A) :
  length (order_by precedes l) = length l.
Proof. apply Permutation_length, order_by_perm. Qed.

Lemma order_by_nil (precedes : A -> A -> bool) : order_by precedes [] = [].
Proof. reflexivity. Qed.

Section Sorted.

Variable precedes : A -> A -> bool.
Hypothesis precedes_total : forall x y, precedes x y = false -> precedes y x = true.
Hypothesis precedes_trans :
  forall x y z, precedes x y = true -> precedes y z = true -> precedes x z = true.

Local Abbreviation ordered := (fun x y : A => precedes x y = true).

Lemma insert_ordered_sorted (x : A) (l : list A) :
  StronglySorted ordered l -> StronglySorted ordered (insert_ordered precedes x l).
Proof.
  induction 1 as [|y l Hs IH Hy]; simpl.
  - repeat constructor.
  - destruct (precedes x y) eqn:E.
    + constructor; [constructor; assumption|].
      constructor; [exact E|].
      eapply Forall_impl; [exact Hy|]. intros z Hz. eapply precedes_trans; eauto.
    + constructor; [exact IH|].
      rewrite insert_ordered_perm. constructor; [|exact Hy].
      apply precedes_total; exact E.
Qed.

(** [ORDER BY] returns the rows in order. *)
Lemma order_by_sorted (l : list A) : StronglySorted ordered (order_by precedes l).
Proof.
  induction l as [|x l IH]; simpl; [constructor|].
  apply insert_ordered_sorted; exact IH.
Qed.

End Sorted.

Lemma where_ge_In (column : A -> string) (bound : string) (rows : list A) (r : A) :
  In r (where_ge column bound rows) <->
  In r rows /\ text_le bound (column r) = true.
Proof. unfold where_ge. apply filter_In. Qed.

Lemma where_eq_In (column : A -> string) (v : string) (rows : list A) (r : A) :
  In r (where_eq column v rows) <-> In r rows /\ column r = v.
Proof. unfold where_eq. rewrite filter_In, String.eqb_eq. reflexivity. Qed.


(** A window that holds every row selects them all. *)
Lemma where_ge_all (column : A -> string) (bound : string) (rows : list A) :
  Forall (fun r => text_le bound (column r) = true) rows ->
  where_ge column bound rows = rows.
Proof.
  induction 1 as [|r rows Hr _ IH]; simpl; [reflexivity|].
  rewrite Hr. now rewrite IH.
Qed.

Lemma limit_length (n : Z) (l : list A) :
  0 <= n -> (Z.of_nat (length (limit n l)) <= n)%Z.
Proof.
  intros Hn. unfold limit. destruct (n <? 0) eqn:E; [lia|].
  rewrite length_take. lia.
Qed.

End EngineFacts.

Lemma text_le_refl (a : string) : Sqlite.text_le a a = true.
Proof.
  unfold Sqlite.text_le. pose proof (reflexivity (R := String.le) a) as H.
  unfold String.le in H. now apply Is_true_true.
Qed.

Lemma text_le_trans (a b c : string) :
  Sqlite.text_le a b = true -> Sqlite.text_le b c = true -> Sqlite.text_le a c = true.
Proof.
  unfold Sqlite.text_le. intros H1 H2. apply Is_true_true.
  apply Is_true_true in H1, H2.
  exact (transitivity (R := String.le) H1 H2).
Qed.

Lemma text_le_total (a b : string) :
  Sqlite.text_le a b = false -> Sqlite.text_le b a = true.
Proof.
  unfold Sqlite.text_le. intros H.
  destruct (String.leb_total a b) as [H'|H']; congruence.
Qed.

Lemma text_le_antisym (a b : string) :
  Sqlite.text_le a b = true -> Sqlite.text_le b a = true -> a = b.
Proof. apply String.leb_antisym. Qed.

(** ** Queries of the store *)

Section QueryFacts.

Import Py Sqlite DataStore.

Lemma count_by_nil (column : active_connections_row -> string) :
  count_by column [] = [].
Proof. reflexivity. Qed.

End QueryFacts.

(** C10.  An empty text as filter is no filter: both history queries
    return what they return without a filter, which is every row of the
    window. *)
Theorem empty_filter_is_no_filter (hours : Z) (now : DateTime.datetime)
  (db : DataStore.database) :
  DataStore.get_ip_traffic_history (Some "") hours now db
  = DataStore.get_ip_traffic_history None hours now db
  /\ DataStore.get_bandwidth_history (Some "") hours now db
     = DataStore.get_bandwidth_history None hours now db
  /\ match DateTime.window_start now hours with
     | Py.Returns start =>
         DataStore.rows (DataStore.get_ip_traffic_history (Some "") hours now db)
         ≡ₚ List.filter (fun r => Sqlite.text_le start (DataStore.it_timestamp r))
              (DataStore.ip_traffic db)
         /\ DataStore.rows (DataStore.get_bandwidth_history (Some "") hours now db)
            ≡ₚ List.filter (fun r => Sqlite.text_le start (DataStore.bu_timestamp r))
                 (DataStore.bandwidth_usage db)
     | Py.Raises _ =>
         DataStore.get_ip_traffic_history (Some "") hours now db
         = DataStore.empty_frame
         /\ DataStore.get_bandwidth_history (Some "") hours now db
            = DataStore.empty_frame
     end.
Proof.
  unfold DataStore.get_ip_traffic_history, DataStore.get_bandwidth_history.
  destruct (DateTime.window_start now hours) as [start|e]; simpl.
  - repeat split; try reflexivity; apply order_by_perm.
  - repeat split; reflexivity.
Qed.



(** ** Storing and reading per-address traffic *)

Section TrafficFacts.

Import Py Sqlite DataStore.

Lemma bind_integer_fits (z : Z) : fits_int64 z = true -> bind_integer z = Returns z.
Proof. unfold bind_integer. now intros ->. Qed.

Lemma bind_integer_refuses (z : Z) :
  fits_int64 z = false -> bind_integer z = Raises "OverflowError".
Proof. unfold bind_integer. now intros ->. Qed.

(** One [INSERT] appends one row that holds the record. *)
Lemma insert_ip_traffic_fits (data : traffic_record) (table : list ip_traffic_row) :
  record_fits data ->
  exists row,
    insert_ip_traffic data table = Returns (table ++ [row])%list
    /\ record_of_row row = data
    /\ it_id row = next_id table.
Proof.
  intros (Htx & Hrx & Htot & Hc). unfold insert_ip_traffic.
  rewrite !bind_integer_fits by assumption. simpl.
  eexists. split; [reflexivity|]. split; [|reflexivity].
  destruct data; reflexivity.
Qed.

(** The loop of [store_ip_traffic] appends one row per record, in the
    order of the records. *)
Lemma for_each_insert_ip_traffic (records : list traffic_record)
  (table : list ip_traffic_row) :
  Forall record_fits records ->
  exists new_rows,
    for_each insert_ip_traffic records table = Returns (table ++ new_rows)%list
    /\ map record_of_row new_rows = records.
Proof.
  intros H. revert table. induction H as [|r records Hr _ IH]; intros table.
  - exists []. simpl. now rewrite app_nil_r.
  - destruct (insert_ip_traffic_fits r table Hr) as (row & E & Hrow & _).
    destruct (IH (table ++ [row])%list) as (rest & E' & Hrest).
    exists (row :: rest). simpl. rewrite E. simpl. rewrite E'.
    split; [now rewrite <- app_assoc | now rewrite Hrow, Hrest].
Qed.

Lemma text_order_total (x y : ip_traffic_row) :
  ascending_text it_timestamp x y = false -> ascending_text it_timestamp y x = true.
Proof. apply text_le_total. Qed.

Lemma text_order_trans (x y z : ip_traffic_row) :
  ascending_text it_timestamp x y = true ->
  ascending_text it_timestamp y z = true ->
  ascending_text it_timestamp x z = true.
Proof. apply text_le_trans. Qed.

(** A history query returns its rows in ascending order of timestamp. *)
Lemma history_ascending (ip_address : option string) (hours : Z)
  (now : DateTime.datetime) (db : database) :
  ascending_timestamps (rows (get_ip_traffic_history ip_address hours now db)).
Proof.
  unfold get_ip_traffic_history, ascending_timestamps.
  destruct (DateTime.window_start now hours); simpl; [|constructor].
  apply (order_by_sorted (ascending_text it_timestamp)
           text_order_total text_order_trans).
Qed.

End TrafficFacts.

(** C1, as amended.  Records whose numbers fit 64 bits and whose
    timestamps are not before the start of the 24 hour window, stored in
    an empty table, are exactly what the history query returns, in
    ascending order of timestamp; each comes back with the total it was
    stored with, so the totals are the sums of the two directions when
    they were so in the records passed in. *)
Theorem stored_traffic_is_returned (records : list DataStore.traffic_record)
  (now : DateTime.datetime) (start : string) (db : DataStore.database) :
  records <> [] ->
  DataStore.ip_traffic db = [] ->
  Forall DataStore.record_fits records ->
  DateTime.window_start now 24 = Py.Returns start ->
  Forall (fun r => Sqlite.text_le start (DataStore.tr_timestamp r) = true) records ->
  exists db',
    DataStore.store_ip_traffic records db = (true, db')
    /\ map DataStore.record_of_row
         (DataStore.rows (DataStore.get_ip_traffic_history None 24 now db'))
       ≡ₚ records
    /\ DataStore.ascending_timestamps
         (DataStore.rows (DataStore.get_ip_traffic_history None 24 now db'))
    /\ (Forall DataStore.record_consistent records ->
        Forall DataStore.row_consistent
          (DataStore.rows (DataStore.get_ip_traffic_history None 24 now db'))).
Proof.
  intros Hne Hempty Hfits Hstart Hrecent.
  destruct (for_each_insert_ip_traffic records (DataStore.ip_traffic db) Hfits)
    as (new_rows & Hloop & Hmap).
  rewrite Hempty in Hloop. simpl in Hloop.
  eexists. split.
  { unfold DataStore.store_ip_traffic. rewrite Hempty, Hloop.
    destruct records; [congruence | reflexivity]. }
  assert (Hall : Sqlite.where_ge DataStore.it_timestamp start new_rows = new_rows).
  { apply where_ge_all. rewrite <- Hmap in Hrecent.
    rewrite Forall_map in Hrecent. exact Hrecent. }
  assert (Hperm : map DataStore.record_of_row
            (DataStore.rows (DataStore.get_ip_traffic_history None 24 now
               {| DataStore.ip_traffic := new_rows;
                  DataStore.bandwidth_usage := DataStore.bandwidth_usage db;
                  DataStore.active_connections := DataStore.active_connections db |}))
          ≡ₚ records).
  { unfold DataStore.get_ip_traffic_history. rewrite Hstart. simpl.
    rewrite Hall, <- Hmap. apply Permutation_map, order_by_perm. }
  split; [exact Hperm|]. split; [apply history_ascending|].
  intros Hcons. apply List.Forall_forall. intros row Hin.
  assert (Hrec : In (DataStore.record_of_row row) records).
  { eapply Permutation_in; [exact Hperm|]. now apply in_map. }
  rewrite List.Forall_forall in Hcons. specialize (Hcons _ Hrec).
  exact Hcons.
Qed.

Lemma stored_traffic_is_returned_witness :
  exists db',
    DataStore.store_ip_traffic Examples.sample_traffic DataStore.empty_database
    = (true, db')
    /\ map DataStore.record_of_row
         (DataStore.rows
            (DataStore.get_ip_traffic_history None 24 Examples.noon db'))
       ≡ₚ Examples.sample_traffic
    /\ DataStore.ascending_timestamps
         (DataStore.rows
            (DataStore.get_ip_traffic_history None 24 Examples.noon db'))
    /\ (Forall DataStore.record_consistent Examples.sample_traffic ->
        Forall DataStore.row_consistent
          (DataStore.rows
             (DataStore.get_ip_traffic_history None 24 Examples.noon db'))).
Proof.
  apply (stored_traffic_is_returned Examples.sample_traffic Examples.noon
           "2023-12-31T12:00:00" DataStore.empty_database).
  - discriminate.
  - reflexivity.
  - repeat constructor.
  - reflexivity.
  - repeat constructor.
Defined.

(** C1 as stated does not hold: a record whose total is not the sum of
    its directions comes back as it was stored, and a record with an old
    timestamp does not come back. *)
Lemma stored_traffic_counterexample :
  (exists row,
     In row
       (DataStore.rows
          (DataStore.get_ip_traffic_history None 24 Examples.noon
             (snd (DataStore.store_ip_traffic [Examples.inconsistent_record]
                     DataStore.empty_database))))
     /\ DataStore.it_total_bytes row
        <> DataStore.it_tx_bytes row + DataStore.it_rx_bytes row)
  /\ DataStore.store_ip_traffic [Examples.stale_record] DataStore.empty_database
     = (true,
        {| DataStore.ip_traffic :=
             [ {| DataStore.it_id := 1;
                  DataStore.it_ip_address := "10.0.0.8";
                  DataStore.it_tx_bytes := 5;
                  DataStore.it_rx_bytes := 6;
                  DataStore.it_total_bytes := 11;
                  DataStore.it_connections := 1;
                  DataStore.it_timestamp := "2023-12-30T12:00:00" |} ];
           DataStore.bandwidth_usage := [];
           DataStore.active_connections := [] |})
  /\ DataStore.rows
       (DataStore.get_ip_traffic_history None 24 Examples.noon
          (snd (DataStore.store_ip_traffic [Examples.stale_record]
                  DataStore.empty_database)))
     = [].
Proof.
  split; [|split; vm_compute; reflexivity].
  exists {| DataStore.it_id := 1;
            DataStore.it_ip_address := "10.0.0.7";
            DataStore.it_tx_bytes := 1;
            DataStore.it_rx_bytes := 2;
            DataStore.it_total_bytes := 7;
            DataStore.it_connections := 1;
            DataStore.it_timestamp := "2024-01-01T11:59:59" |}.
  split; [vm_compute; left; reflexivity | simpl; lia].
Qed.

(** ** The top addresses by traffic *)

Section TopIpFacts.

Import Py Sqlite DataStore.

Lemma compare_refl (s : string) : String.compare s s = Eq.
Proof.
  pose proof (String.compare_antisym s s) as H.
  destruct (String.compare s s); simpl in H; congruence.
Qed.

Lemma compare_lt_le (a b : string) :
  String.compare a b = Lt -> text_le a b = true.
Proof. unfold text_le, String.leb. now intros ->. Qed.

Lemma compare_lt_trans (a b c : string) :
  String.compare a b = Lt -> String.compare b c = Lt -> String.compare a c = Lt.
Proof.
  intros Hab Hbc.
  pose proof (text_le_trans _ _ _ (compare_lt_le _ _ Hab) (compare_lt_le _ _ Hbc)) as Hle.
  unfold text_le, String.leb in Hle.
  destruct (String.compare a c) eqn:E; [|reflexivity|discriminate].
  apply String.compare_eq_iff in E. subst c.
  rewrite String.compare_antisym, Hab in Hbc. discriminate.
Qed.

Abbreviation strictly_before := (fun a b : string => String.compare a b = Lt).

Lemma insert_key_In (k x : string) (keys : list string) :
  In x (insert_key k keys) <-> x = k \/ In x keys.
Proof.
  induction keys as [|k' keys IH]; simpl.
  - intuition.
  - destruct (String.compare k k') eqn:E; simpl.
    + apply String.compare_eq_iff in E as ->. intuition.
    + intuition.
    + rewrite IH. intuition.
Qed.

(** The keys of [GROUP BY] are the values of the column. *)
Lemma group_keys_In (x : string) (ks : list string) :
  In x (group_keys ks) <-> In x ks.
Proof.
  induction ks as [|k ks IH]; simpl; [reflexivity|].
  rewrite insert_key_In, IH. intuition.
Qed.

Lemma insert_key_sorted (k : string) (keys : list string) :
  StronglySorted strictly_before keys ->
  StronglySorted strictly_before (insert_key k keys).
Proof.
  induction 1 as [|k' keys Hs IH Hk']; simpl.
  - repeat constructor.
  - destruct (String.compare k k') eqn:E.
    + constructor; assumption.
    + constructor; [constructor; assumption|].
      constructor; [exact E|].
      eapply Forall_impl; [exact Hk'|].
      intros z Hz. simpl in *. eapply compare_lt_trans; eauto.
    + constructor; [exact IH|].
      apply List.Forall_forall. intros z Hz.
      apply insert_key_In in Hz as [->|Hz].
      * rewrite String.compare_antisym, E. reflexivity.
      * rewrite List.Forall_forall in Hk'. auto.
Qed.

Lemma group_keys_sorted (ks : list string) :
  StronglySorted strictly_before (group_keys ks).
Proof.
  induction ks as [|k ks IH]; simpl; [constructor|].
  apply insert_key_sorted, IH.
Qed.

(** Each key of [GROUP BY] stands once. *)
Lemma group_keys_NoDup (ks : list string) : List.NoDup (group_keys ks).
Proof.
  pose proof (group_keys_sorted ks) as H.
  induction H as [|k keys Hs IH Hk]; constructor; [|exact IH].
  intros Hin. rewrite List.Forall_forall in Hk.
  specialize (Hk _ Hin). simpl in Hk. rewrite compare_refl in Hk. discriminate.
Qed.

(** [SUM] returns the sum when every running total fits. *)
Lemma sum_from_fits (acc : Z) (l : list Z) :
  running_totals_fit acc l -> sum_from acc l = Returns (acc + total l).
Proof.
  revert acc. induction l as [|z l IH]; simpl; intros acc H.
  - f_equal. lia.
  - destruct H as [Hz Hl]. rewrite Hz, (IH _ Hl). f_equal. lia.
Qed.

Lemma sum_integers_fits (l : list Z) :
  running_totals_fit 0 l -> sum_integers l = Returns (total l).
Proof. intros H. unfold sum_integers. now rewrite (sum_from_fits 0 l H). Qed.

Lemma text_max_ge_l (a b : string) : text_le a (text_max a b) = true.
Proof.
  unfold text_max. destruct (text_le a b) eqn:E; [exact E | apply text_le_refl].
Qed.

Lemma text_max_ge_r (a b : string) : text_le b (text_max a b) = true.
Proof.
  unfold text_max. destruct (text_le a b) eqn:E;
    [apply text_le_refl | apply text_le_total; exact E].
Qed.

Lemma foldl_text_max_ge (a : string) (l : list string) :
  text_le a (foldl text_max a l) = true.
Proof.
  revert a. induction l as [|b l IH]; intros a; simpl.
  - apply text_le_refl.
  - eapply text_le_trans; [apply text_max_ge_l | apply IH].
Qed.

Lemma foldl_text_max_upper (a : string) (l : list string) :
  Forall (fun u => text_le u (foldl text_max a l) = true) l.
Proof.
  revert a. induction l as [|b l IH]; intros a; simpl; constructor.
  - eapply text_le_trans; [apply text_max_ge_r | apply foldl_text_max_ge].
  - apply IH.
Qed.

Lemma foldl_text_max_In (a : string) (l : list string) :
  foldl text_max a l = a \/ In (foldl text_max a l) l.
Proof.
  revert a. induction l as [|b l IH]; intros a; simpl; [now left|].
  destruct (IH (text_max a b)) as [H|H].
  - rewrite H. unfold text_max. destruct (text_le a b); auto.
  - auto.
Qed.

(** [MAX] returns the greatest text of a group that is not empty. *)
Lemma max_text_latest (l : list string) : l <> [] -> is_latest (max_text l) l.
Proof.
  destruct l as [|a l]; [congruence|]. intros _. unfold is_latest, max_text.
  split.
  - destruct (foldl_text_max_In a l) as [H|H]; [left; now rewrite H | right; exact H].
  - constructor; [apply foldl_text_max_ge | apply foldl_text_max_upper].
Qed.

Lemma where_eq_rows_of_ip (ip start : string) (db : database) :
  where_eq it_ip_address ip (where_ge it_timestamp start (ip_traffic db))
  = rows_of_ip ip start db.
Proof. reflexivity. Qed.

Lemma summarize_ip_fits (ip start : string) (db : database) :
  sums_fit start db ->
  summarize_ip ip (rows_of_ip ip start db)
  = Returns (summary ip (rows_of_ip ip start db)).
Proof.
  intros H. destruct (H ip) as (Htx & Hrx & Htot). unfold summarize_ip.
  rewrite (sum_integers_fits _ Htx), (sum_integers_fits _ Hrx),
    (sum_integers_fits _ Htot).
  reflexivity.
Qed.

(** The groups of the query, one per key. *)
Lemma grouped_ips_fits (keys : list string) (start : string) (db : database) :
  sums_fit start db ->
  grouped_ips keys (where_ge it_timestamp start (ip_traffic db))
  = Returns (map (fun k => summary k (rows_of_ip k start db)) keys).
Proof.
  intros H. induction keys as [|k keys IH]; simpl; [reflexivity|].
  rewrite where_eq_rows_of_ip, (summarize_ip_fits k start db H). simpl.
  rewrite IH. reflexivity.
Qed.

Lemma rows_of_ip_nonempty (ip start : string) (db : database) :
  rows_of_ip ip start db <> [] <->
  In ip (map it_ip_address (where_ge it_timestamp start (ip_traffic db))).
Proof.
  unfold rows_of_ip, window_rows, where_ge. rewrite in_map_iff. split.
  - intros H.
    destruct (List.filter (fun r => String.eqb (it_ip_address r) ip)
                (List.filter (fun r => text_le start (it_timestamp r)) (ip_traffic db)))
      as [|r l] eqn:E; [congruence|].
    assert (Hin : In r (r :: l)) by now left.
    rewrite <- E in Hin. apply filter_In in Hin as [Hin Heq].
    apply String.eqb_eq in Heq. eauto.
  - intros (r & Hr & Hin) E.
    assert (Hin' : In r (List.filter (fun r => String.eqb (it_ip_address r) ip)
                (List.filter (fun r => text_le start (it_timestamp r)) (ip_traffic db)))).
    { apply filter_In. split; [exact Hin|]. now apply String.eqb_eq. }
    rewrite E in Hin'. destruct Hin'.
Qed.

Lemma summary_summarizes (ip start : string) (db : database) :
  rows_of_ip ip start db <> [] ->
  summarizes start db (summary ip (rows_of_ip ip start db)).
Proof.
  intros H. unfold summarizes. simpl. repeat split; try assumption.
  - apply max_text_latest. destruct (rows_of_ip ip start db); simpl; congruence.
  - apply max_text_latest. destruct (rows_of_ip ip start db); simpl; congruence.
Qed.

Lemma descending_total (x y : top_ip_row) :
  descending_integer top_total_bytes x y = false ->
  descending_integer top_total_bytes y x = true.
Proof. unfold descending_integer. lia. Qed.

Lemma descending_trans (x y z : top_ip_row) :
  descending_integer top_total_bytes x y = true ->
  descending_integer top_total_bytes y z = true ->
  descending_integer top_total_bytes x z = true.
Proof. unfold descending_integer. lia. Qed.

Lemma descending_sorted (l : list top_ip_row) :
  descending_totals (order_by (descending_integer top_total_bytes) l).
Proof.
  unfold descending_totals.
  pose proof (order_by_sorted (descending_integer top_total_bytes)
                descending_total descending_trans l) as H.
  induction H as [|x l' Hs IH Hx]; constructor; [exact IH|].
  eapply Forall_impl; [exact Hx|].
  intros y. unfold descending_integer. simpl. lia.
Qed.

(** What the query returns when its window has a start, its limit can
    be bound and its sums can be computed. *)
Lemma top_ips_rows (limit hours : Z) (now : DateTime.datetime) (start : string)
  (db : database) :
  fits_int64 limit = true ->
  DateTime.window_start now hours = Returns start ->
  sums_fit start db ->
  rows (get_top_ips_by_traffic limit hours now db)
  = Sqlite.limit limit
      (order_by (descending_integer top_total_bytes)
         (map (fun k => summary k (rows_of_ip k start db))
            (group_keys
               (map it_ip_address (where_ge it_timestamp start (ip_traffic db)))))).
Proof.
  intros Hl Hs Hf. unfold get_top_ips_by_traffic.
  rewrite Hs. simpl. rewrite (bind_integer_fits _ Hl). simpl.
  rewrite (grouped_ips_fits _ start db Hf). reflexivity.
Qed.

Lemma total_filter_le (f : ip_traffic_row -> Z) (p : ip_traffic_row -> bool)
  (l : list ip_traffic_row) :
  Forall (fun r => 0 <= f r) l ->
  0 <= total (map f (List.filter p l)) <= total (map f l).
Proof.
  induction 1 as [|r l Hr _ IH]; simpl; [lia|].
  destruct (p r); simpl; lia.
Qed.

Lemma filter_nonnegative (f : ip_traffic_row -> Z) (p : ip_traffic_row -> bool)
  (l : list ip_traffic_row) :
  Forall (fun r => 0 <= f r) l -> Forall (fun r => 0 <= f r) (List.filter p l).
Proof.
  induction 1 as [|r l Hr _ IH]; simpl; [constructor|].
  destruct (p r); [constructor|]; assumption.
Qed.

Lemma running_totals_fit_nonnegative (acc : Z) (l : list Z) :
  0 <= acc -> Forall (fun z => 0 <= z) l -> acc + total l <= int64_max ->
  running_totals_fit acc l.
Proof.
  intros Hacc H. revert acc Hacc. induction H as [|z l Hz Hl IH]; simpl; intros acc Hacc Hmax.
  - exact I.
  - assert (Ht : 0 <= total l).
    { clear -Hl. induction Hl; simpl; lia. }
    split.
    + unfold fits_int64, int64_min, int64_max in *. lia.
    + apply IH; lia.
Qed.

(** Counters that are not negative and whose sums over the table fit
    64 bits can be summed for every address and window. *)
Lemma sums_fit_nonnegative (start : string) (db : database) :
  Forall (fun r => 0 <= it_tx_bytes r) (ip_traffic db) ->
  Forall (fun r => 0 <= it_rx_bytes r) (ip_traffic db) ->
  Forall (fun r => 0 <= it_total_bytes r) (ip_traffic db) ->
  total (map it_tx_bytes (ip_traffic db)) <= int64_max ->
  total (map it_rx_bytes (ip_traffic db)) <= int64_max ->
  total (map it_total_bytes (ip_traffic db)) <= int64_max ->
  sums_fit start db.
Proof.
  intros Htx Hrx Htot Mtx Mrx Mtot ip. unfold rows_of_ip, window_rows.
  assert (H : forall f,
             Forall (fun r => 0 <= f r) (ip_traffic db) ->
             total (map f (ip_traffic db)) <= int64_max ->
             running_totals_fit 0
               (map f (List.filter (fun r => String.eqb (it_ip_address r) ip)
                         (List.filter (fun r => text_le start (it_timestamp r))
                            (ip_traffic db))))).
  { intros f Hf Mf. apply running_totals_fit_nonnegative; [lia| |].
    - apply Forall_map. now apply filter_nonnegative, filter_nonnegative.
    - pose proof (total_filter_le f (fun r => text_le start (it_timestamp r)) _ Hf).
      pose proof (total_filter_le f (fun r => String.eqb (it_ip_address r) ip) _
                    (filter_nonnegative f (fun r => text_le start (it_timestamp r)) _ Hf)).
      lia. }
  repeat split; apply H; assumption.
Qed.

End TopIpFacts.

(** C2, as amended.  For a limit that is not negative, a window whose
    start is a date of the calendar and sums that can be computed in
    64 bits, the query returns at most [limit] rows, in descending order
    of the summed total, one per address; each row carries the sums of
    tx, rx and total bytes over the rows of its address in the window
    and their greatest timestamp; an address of the window is left out
    only when the limit is reached, and then its total is at most every
    total returned. *)
Theorem top_ips_by_traffic_spec (limit hours : Z) (now : DateTime.datetime)
  (start : string) (db : DataStore.database) :
  0 <= limit ->
  Sqlite.fits_int64 limit = true ->
  DateTime.window_start now hours = Py.Returns start ->
  DataStore.sums_fit start db ->
  let result := DataStore.rows (DataStore.get_top_ips_by_traffic limit hours now db) in
  Z.of_nat (length result) <= limit
  /\ DataStore.descending_totals result
  /\ List.NoDup (map DataStore.top_ip_address result)
  /\ Forall (DataStore.summarizes start db) result
  /\ (forall ip,
        DataStore.rows_of_ip ip start db <> [] ->
        ~ In ip (map DataStore.top_ip_address result) ->
        Z.of_nat (length result) = limit
        /\ Forall
             (fun e =>
                DataStore.total
                  (map DataStore.it_total_bytes (DataStore.rows_of_ip ip start db))
                <= DataStore.top_total_bytes e)
             result).
Proof.
  intros Hn Hl Hs Hf result. subst result.
  rewrite (top_ips_rows limit hours now start db Hl Hs Hf).
  set (keys := Sqlite.group_keys
                 (map DataStore.it_ip_address
                    (Sqlite.where_ge DataStore.it_timestamp start
                       (DataStore.ip_traffic db)))).
  set (groups := map (fun k => DataStore.summary k (DataStore.rows_of_ip k start db)) keys).
  set (sorted := Sqlite.order_by
                   (Sqlite.descending_integer DataStore.top_total_bytes) groups).
  assert (Hperm : sorted ≡ₚ groups) by apply order_by_perm.
  assert (Hips : map DataStore.top_ip_address groups = keys).
  { unfold groups. rewrite map_map. simpl. apply map_id. }
  assert (Hsorted : DataStore.descending_totals sorted) by apply descending_sorted.
  assert (Htake : Sqlite.limit limit sorted = take (Z.to_nat limit) sorted).
  { unfold Sqlite.limit. destruct (limit <? 0) eqn:E; [lia | reflexivity]. }
  rewrite Htake.
  pose proof (take_drop (Z.to_nat limit) sorted) as Hsplit.
  assert (Hin_groups : forall e, In e groups ->
            exists k, e = DataStore.summary k (DataStore.rows_of_ip k start db)
                      /\ DataStore.rows_of_ip k start db <> []).
  { intros e He. unfold groups in He. apply in_map_iff in He as (k & <- & Hk).
    exists k. split; [reflexivity|].
    apply rows_of_ip_nonempty. unfold keys in Hk.
    exact (proj1 (group_keys_In _ _) Hk). }
  assert (Hin_take : forall e, In e (take (Z.to_nat limit) sorted) -> In e groups).
  { intros e He. eapply Permutation_in; [exact Hperm|].
    rewrite <- Hsplit. apply in_or_app. now left. }
  split; [rewrite length_take; lia|].
  split.
  { unfold DataStore.descending_totals in *. rewrite <- Hsplit in Hsorted.
    now apply StronglySorted_app_1_l in Hsorted. }
  split.
  { assert (Hnd : List.NoDup (map DataStore.top_ip_address sorted)).
    { eapply Permutation_NoDup.
      - apply Permutation_map, Permutation_sym, Hperm.
      - rewrite Hips. apply group_keys_NoDup. }
    rewrite <- Hsplit, map_app in Hnd. now apply NoDup_app_remove_r in Hnd. }
  split.
  { apply List.Forall_forall. intros e He.
    destruct (Hin_groups e (Hin_take e He)) as (k & -> & Hk).
    now apply summary_summarizes. }
  intros ip Hip Hout.
  set (e0 := DataStore.summary ip (DataStore.rows_of_ip ip start db)).
  assert (He0 : In e0 sorted).
  { eapply Permutation_in; [apply Permutation_sym, Hperm|].
    unfold groups. apply in_map_iff. exists ip. split; [reflexivity|].
    unfold keys. apply (proj2 (group_keys_In _ _)).
    now apply rows_of_ip_nonempty. }
  rewrite <- Hsplit in He0. apply in_app_or in He0 as [He0|He0].
  { exfalso. apply Hout. apply in_map_iff. exists e0. split; [reflexivity | exact He0]. }
  split.
  { rewrite length_take.
    assert (Hlen : (Z.to_nat limit < length sorted)%nat).
    { destruct (Nat.lt_ge_cases (Z.to_nat limit) (length sorted)) as [H|H]; [exact H|].
      rewrite drop_ge in He0 by exact H. destruct He0. }
    lia. }
  apply List.Forall_forall. intros e He.
  unfold DataStore.descending_totals in Hsorted. rewrite <- Hsplit in Hsorted.
  apply list_elem_of_In in He, He0.
  pose proof (StronglySorted_app_1_elem_of _ _ _ _ _ Hsorted He He0) as H.
  exact H.
Qed.

Lemma top_ips_by_traffic_spec_witness :
  let result :=
    DataStore.rows
      (DataStore.get_top_ips_by_traffic 1 24 Examples.noon Examples.traffic_database) in
  Z.of_nat (length result) <= 1
  /\ DataStore.descending_totals result
  /\ List.NoDup (map DataStore.top_ip_address result)
  /\ Forall (DataStore.summarizes "2023-12-31T12:00:00" Examples.traffic_database) result
  /\ (forall ip,
        DataStore.rows_of_ip ip "2023-12-31T12:00:00" Examples.traffic_database <> [] ->
        ~ In ip (map DataStore.top_ip_address result) ->
        Z.of_nat (length result) = 1
        /\ Forall
             (fun e =>
                DataStore.total
                  (map DataStore.it_total_bytes
                     (DataStore.rows_of_ip ip "2023-12-31T12:00:00"
                        Examples.traffic_database))
                <= DataStore.top_total_bytes e)
             result).
Proof.
  apply (top_ips_by_traffic_spec 1 24 Examples.noon "2023-12-31T12:00:00"
           Examples.traffic_database).
  - lia.
  - reflexivity.
  - reflexivity.
  - apply sums_fit_nonnegative.
    + repeat constructor; simpl; lia.
    + repeat constructor; simpl; lia.
    + repeat constructor; simpl; lia.
    + vm_compute. discriminate.
    + vm_compute. discriminate.
    + vm_compute. discriminate.
Defined.

(** C2 as stated does not hold for every limit and every state: with the
    limit -1 all addresses are returned, which is more than -1 rows, and
    when a sum passes 64 bits nothing is returned although the window
    holds an address. *)
Lemma top_ips_by_traffic_counterexample :
  (Z.of_nat
     (length
        (DataStore.rows
           (DataStore.get_top_ips_by_traffic (-1) 24 Examples.noon
              Examples.traffic_database)))
   > -1)
  /\ map DataStore.top_ip_address
       (DataStore.rows
          (DataStore.get_top_ips_by_traffic (-1) 24 Examples.noon
             Examples.traffic_database))
     = ["8.8.8.8"; "192.168.88.10"]
  /\ DataStore.get_top_ips_by_traffic 10 24 Examples.noon Examples.heavy_database
     = DataStore.empty_frame
  /\ DataStore.rows_of_ip "10.0.0.9" "2023-12-31T12:00:00" Examples.heavy_database
     <> [].
Proof.
  split; [vm_compute; reflexivity|].
  split; [vm_compute; reflexivity|].
  split; [vm_compute; reflexivity|].
  vm_compute. discriminate.
Qed.

(** ** Storing the connection table *)

Section ConnectionFacts.

Import Py Sqlite DataStore.

Lemma int_of_field (data : connection_entry) (key : string) (z : Z) :
  number_of_field data key = Some z ->
  int (dict_get data key (PInt 0)) = Returns z.
Proof.
  unfold number_of_field, dict_get.
  destruct (data !! key) as [[| b | n | s]|]; simpl; intros H;
    try discriminate; try congruence.
  now rewrite H.
Qed.

Lemma int_of_field_non_numeric (data : connection_entry) (key s : string) :
  data !! key = Some (PStr s) -> int_of_str s = None ->
  int (dict_get data key (PInt 0)) = Raises "ValueError".
Proof. unfold dict_get. intros -> H. simpl. now rewrite H. Qed.

Lemma text_of_field_bound (data : connection_entry) (key t : string) :
  text_of_field data key = Some t ->
  exists p, bind_parameter (dict_get data key (PStr "")) = Returns p
            /\ text_not_null p = Returns t.
Proof.
  unfold text_of_field, dict_get.
  destruct (data !! key) as [[| b | n | s]|]; simpl; intros H; try discriminate.
  - injection H as <-. exists (SqlInteger (if b then 1 else 0)).
    split; [reflexivity|]. destruct b; reflexivity.
  - unfold bind_integer. destruct (fits_int64 n); [|discriminate].
    injection H as <-. exists (SqlInteger n). split; reflexivity.
  - injection H as <-. exists (SqlText s). split; reflexivity.
  - injection H as <-. exists (SqlText ""). split; reflexivity.
Qed.

(** One pass of the loop appends the row of the entry. *)
Lemma insert_active_connection_storable (timestamp : string)
  (data : connection_entry) (table : list active_connections_row) :
  storable data ->
  exists row,
    insert_active_connection timestamp data table = Returns (table ++ [row])%list
    /\ row_of_entry timestamp data row
    /\ ac_id row = next_id table.
Proof.
  intros ([src Hsrc] & [dst Hdst] & [proto Hproto] & (o & Ho & Fo) & (r & Hr & Fr)).
  destruct (text_of_field_bound _ _ _ Hsrc) as (p1 & B1 & T1).
  destruct (text_of_field_bound _ _ _ Hdst) as (p2 & B2 & T2).
  destruct (text_of_field_bound _ _ _ Hproto) as (p3 & B3 & T3).
  unfold insert_active_connection.
  rewrite (int_of_field _ _ _ Ho), (int_of_field _ _ _ Hr). simpl.
  rewrite B1, B2, B3. simpl.
  rewrite (bind_integer_fits _ Fo), (bind_integer_fits _ Fr). simpl.
  rewrite T1, T2, T3. simpl.
  eexists. split; [reflexivity|]. split; [|reflexivity].
  unfold row_of_entry. simpl. auto 10.
Qed.

Lemma row_of_entry_missing (timestamp : string) (data : connection_entry)
  (row : active_connections_row) :
  row_of_entry timestamp data row -> missing_is_zero data row.
Proof.
  intros (_ & _ & _ & Ho & Hr & _). unfold number_of_field in *.
  split; intros E; rewrite E in *; congruence.
Qed.

(** The loop appends one row per entry, in the order of the entries. *)
Lemma for_each_insert_active_connection (timestamp : string)
  (entries : list connection_entry) (table : list active_connections_row) :
  Forall storable entries ->
  exists new_rows,
    for_each (insert_active_connection timestamp) entries table
    = Returns (table ++ new_rows)%list
    /\ Forall2 (row_of_entry timestamp) entries new_rows.
Proof.
  intros H. revert table. induction H as [|e entries He _ IH]; intros table.
  - exists []. simpl. rewrite app_nil_r. split; [reflexivity | constructor].
  - destruct (insert_active_connection_storable timestamp e table He)
      as (row & E & Hrow & _).
    destruct (IH (table ++ [row])%list) as (rest & E' & Hrest).
    exists (row :: rest). simpl. rewrite E. simpl. rewrite E'.
    split; [now rewrite <- app_assoc | now constructor].
Qed.

Lemma insert_active_connection_non_numeric (timestamp : string)
  (data : connection_entry) (table : list active_connections_row) :
  non_numeric data ->
  exists e, insert_active_connection timestamp data table = Raises e.
Proof.
  intros (key & s & [-> | ->] & Hget & Hs); unfold insert_active_connection.
  - rewrite (int_of_field_non_numeric _ _ _ Hget Hs). simpl. eauto.
  - destruct (int (dict_get data "orig-bytes" (PInt 0))); simpl; [|eauto].
    rewrite (int_of_field_non_numeric _ _ _ Hget Hs). simpl. eauto.
Qed.

(** The loop stops with an exception when a byte field is not a number. *)
Lemma for_each_non_numeric (timestamp : string)
  (entries : list connection_entry) (table : list active_connections_row) :
  Exists non_numeric entries ->
  exists e, for_each (insert_active_connection timestamp) entries table = Raises e.
Proof.
  intros H. revert table. induction H as [d entries Hd | d entries _ IH]; intros table; simpl.
  - destruct (insert_active_connection_non_numeric timestamp d table Hd) as [e ->].
    simpl. eauto.
  - destruct (insert_active_connection timestamp d table) as [table'|e]; simpl; [|eauto].
    apply IH.
Qed.

End ConnectionFacts.

(** C4, as amended.  When every field of every entry can be stored (a
    byte field is missing, a number, or a text that [int] reads, and
    fits 64 bits), the call succeeds and appends exactly one row per
    entry, in order, with a missing byte field stored as zero; when a
    byte field of some entry is a text that is not a number, the call
    returns [False] and leaves the table as it was. *)
Theorem store_active_connections_spec (now : DateTime.datetime)
  (entries : list DataStore.connection_entry) (db : DataStore.database) :
  entries <> [] ->
  (Forall DataStore.storable entries ->
   exists new_rows,
     DataStore.store_active_connections now entries db
     = (true,
        {| DataStore.ip_traffic := DataStore.ip_traffic db;
           DataStore.bandwidth_usage := DataStore.bandwidth_usage db;
           DataStore.active_connections :=
             (DataStore.active_connections db ++ new_rows)%list |})
     /\ length new_rows = length entries
     /\ Forall2 (DataStore.row_of_entry (DateTime.isoformat now)) entries new_rows
     /\ Forall2 DataStore.missing_is_zero entries new_rows)
  /\ (Exists DataStore.non_numeric entries ->
      DataStore.store_active_connections now entries db = (false, db)).
Proof.
  intros Hne. split.
  - intros Hst.
    destruct (for_each_insert_active_connection (DateTime.isoformat now) entries
                (DataStore.active_connections db) Hst) as (new_rows & E & Hrows).
    exists new_rows. split.
    { unfold DataStore.store_active_connections. rewrite E.
      destruct entries; [congruence | reflexivity]. }
    split; [symmetry; eapply Forall2_length; exact Hrows|].
    split; [exact Hrows|].
    eapply Forall2_impl; [exact Hrows|].
    intros e row. apply row_of_entry_missing.
  - intros Hex.
    destruct (for_each_non_numeric (DateTime.isoformat now) entries
                (DataStore.active_connections db) Hex) as [e E].
    unfold DataStore.store_active_connections. rewrite E.
    destruct entries; reflexivity.
Qed.

Lemma store_active_connections_spec_witness :
  exists new_rows,
    DataStore.store_active_connections Examples.noon
      [Examples.complete_entry; Examples.bare_entry] DataStore.empty_database
    = (true,
       {| DataStore.ip_traffic := [];
          DataStore.bandwidth_usage := [];
          DataStore.active_connections := ([] ++ new_rows)%list |})
    /\ length new_rows = 2%nat
    /\ Forall2 (DataStore.row_of_entry (DateTime.isoformat Examples.noon))
         [Examples.complete_entry; Examples.bare_entry] new_rows
    /\ Forall2 DataStore.missing_is_zero
         [Examples.complete_entry; Examples.bare_entry] new_rows.
Proof.
  refine (proj1 (store_active_connections_spec Examples.noon
                   [Examples.complete_entry; Examples.bare_entry]
                   DataStore.empty_database _) _).
  - discriminate.
  - constructor; [|constructor; [|constructor]].
    + split; [exists "192.168.88.10:51234"; reflexivity|].
      split; [exists "8.8.8.8:53"; reflexivity|].
      split; [exists "udp"; reflexivity|].
      split; [exists 120 | exists 300]; split; reflexivity.
    + split; [exists "192.168.88.11:40000"; reflexivity|].
      split; [exists "1.1.1.1:443"; reflexivity|].
      split; [exists "tcp"; reflexivity|].
      split; exists 0; split; reflexivity.
Defined.

(** C4 as stated does not hold: an entry whose byte count is the text
    n/a is not stored with a zero; the call returns [False] and writes
    no row. *)
Lemma store_active_connections_counterexample :
  Examples.garbled_entry !! "orig-bytes" = Some (Py.PStr "n/a")
  /\ DataStore.store_active_connections Examples.noon [Examples.garbled_entry]
       DataStore.empty_database
     = (false, DataStore.empty_database).
Proof. split; vm_compute; reflexivity. Qed.

(** ** The router client *)

(** The records that [get_traffic_by_ip] builds carry, as total, the
    sum of their two directions. *)
Lemma get_traffic_by_ip_consistent (entries : list DataStore.connection_entry)
  (clock : nat -> DateTime.datetime) :
  Forall DataStore.record_consistent (Client.get_traffic_by_ip entries clock).
Proof.
  unfold Client.get_traffic_by_ip.
  destruct (DataStore.for_each Client.count_connection entries []) as [d|e];
    [|constructor].
  revert clock. induction d as [|[ip data] d IH]; intros clock; simpl.
  - constructor.
  - constructor; [reflexivity | apply IH].
Qed.

Example get_traffic_by_ip_example :
  Client.get_traffic_by_ip [Examples.complete_entry; Examples.bare_entry]
    (fun k => Examples.noon + Z.of_nat k)
  = [ {| DataStore.tr_ip_address := "192.168.88.10";
         DataStore.tr_tx_bytes := 120; DataStore.tr_rx_bytes := 0;
         DataStore.tr_total_bytes := 120; DataStore.tr_connections := 1;
         DataStore.tr_timestamp := "2024-01-01T12:00:00" |};
      {| DataStore.tr_ip_address := "8.8.8.8";
         DataStore.tr_tx_bytes := 0; DataStore.tr_rx_bytes := 300;
         DataStore.tr_total_bytes := 300; DataStore.tr_connections := 1;
         DataStore.tr_timestamp := "2024-01-01T12:00:00.000001" |};
      {| DataStore.tr_ip_address := "192.168.88.11";
         DataStore.tr_tx_bytes := 0; DataStore.tr_rx_bytes := 0;
         DataStore.tr_total_bytes := 0; DataStore.tr_connections := 1;
         DataStore.tr_timestamp := "2024-01-01T12:00:00.000002" |};
      {| DataStore.tr_ip_address := "1.1.1.1";
         DataStore.tr_tx_bytes := 0; DataStore.tr_rx_bytes := 0;
         DataStore.tr_total_bytes := 0; DataStore.tr_connections := 1;
         DataStore.tr_timestamp := "2024-01-01T12:00:00.000003" |} ].
Proof. vm_compute. reflexivity. Qed.

(** ** The collection cycle *)

Section CollectFacts.

Import Py DataStore App.

(** A store call changes nothing of the session but the database. *)
Lemma call_store_frame (fault : option string)
  (method : database -> bool * database) (s : session_state) :
  forall r s', call_store fault method s = (r, s') ->
    s' = set_data_store (data_store s') s.
Proof.
  intros r s' H. unfold call_store in H.
  destruct (method (data_store s)) as [flag db].
  destruct fault; injection H as <- <-; reflexivity.
Qed.

Lemma when_call_store_cases (b : bool) (fault : option string)
  (method : database -> bool * database) (s : session_state) :
  exists db,
    (when b (call_store fault method) s = (Returns tt, set_data_store db s)
     /\ (b = true -> fault = None))
    \/ (exists e, when b (call_store fault method) s = (Raises e, set_data_store db s)
                  /\ b = true /\ fault = Some e).
Proof.
  unfold when, seq, call_store, ret. destruct b.
  - destruct (method (data_store s)) as [flag db]. exists db.
    destruct fault as [e|]; [right; eauto | left; auto].
  - exists (data_store s). left. split; [|discriminate].
    destruct s; reflexivity.
Qed.

Lemma seq_returns {A B : Type} (m : action A) (k : A -> action B)
  (s s' : session_state) (a : A) :
  m s = (Returns a, s') -> seq m k s = k a s'.
Proof. unfold seq. now intros ->. Qed.

Lemma seq_raises {A B : Type} (m : action A) (k : A -> action B)
  (s s' : session_state) (e : string) :
  m s = (Raises e, s') -> seq m k s = (Raises e, s').
Proof. unfold seq. now intros ->. Qed.

Lemma request_returns {A : Type} (a : A) (s : session_state) :
  request (Returns a) s = (Returns a, s).
Proof. reflexivity. Qed.

Lemma request_raises {A : Type} (e : string) (s : session_state) :
  request (A := A) (Raises e) s = (Raises e, s).
Proof. reflexivity. Qed.

Lemma set_data_store_same (s : session_state) : set_data_store (data_store s) s = s.
Proof. destruct s; reflexivity. Qed.

(** The steps of a cycle leave everything but the database and the
    time of the last update as they were; they raise exactly when a
    step that is reached raises, and then the time of the last update is
    not written. *)
Lemma collect_steps_cases (env : cycle_environment) (s : session_state) :
  exists db,
    (cycle_raises env
     /\ exists e, collect_steps env s = (Raises e, set_data_store db s))
    \/ (~ cycle_raises env
        /\ collect_steps env s
           = (Returns true, set_last_update (now_last_update env) (set_data_store db s))).
Proof.
  unfold collect_steps, cycle_raises.
  destruct (get_active_connections env) as [connections|e].
  2:{ exists (data_store s). left. split; [exact I|]. exists e.
      rewrite (seq_raises _ _ _ _ _ (request_raises e s)).
      now rewrite set_data_store_same. }
  rewrite (seq_returns _ _ _ _ _ (request_returns connections s)).
  destruct (when_call_store_cases (nonempty connections) (store_connections_fault env)
              (store_active_connections (now_store_connections env) connections) s)
    as (db1 & [[E1 F1] | (e & E1 & B1 & F1)]).
  2:{ exists db1. left. split; [left; rewrite F1; eauto|]. exists e.
      now rewrite (seq_raises _ _ _ _ _ E1). }
  rewrite (seq_returns _ _ _ _ _ E1).
  destruct (get_bandwidth_usage env) as [bandwidth|e].
  2:{ exists db1. left. split; [right; exact I|]. exists e.
      now rewrite (seq_raises _ _ _ _ _ (request_raises e _)). }
  rewrite (seq_returns _ _ _ _ _ (request_returns bandwidth _)).
  destruct (when_call_store_cases (nonempty bandwidth) (store_bandwidth_fault env)
              (store_bandwidth_usage bandwidth) (set_data_store db1 s))
    as (db2 & [[E2 F2] | (e & E2 & B2 & F2)]).
  2:{ exists db2. left. split; [right; left; rewrite F2; eauto|]. exists e.
      now rewrite (seq_raises _ _ _ _ _ E2). }
  rewrite (seq_returns _ _ _ _ _ E2).
  destruct (get_traffic_by_ip env) as [traffic|e].
  2:{ exists db2. left. split; [right; right; exact I|]. exists e.
      now rewrite (seq_raises _ _ _ _ _ (request_raises e _)). }
  rewrite (seq_returns _ _ _ _ _ (request_returns traffic _)).
  destruct (when_call_store_cases (nonempty traffic) (store_traffic_fault env)
              (store_ip_traffic traffic) (set_data_store db2 (set_data_store db1 s)))
    as (db3 & [[E3 F3] | (e & E3 & B3 & F3)]).
  2:{ exists db3. left. split; [right; right; rewrite F3; eauto|]. exists e.
      now rewrite (seq_raises _ _ _ _ _ E3). }
  rewrite (seq_returns _ _ _ _ _ E3).
  exists db3. right. split; [|reflexivity].
  intros [[B F] | [[B F] | [B F]]].
  - rewrite (F1 B) in F. destruct F; discriminate.
  - rewrite (F2 B) in F. destruct F; discriminate.
  - rewrite (F3 B) in F. destruct F; discriminate.
Qed.

(** The [try] statement never raises. *)
Lemma collect_guarded_returns (env : cycle_environment) (s : session_state) :
  exists result s', collect_guarded env s = (Returns result, s').
Proof.
  unfold collect_guarded, try_except, ret.
  destruct (collect_steps_cases env s) as (db & [[_ [e E]] | [_ E]]); rewrite E; eauto.
Qed.

(** Each store method writes to its own table only. *)
Lemma store_active_connections_frame (now : DateTime.datetime)
  (entries : list connection_entry) (db : database) :
  ip_traffic (snd (store_active_connections now entries db)) = ip_traffic db
  /\ bandwidth_usage (snd (store_active_connections now entries db))
     = bandwidth_usage db.
Proof.
  unfold store_active_connections. destruct entries; [split; reflexivity|].
  destruct (for_each _ _ _); split; reflexivity.
Qed.

Lemma store_bandwidth_usage_frame (items : list (string * interface_counters))
  (db : database) :
  ip_traffic (snd (store_bandwidth_usage items db)) = ip_traffic db
  /\ active_connections (snd (store_bandwidth_usage items db))
     = active_connections db.
Proof.
  unfold store_bandwidth_usage. destruct items; [split; reflexivity|].
  destruct (for_each _ _ _); split; reflexivity.
Qed.

Lemma store_ip_traffic_frame (records : list traffic_record) (db : database) :
  bandwidth_usage (snd (store_ip_traffic records db)) = bandwidth_usage db
  /\ active_connections (snd (store_ip_traffic records db))
     = active_connections db.
Proof.
  unfold store_ip_traffic. destruct records; [split; reflexivity|].
  destruct (for_each _ _ _); split; reflexivity.
Qed.

Lemma insert_bandwidth_usage_fits (item : string * interface_counters)
  (table : list bandwidth_usage_row) :
  counters_fit item ->
  exists row, insert_bandwidth_usage item table = Returns (table ++ [row])%list.
Proof.
  destruct item as [interface data]. intros (H1 & H2 & H3 & H4). simpl in *.
  unfold insert_bandwidth_usage.
  rewrite !bind_integer_fits by assumption. simpl. eauto.
Qed.

Lemma for_each_insert_bandwidth_usage (items : list (string * interface_counters))
  (table : list bandwidth_usage_row) :
  Forall counters_fit items ->
  exists new_rows,
    for_each insert_bandwidth_usage items table = Returns (table ++ new_rows)%list
    /\ length new_rows = length items.
Proof.
  intros H. revert table. induction H as [|item items Hi _ IH]; intros table.
  - exists []. simpl. now rewrite app_nil_r.
  - destruct (insert_bandwidth_usage_fits item table Hi) as (row & E).
    destruct (IH (table ++ [row])%list) as (rest & E' & Hlen).
    exists (row :: rest). simpl. rewrite E. simpl. rewrite E'.
    split; [now rewrite <- app_assoc | now rewrite Hlen].
Qed.

Lemma seq_cases {A B : Type} (m : action A) (k : A -> action B)
  (s s' : session_state) (r : outcome B) :
  seq m k s = (r, s') ->
  (exists a s1, m s = (Returns a, s1) /\ k a s1 = (r, s'))
  \/ (exists e, m s = (Raises e, s') /\ r = Raises e).
Proof.
  unfold seq. destruct (m s) as [[a|e] s1]; intros H.
  - left. eauto.
  - right. injection H as <- <-. eauto.
Qed.

Lemma keeps_ret {A : Type} (P : session_state -> Prop) (a : A) : keeps P (ret a).
Proof. intros s r s' H. injection H as _ <-. auto. Qed.

Lemma keeps_request {A : Type} (P : session_state -> Prop) (answer : outcome A) :
  keeps P (request answer).
Proof. intros s r s' H. injection H as _ <-. auto. Qed.

Lemma keeps_seq {A B : Type} (P : session_state -> Prop) (m : action A)
  (k : A -> action B) :
  keeps P m -> (forall a, keeps P (k a)) -> keeps P (seq m k).
Proof.
  intros Hm Hk s r s' H HP.
  destruct (seq_cases _ _ _ _ _ H) as [(a & s1 & E1 & E2) | (e & E1 & _)].
  - eapply Hk; [exact E2|]. eapply Hm; eauto.
  - eapply Hm; eauto.
Qed.

(** A store call keeps what its method keeps of the database. *)
Lemma keeps_call_store (Q : database -> Prop) (b : bool) (fault : option string)
  (method : database -> bool * database) :
  (forall db, Q db -> Q (snd (method db))) ->
  keeps (fun s => Q (data_store s)) (when b (call_store fault method)).
Proof.
  intros Hm s r s' H HQ. unfold when in H. destruct b.
  - apply seq_cases in H as [(a & s1 & E1 & E2) | (e & E1 & _)].
    + injection E2 as _ <-. unfold call_store in E1.
      specialize (Hm _ HQ). destruct (method (data_store s)) as [flag db].
      destruct fault; injection E1 as _ <-; exact Hm.
    + unfold call_store in E1.
      specialize (Hm _ HQ). destruct (method (data_store s)) as [flag db].
      destruct fault; injection E1 as _ <-; exact Hm.
  - injection H as _ <-. exact HQ.
Qed.

Lemma keeps_last_update (Q : database -> Prop) (t : DateTime.datetime) :
  keeps (fun s => Q (data_store s))
    (fun s => (Returns tt, set_last_update t s)).
Proof. intros s r s' H HQ. injection H as _ <-. exact HQ. Qed.

(** The first store call of a cycle. *)
Lemma first_store_connections (env : cycle_environment) (s s1 : session_state)
  (r1 : outcome unit) (entries : list connection_entry) :
  entries <> [] ->
  Forall storable entries ->
  when (nonempty entries)
    (call_store (store_connections_fault env)
       (store_active_connections (now_store_connections env) entries)) s
  = (r1, s1) ->
  length (active_connections (data_store s1))
  = (length (active_connections (data_store s)) + length entries)%nat.
Proof.
  intros Hne Hst.
  destruct (for_each_insert_active_connection
              (DateTime.isoformat (now_store_connections env)) entries
              (active_connections (data_store s)) Hst) as (new_rows & E & Hrows).
  apply Forall2_length in Hrows.
  assert (Hstore : store_active_connections (now_store_connections env) entries
                     (data_store s)
                   = (true,
                      {| ip_traffic := ip_traffic (data_store s);
                         bandwidth_usage := bandwidth_usage (data_store s);
                         active_connections :=
                           (active_connections (data_store s) ++ new_rows)%list |})).
  { unfold store_active_connections. rewrite E.
    destruct entries; [congruence | reflexivity]. }
  destruct entries as [|e0 entries']; [congruence|].
  unfold nonempty, when, seq, call_store, ret. rewrite Hstore.
  destruct (store_connections_fault env); intros H; injection H as _ <-;
    simpl; rewrite length_app; simpl in *; lia.
Qed.

(** The table of connections after a cycle whose first request is
    answered with entries that can be stored. *)
Lemma collect_steps_stores_connections (env : cycle_environment)
  (s s' : session_state) (r : outcome bool) (entries : list connection_entry) :
  get_active_connections env = Returns entries ->
  entries <> [] ->
  Forall storable entries ->
  collect_steps env s = (r, s') ->
  length (active_connections (data_store s'))
  = (length (active_connections (data_store s)) + length entries)%nat.
Proof.
  intros Hget Hne Hst. unfold collect_steps.
  rewrite Hget, (seq_returns _ _ _ _ _ (request_returns entries s)).
  intros H. apply seq_cases in H as [(a & s1 & E1 & E2) | (e & E1 & _)];
    [|now apply (first_store_connections env s s' _ entries Hne Hst E1)].
  rewrite <- (first_store_connections env s s1 _ entries Hne Hst E1).
  set (n := length (active_connections (data_store s1))).
  assert (Hn : length (active_connections (data_store s1)) = n) by reflexivity.
  clearbody n.
  refine (_ : (fun t => length (active_connections (data_store t)) = n) s').
  eapply (keeps_seq (fun t => length (active_connections (data_store t)) = n));
    [| |exact E2|exact Hn].
  - apply keeps_request.
  - intros bandwidth. apply keeps_seq.
    + apply (keeps_call_store (fun db => length (active_connections db) = n)).
      intros db <-. f_equal. apply store_bandwidth_usage_frame.
    + intros _. apply keeps_seq; [apply keeps_request|].
      intros traffic. apply keeps_seq.
      * apply (keeps_call_store (fun db => length (active_connections db) = n)).
        intros db <-. f_equal. apply store_ip_traffic_frame.
      * intros _. apply keeps_seq;
          [apply (keeps_last_update (fun db => length (active_connections db) = n))|].
        intros _. apply keeps_ret.
Qed.


Lemma store_call_without_fault (b : bool)
  (method : database -> bool * database) (s s1 : session_state) (e : string) :
  when b (call_store None method) s <> (Raises e, s1).
Proof.
  unfold when, seq, call_store, ret. destruct b.
  - destruct (method (data_store s)); discriminate.
  - discriminate.
Qed.

(** The second store call of a cycle. *)
Lemma second_store_bandwidth (env : cycle_environment) (s s2 : session_state)
  (r2 : outcome unit) (items : list (string * interface_counters)) :
  items <> [] ->
  Forall counters_fit items ->
  when (nonempty items)
    (call_store (store_bandwidth_fault env) (store_bandwidth_usage items)) s
  = (r2, s2) ->
  length (bandwidth_usage (data_store s2))
  = (length (bandwidth_usage (data_store s)) + length items)%nat.
Proof.
  intros Hne Hfit.
  destruct (for_each_insert_bandwidth_usage items (bandwidth_usage (data_store s)) Hfit)
    as (new_rows & E & Hlen).
  destruct items as [|i0 items']; [congruence|].
  unfold nonempty, when, seq, call_store, ret, store_bandwidth_usage. rewrite E.
  destruct (store_bandwidth_fault env); intros H; injection H as _ <-;
    simpl; rewrite length_app; simpl in *; lia.
Qed.

(** The table of interface counters after a cycle whose first step does
    not raise and whose second request is answered with counters that
    can be stored. *)
Lemma collect_steps_stores_bandwidth (env : cycle_environment)
  (s s' : session_state) (r : outcome bool) (entries : list connection_entry)
  (items : list (string * interface_counters)) :
  get_active_connections env = Returns entries ->
  store_connections_fault env = None ->
  get_bandwidth_usage env = Returns items ->
  items <> [] ->
  Forall counters_fit items ->
  collect_steps env s = (r, s') ->
  length (bandwidth_usage (data_store s'))
  = (length (bandwidth_usage (data_store s)) + length items)%nat.
Proof.
  intros Hget Hfault Hbw Hne Hfit. unfold collect_steps.
  rewrite Hget, Hfault, Hbw, (seq_returns _ _ _ _ _ (request_returns entries s)).
  intros H. apply seq_cases in H as [(a & s1 & E1 & E2) | (e & E1 & _)];
    [|now apply store_call_without_fault in E1].
  assert (F1 : length (bandwidth_usage (data_store s1))
               = length (bandwidth_usage (data_store s))).
  { refine (keeps_call_store
              (fun db => length (bandwidth_usage db)
                         = length (bandwidth_usage (data_store s)))
              _ _ _ _ s _ s1 E1 eq_refl).
    intros db <-. f_equal. apply store_active_connections_frame. }
  rewrite <- F1. clear F1 E1.
  rewrite (seq_returns _ _ _ _ _ (request_returns items s1)) in E2.
  apply seq_cases in E2 as [(a2 & s2 & E2 & E3) | (e & E2 & _)];
    [|now apply (second_store_bandwidth env s1 s' _ items Hne Hfit E2)].
  rewrite <- (second_store_bandwidth env s1 s2 _ items Hne Hfit E2).
  set (n := length (bandwidth_usage (data_store s2))).
  assert (Hn : length (bandwidth_usage (data_store s2)) = n) by reflexivity.
  clearbody n.
  refine (_ : (fun t => length (bandwidth_usage (data_store t)) = n) s').
  eapply (keeps_seq (fun t => length (bandwidth_usage (data_store t)) = n));
    [| |exact E3|exact Hn].
  - apply keeps_request.
  - intros traffic. apply keeps_seq.
    + apply (keeps_call_store (fun db => length (bandwidth_usage db) = n)).
      intros db <-. f_equal. apply store_ip_traffic_frame.
    + intros _. apply keeps_seq;
        [apply (keeps_last_update (fun db => length (bandwidth_usage db) = n))|].
      intros _. apply keeps_ret.
Qed.

(** A cycle writes nothing of the session but the database and the
    time of the last update. *)
Lemma collect_data_session (env : cycle_environment) (s s' : session_state)
  (r : outcome bool) :
  collect_data env s = (r, s') ->
  connected s' = connected s /\ api s' = api s
  /\ stop_event s' = stop_event s /\ auto_update s' = auto_update s
  /\ update_interval s' = update_interval s.
Proof.
  unfold collect_data. destruct (collect_refused s).
  - intros H. injection H as _ <-. auto.
  - unfold collect_guarded, try_except, ret.
    destruct (collect_steps_cases env s) as (db & [[_ [e E]] | [_ E]]); rewrite E;
      intros H; injection H as _ <-; auto.
Qed.

Lemma collect_data_not_refused (env : cycle_environment) (s : session_state) :
  collect_refused s = false ->
  exists r s', collect_steps env s = (r, s')
               /\ snd (collect_data env s) = s'.
Proof.
  intros Hr. unfold collect_data, collect_guarded, try_except, ret. rewrite Hr.
  destruct (collect_steps env s) as [[b|e] s']; eauto.
Qed.

End CollectFacts.



(** ** The buttons *)

(** A click on Disconnect sets the stop event and leaves the store as it
    is. *)
Lemma disconnect_sets_stop (p : App.process) :
  App.connected (App.session p) = true ->
  App.stop_event (App.session (fst (App.disconnect_button p))) = true
  /\ App.connected (App.session (fst (App.disconnect_button p))) = false
  /\ App.data_store (App.session (fst (App.disconnect_button p)))
     = App.data_store (App.session p)
  /\ snd (App.disconnect_button p) = Some App.DisconnectedSuccessfully.
Proof. intros H. unfold App.disconnect_button. rewrite H. repeat split. Qed.

(** A click on Update Now whose cycle raises reports the failure and
    leaves the session connected, with the time of its last update. *)
Lemma update_now_reports_failure (env : App.cycle_environment) (p : App.process) :
  App.connected (App.session p) = true ->
  App.cycle_raises env ->
  snd (App.update_now_button env p) = Some App.UpdateFailed
  /\ App.connected (App.session (fst (App.update_now_button env p))) = true
  /\ App.last_update (App.session (fst (App.update_now_button env p)))
     = App.last_update (App.session p).
Proof.
  intros Hc Hr. unfold App.update_now_button. rewrite Hc.
  destruct (App.collect_data env (App.session p)) as [r s'] eqn:E.
  destruct (collect_data_session env _ _ _ E) as (Hc' & _).
  unfold App.collect_data in E. destruct (App.collect_refused (App.session p)).
  - injection E as <- <-. repeat split; assumption.
  - unfold App.collect_guarded, App.try_except, App.ret in E.
    destruct (collect_steps_cases env (App.session p))
      as (db & [[_ [e E']] | [Hn _]]); [|contradiction].
    rewrite E' in E. injection E as <- <-. repeat split. simpl. congruence.
Qed.


(** C9, as amended.  A click on Connect with a host that passes the
    check and a router that authenticates sets the session connected,
    clears the stop event, starts one background thread and runs one
    collection cycle before it returns.  The store then holds what that
    cycle fetched: the rows of the connection table when the first
    request was answered with entries that can be stored, the rows of
    the interface counters when the second was and the first step did
    not raise. *)
Theorem connect_runs_first_cycle (form : App.connection_settings)
  (env : App.cycle_environment) (p : App.process) :
  App.connected (App.session p) = false ->
  HostCheck.is_valid_ip (App.form_host form) = true
  \/ Py.startswith (App.form_host form) "http" = true ->
  exists s',
    App.connect_button form true env p
    = ({| App.session := s'; App.threads_started := S (App.threads_started p) |},
       Some App.ConnectedSuccessfully)
    /\ App.connected s' = true
    /\ App.stop_event s' = false
    /\ App.api s' = Some (App.new_api form true)
    /\ s' = snd (App.collect_data env
                   (App.set_stop_event false
                      (App.set_connected true
                         (App.set_api (Some (App.new_api form true))
                            (App.session p)))))
    /\ (forall entries,
          App.get_active_connections env = Py.Returns entries ->
          entries <> [] ->
          Forall DataStore.storable entries ->
          length (DataStore.active_connections (App.data_store s'))
          = (length (DataStore.active_connections (App.data_store (App.session p)))
             + length entries)%nat)
    /\ (forall entries items,
          App.get_active_connections env = Py.Returns entries ->
          App.store_connections_fault env = None ->
          App.get_bandwidth_usage env = Py.Returns items ->
          items <> [] ->
          Forall DataStore.counters_fit items ->
          length (DataStore.bandwidth_usage (App.data_store s'))
          = (length (DataStore.bandwidth_usage (App.data_store (App.session p)))
             + length items)%nat).
Proof.
  intros Hc Hhost.
  set (s0 := App.set_stop_event false
               (App.set_connected true
                  (App.set_api (Some (App.new_api form true)) (App.session p)))).
  assert (Hvalid : negb (HostCheck.is_valid_ip (App.form_host form))
                   && negb (Py.startswith (App.form_host form) "http") = false).
  { destruct Hhost as [-> | ->]; [reflexivity | apply andb_false_r]. }
  destruct (App.collect_data env s0) as [r s'] eqn:E.
  exists s'.
  assert (Hnr : App.collect_refused s0 = false) by reflexivity.
  destruct (collect_data_not_refused env s0 Hnr) as (r0 & s1 & Hsteps & Hs1).
  rewrite E in Hs1. simpl in Hs1. subst s1.
  destruct (collect_data_session env s0 s' r E) as (H1 & H2 & H3 & _).
  split.
  { unfold App.connect_button. rewrite Hc, Hvalid. fold s0. now rewrite E. }
  split; [exact H1|]. split; [exact H3|]. split; [exact H2|].
  split; [reflexivity|].
  split.
  - intros entries Hget Hne Hst.
    exact (collect_steps_stores_connections env s0 s' r0 entries Hget Hne Hst Hsteps).
  - intros entries items Hget Hfault Hbw Hne Hfit.
    exact (collect_steps_stores_bandwidth env s0 s' r0 entries items
             Hget Hfault Hbw Hne Hfit Hsteps).
Qed.

Lemma connect_runs_first_cycle_witness :
  exists s',
    App.connect_button Examples.router_form true Examples.full_cycle
      Examples.fresh_process
    = ({| App.session := s'; App.threads_started := 1 |},
       Some App.ConnectedSuccessfully)
    /\ App.connected s' = true
    /\ App.stop_event s' = false
    /\ length (DataStore.active_connections (App.data_store s')) = 2%nat
    /\ length (DataStore.bandwidth_usage (App.data_store s')) = 1%nat.
Proof.
  destruct (connect_runs_first_cycle Examples.router_form Examples.full_cycle
              Examples.fresh_process eq_refl (or_introl eq_refl))
    as (s' & E & Hc & Hs & _ & _ & Hconn & Hbw).
  exists s'. split; [exact E|]. split; [exact Hc|]. split; [exact Hs|].
  split.
  - apply (Hconn [Examples.complete_entry; Examples.bare_entry] eq_refl).
    + discriminate.
    + constructor; [|constructor; [|constructor]].
      * split; [exists "192.168.88.10:51234"; reflexivity|].
        split; [exists "8.8.8.8:53"; reflexivity|].
        split; [exists "udp"; reflexivity|].
        split; [exists 120 | exists 300]; split; reflexivity.
      * split; [exists "192.168.88.11:40000"; reflexivity|].
        split; [exists "1.1.1.1:443"; reflexivity|].
        split; [exists "tcp"; reflexivity|].
        split; exists 0; split; reflexivity.
  - eapply (Hbw _ _ eq_refl eq_refl eq_refl).
    + discriminate.
    + repeat constructor.
Defined.

(** C9 as stated does not hold: when the router answers every request
    of the first cycle with nothing, the session is connected and the
    store is as empty as before. *)
Lemma connect_counterexample :
  App.connected
    (App.session
       (fst (App.connect_button Examples.router_form true Examples.silent_cycle
               Examples.fresh_process)))
  = true
  /\ App.data_store
       (App.session
          (fst (App.connect_button Examples.router_form true Examples.silent_cycle
                  Examples.fresh_process)))
     = DataStore.empty_database.
Proof. split; vm_compute; reflexivity. Qed.

(** ** The background loop *)

Section LoopFacts.

Import Py DataStore App.

Lemma thread_trace_snoc (ls : list label) (l : label) :
  thread_trace (ls ++ [l])
  = (thread_trace ls ++ (if is_thread_label l then [l] else []))%list.
Proof. unfold thread_trace. now rewrite List.filter_app. Qed.

Lemma thread_trace_app (ls1 ls2 : list label) :
  thread_trace (ls1 ++ ls2) = (thread_trace ls1 ++ thread_trace ls2)%list.
Proof. unfold thread_trace. now rewrite List.filter_app. Qed.

Lemma collect_guarded_session (env : cycle_environment) (s s' : session_state)
  (r : outcome bool) :
  collect_guarded env s = (r, s') ->
  connected s' = connected s /\ api s' = api s
  /\ stop_event s' = stop_event s /\ auto_update s' = auto_update s
  /\ update_interval s' = update_interval s.
Proof.
  unfold collect_guarded, try_except, ret.
  destruct (collect_steps_cases env s) as (db & [[_ [e E]] | [_ E]]); rewrite E;
    intros H; injection H as _ <-; auto.
Qed.

Lemma run_cons (w w' w'' : world) (l : label) (ls : list label) :
  step w l w' -> run w' ls w'' -> run w (l :: ls) w''.
Proof.
  intros Hs Hr. induction Hr as [w'|w' ls w1 l' w2 Hr IH Hs'].
  - change [l] with ([] ++ [l])%list. econstructor; [constructor | exact Hs].
  - change (l :: ls ++ [l'])%list with ((l :: ls) ++ [l'])%list.
    econstructor; [apply IH; exact Hs | exact Hs'].
Qed.

Lemma run_app (w w' w'' : world) (ls1 ls2 : list label) :
  run w ls1 w' -> run w' ls2 w'' -> run w (ls1 ++ ls2) w''.
Proof.
  intros H1 H2. induction H2 as [w'|w' ls w1 l w2 Hr IH Hs].
  - now rewrite app_nil_r.
  - rewrite app_assoc. econstructor; [apply IH; exact H1 | exact Hs].
Qed.

(** *** The three properties of a trace, one more label at a time *)

Lemma cycle_follows_test_snoc (tr : list label) (l : label) :
  cycle_follows_test tr ->
  (forall b, l = EnterCollect b ->
     exists tr', tr = (tr' ++ [TestStop false; TestEnabled true])%list) ->
  cycle_follows_test (tr ++ [l]).
Proof.
  intros Htr Hl i b Hi. apply lookup_snoc_Some in Hi as [[Hlt Hi] | [-> ->]].
  - destruct (Htr i b Hi) as (j & -> & H1 & H2).
    exists j. split; [reflexivity|].
    split; apply lookup_app_l_Some; assumption.
  - destruct (Hl b eq_refl) as [tr' ->]. exists (length tr').
    split; [rewrite length_app; simpl; lia|].
    split.
    + rewrite <- app_assoc. rewrite lookup_app_r by lia.
      replace (S (length tr') - length tr')%nat with 1%nat by lia. reflexivity.
    + rewrite <- app_assoc. rewrite lookup_app_r by lia.
      replace (length tr' - length tr')%nat with 0%nat by lia. reflexivity.
Qed.

Lemma stop_ends_trace_snoc (tr : list label) (l : label) :
  ~ In (TestStop true) tr -> stop_ends_trace (tr ++ [l]).
Proof.
  intros Hno i Hi. apply lookup_snoc_Some in Hi as [[Hlt Hi] | [-> _]].
  - exfalso. apply Hno. apply list_elem_of_In, list_elem_of_lookup. eauto.
  - rewrite length_app. simpl. lia.
Qed.

Lemma test_follows_wake_snoc (tr : list label) (l : label) :
  test_follows_wake tr ->
  (forall b, l = TestStop b ->
     tr = [] \/ exists tr' n, tr = (tr' ++ [Wake n])%list) ->
  test_follows_wake (tr ++ [l]).
Proof.
  intros Htr Hl i b Hi. apply lookup_snoc_Some in Hi as [[Hlt Hi] | [-> ->]].
  - destruct (Htr i b Hi) as [-> | (j & n & -> & Hj)]; [now left|].
    right. exists j, n. split; [reflexivity|]. now apply lookup_app_l_Some.
  - destruct (Hl b eq_refl) as [-> | (tr' & n & ->)]; [now left|].
    right. exists (length tr'), n. split; [rewrite length_app; simpl; lia|].
    rewrite <- app_assoc. rewrite lookup_app_r by lia.
    replace (length tr' - length tr')%nat with 0%nat by lia. reflexivity.
Qed.

Lemma not_in_snoc (tr : list label) (l x : label) :
  ~ In x tr -> l <> x -> ~ In x (tr ++ [l]).
Proof.
  intros H1 H2 H. apply in_app_or in H as [H | [H | []]]; [auto | congruence].
Qed.

(** The trace of a run from the start of the loop. *)
Lemma run_trace (s0 : session_state) (ls : list label) (w : world) :
  run (start_world s0) ls w ->
  trace_fits (thread_trace ls) (at_place w)
  /\ cycle_follows_test (thread_trace ls)
  /\ stop_ends_trace (thread_trace ls)
  /\ test_follows_wake (thread_trace ls).
Proof.
  remember (start_world s0) as w0 eqn:Hw0.
  induction 1 as [w|w0 ls w l w' Hrun IH Hstep].
  - subst w. simpl. split; [|split; [|split]].
    + split; [discriminate|]. split; [discriminate|].
      split; [intros _ []|]. intros _. now left.
    + intros i b H. discriminate.
    + intros i H. discriminate.
    + intros i b H. discriminate.
  - destruct IH as ((F1 & F2 & F3 & F4) & P1 & P2 & P3); [exact Hw0|].
    rewrite thread_trace_snoc.
    inversion Hstep as [w1 Hp|w1 Hp enabled|w1 Hp refused
                       |w1 env result s' Hp Hc|w1 env e s' Hp Hc
                       |w1 Hp|w1 n Hp|w1 u Hu]; subst; simpl.
    + (* the test of the stop event *)
      assert (N : ~ In (TestStop true) (thread_trace ls))
        by (apply F3; rewrite Hp; discriminate).
      split; [|split; [|split]].
      * destruct (stop_event (shared w)); repeat split; try discriminate; eauto.
        intros _. apply not_in_snoc; [exact N | discriminate].
      * apply cycle_follows_test_snoc; [exact P1 | discriminate].
      * apply stop_ends_trace_snoc; exact N.
      * apply test_follows_wake_snoc; [exact P3|]. intros _ _. now apply F4.
    + (* the test of the if statement *)
      assert (N : ~ In (TestStop true) (thread_trace ls))
        by (apply F3; rewrite Hp; discriminate).
      destruct (F1 Hp) as [tr' Htr'].
      split; [|split; [|split]].
      * destruct enabled; repeat split; try discriminate.
        -- intros _. exists tr'. rewrite Htr', <- app_assoc. reflexivity.
        -- intros _. apply not_in_snoc; [exact N | discriminate].
        -- intros _. apply not_in_snoc; [exact N | discriminate].
      * apply cycle_follows_test_snoc; [exact P1 | discriminate].
      * apply stop_ends_trace_snoc; exact N.
      * apply test_follows_wake_snoc; [exact P3 | discriminate].
    + (* the call of collect_data *)
      assert (N : ~ In (TestStop true) (thread_trace ls))
        by (apply F3; rewrite Hp; discriminate).
      split; [|split; [|split]].
      * destruct refused; repeat split; try discriminate;
          intros _; (apply not_in_snoc; [exact N | discriminate]).
      * apply cycle_follows_test_snoc; [exact P1|]. intros _ _. now apply F2.
      * apply stop_ends_trace_snoc; exact N.
      * apply test_follows_wake_snoc; [exact P3 | discriminate].
    + (* the return of collect_data *)
      assert (N : ~ In (TestStop true) (thread_trace ls))
        by (apply F3; rewrite Hp; discriminate).
      split; [|split; [|split]].
      * repeat split; try discriminate.
        intros _. apply not_in_snoc; [exact N | discriminate].
      * apply cycle_follows_test_snoc; [exact P1 | discriminate].
      * apply stop_ends_trace_snoc; exact N.
      * apply test_follows_wake_snoc; [exact P3 | discriminate].
    + (* an exception out of collect_data *)
      assert (N : ~ In (TestStop true) (thread_trace ls))
        by (apply F3; rewrite Hp; discriminate).
      split; [|split; [|split]].
      * repeat split; try discriminate.
        intros _. apply not_in_snoc; [exact N | discriminate].
      * apply cycle_follows_test_snoc; [exact P1 | discriminate].
      * apply stop_ends_trace_snoc; exact N.
      * apply test_follows_wake_snoc; [exact P3 | discriminate].
    + (* the call of time.sleep *)
      assert (N : ~ In (TestStop true) (thread_trace ls))
        by (apply F3; rewrite Hp; discriminate).
      split; [|split; [|split]].
      * repeat split; try discriminate.
        intros _. apply not_in_snoc; [exact N | discriminate].
      * apply cycle_follows_test_snoc; [exact P1 | discriminate].
      * apply stop_ends_trace_snoc; exact N.
      * apply test_follows_wake_snoc; [exact P3 | discriminate].
    + (* the end of the sleep *)
      assert (N : ~ In (TestStop true) (thread_trace ls))
        by (apply F3; rewrite Hp; discriminate).
      split; [|split; [|split]].
      * repeat split; try discriminate.
        -- intros _. apply not_in_snoc; [exact N | discriminate].
        -- intros _. right. eauto.
      * apply cycle_follows_test_snoc; [exact P1 | discriminate].
      * apply stop_ends_trace_snoc; exact N.
      * apply test_follows_wake_snoc; [exact P3 | discriminate].
    + (* a write of the user interface *)
      rewrite app_nil_r. repeat split; assumption.
Qed.

(** *** The cycle does not read the stop event *)








(** *** After the stop event is set *)

Lemma apply_write_keeps_stop (u : ui_write) (s : session_state) :
  u <> ClearStop -> stop_event s = true -> stop_event (apply_write u s) = true.
Proof. destruct u; simpl; intros; congruence. Qed.

(** While the stop event stays set, each step of the thread brings the
    exit nearer, and at most one sleep ends. *)
Lemma run_after_stop (w1 w2 : world) (ls : list label) :
  run w1 ls w2 ->
  stop_event (shared w1) = true ->
  ~ In (Ui ClearStop) ls ->
  stop_event (shared w2) = true
  /\ (length (thread_trace ls) + steps_to_exit (at_place w2)
      <= steps_to_exit (at_place w1))%nat
  /\ ((List.filter is_wake ls = []
       /\ slept w2 = slept w1
       /\ (sleeps_to_exit (at_place w2) <= sleeps_to_exit (at_place w1))%nat)
      \/ (exists n, List.filter is_wake ls = [Wake n]
                    /\ slept w2 = slept w1 + n
                    /\ sleeps_to_exit (at_place w2) = 0%nat
                    /\ sleeps_to_exit (at_place w1) = 1%nat)).
Proof.
  induction 1 as [w|w0 ls w l w' Hrun IH Hstep]; intros Hstop Hclear.
  - split; [exact Hstop|]. split; [simpl; lia|]. left. repeat split. lia.
  - assert (Hclear' : ~ In (Ui ClearStop) ls)
      by (intros H; apply Hclear, in_or_app; now left).
    assert (Hl : l <> Ui ClearStop)
      by (intros ->; apply Hclear, in_or_app; right; now left).
    destruct (IH Hstop Hclear') as (Hs & Hsteps & Hwakes). clear IH.
    rewrite thread_trace_snoc, List.filter_app, length_app.
    inversion Hstep as [w1 Hp|w1 Hp enabled|w1 Hp refused
                       |w1 env result s' Hp Hc|w1 env e s' Hp Hc
                       |w1 Hp|w1 n Hp|w1 u Hu]; subst; simpl;
      rewrite ?Hp in *; simpl in *.
    + (* the test of the stop event finds it set *)
      rewrite Hs. simpl. rewrite app_nil_r.
      split; [reflexivity|]. split; [lia|].
      destruct Hwakes as [(H1 & H2 & H3) | (n & H1 & H2 & H3 & H4)].
      * left. repeat split; auto; lia.
      * right. exists n. repeat split; auto.
    + rewrite app_nil_r. split; [exact Hs|].
      split; [destruct enabled; simpl; lia|].
      destruct Hwakes as [(H1 & H2 & H3) | (n & H1 & H2 & H3 & H4)]; [|lia].
      left. repeat split; auto; destruct enabled; simpl; lia.
    + rewrite app_nil_r. split; [exact Hs|].
      split; [destruct refused; simpl; lia|].
      destruct Hwakes as [(H1 & H2 & H3) | (n & H1 & H2 & H3 & H4)]; [|lia].
      left. repeat split; auto; destruct refused; simpl; lia.
    + destruct (collect_guarded_session _ _ _ _ Hc) as (_ & _ & Hk & _).
      rewrite app_nil_r. split; [congruence|]. split; [lia|].
      destruct Hwakes as [(H1 & H2 & H3) | (n & H1 & H2 & H3 & H4)]; [|lia].
      left. repeat split; auto.
    + destruct (collect_guarded_session _ _ _ _ Hc) as (_ & _ & Hk & _).
      rewrite app_nil_r. split; [congruence|]. split; [lia|].
      destruct Hwakes as [(H1 & H2 & H3) | (n & H1 & H2 & H3 & H4)]; [|lia].
      left. repeat split; auto; lia.
    + rewrite app_nil_r. split; [exact Hs|]. split; [lia|].
      destruct Hwakes as [(H1 & H2 & H3) | (n & H1 & H2 & H3 & H4)]; [|lia].
      left. repeat split; auto.
    + split; [exact Hs|]. split; [lia|].
      destruct Hwakes as [(H1 & H2 & H3) | (m & H1 & H2 & H3 & H4)]; [|lia].
      right. exists n. rewrite H1, H2. repeat split.
      destruct (at_place w0); simpl in *; try lia; reflexivity.
    + rewrite !app_nil_r.
      split; [apply apply_write_keeps_stop; [congruence | exact Hs]|].
      split; [lia | exact Hwakes].
Qed.

(** A thread that has neither left the loop nor died can take a step. *)
Lemma thread_can_step (w : world) :
  at_place w <> Exited -> at_place w <> Crashed ->
  exists l w', is_thread_label l = true /\ step w l w'.
Proof.
  intros H1 H2. destruct (at_place w) as [| | | | |n| |] eqn:Hp; try congruence.
  - eexists _, _. split; [|apply step_test_stop; exact Hp]. reflexivity.
  - eexists _, _. split; [|apply step_test_enabled; exact Hp]. reflexivity.
  - eexists _, _. split; [|apply step_enter_collect; exact Hp]. reflexivity.
  - set (env := {| get_active_connections := Raises "ConnectionError";
                   get_bandwidth_usage := Raises "ConnectionError";
                   get_traffic_by_ip := Raises "ConnectionError";
                   store_connections_fault := None;
                   store_bandwidth_fault := None;
                   store_traffic_fault := None;
                   now_store_connections := 0;
                   now_last_update := 0 |}).
    destruct (collect_guarded_returns env (shared w)) as (r & s' & E).
    eexists _, _. split; [|eapply step_leave_collect; [exact Hp | exact E]].
    reflexivity.
  - eexists _, _. split; [|apply step_start_sleep; exact Hp]. reflexivity.
  - eexists _, _. split; [|apply step_wake; exact Hp]. reflexivity.
Qed.

End LoopFacts.

(** *** Two runs *)

Section LoopRuns.

Import Py DataStore App.

(** The user disconnects while a cycle is in progress. *)
Lemma run_before_stop :
  run (start_world Examples.connected_session) Examples.labels_before_stop
    {| shared := set_stop_event true Examples.connected_session;
       at_place := InCycle; slept := 0 |}.
Proof.
  unfold Examples.labels_before_stop.
  eapply run_cons; [apply step_test_stop; reflexivity|].
  eapply run_cons; [apply step_test_enabled; reflexivity|].
  eapply run_cons; [apply step_enter_collect; reflexivity|].
  eapply run_cons; [apply (step_ui _ SetStop); exact I|].
  apply run_nil.
Qed.

Lemma cycle_of_example :
  collect_guarded Examples.full_cycle
    (set_stop_event true Examples.connected_session)
  = (Returns true, Examples.session_after_cycle).
Proof. vm_compute. reflexivity. Qed.

Lemma run_after_stop_example :
  run {| shared := set_stop_event true Examples.connected_session;
         at_place := InCycle; slept := 0 |}
    Examples.labels_after_stop
    {| shared := Examples.session_after_cycle; at_place := Exited; slept := 60 |}.
Proof.
  unfold Examples.labels_after_stop.
  eapply run_cons;
    [eapply step_leave_collect; [reflexivity | exact cycle_of_example]|].
  eapply run_cons; [apply step_start_sleep; reflexivity|].
  eapply run_cons; [apply step_wake; reflexivity|].
  eapply run_cons; [apply step_test_stop; reflexivity|].
  apply run_nil.
Qed.

(** The stop event is set as soon as a sleep has begun. *)
Lemma idle_run_before_stop :
  run (start_world Examples.idle_session) Examples.idle_labels_before_stop
    {| shared := set_stop_event true Examples.idle_session;
       at_place := Sleeping 60; slept := 0 |}.
Proof.
  unfold Examples.idle_labels_before_stop.
  eapply run_cons; [apply step_test_stop; reflexivity|].
  eapply run_cons; [apply step_test_enabled; reflexivity|].
  eapply run_cons; [apply step_start_sleep; reflexivity|].
  eapply run_cons; [apply (step_ui _ SetStop); exact I|].
  apply run_nil.
Qed.

Lemma idle_run_after_stop :
  run {| shared := set_stop_event true Examples.idle_session;
         at_place := Sleeping 60; slept := 0 |}
    Examples.idle_labels_after_stop
    {| shared := set_stop_event true Examples.idle_session;
       at_place := Exited; slept := 60 |}.
Proof.
  unfold Examples.idle_labels_after_stop.
  eapply run_cons; [apply step_wake; reflexivity|].
  eapply run_cons; [apply step_test_stop; reflexivity|].
  apply run_nil.
Qed.

End LoopRuns.



(** C8, as amended.  The loop reads the stop event in its loop test
    only: at the very start and right after each sleep, which is one
    uninterrupted [time.sleep] of the interval.  Once the stop event is
    set and not cleared, the thread takes at most six more steps and
    ends at most one more sleep before it leaves the loop, and as long
    as it has not left it can take a step. *)
Theorem stop_is_read_at_loop_test (s0 : App.session_state)
  (ls1 ls2 : list App.label) (w1 w2 : App.world) :
  App.run (App.start_world s0) ls1 w1 ->
  App.stop_event (App.shared w1) = true ->
  App.run w1 ls2 w2 ->
  ~ In (App.Ui App.ClearStop) ls2 ->
  App.test_follows_wake (App.thread_trace (ls1 ++ ls2))
  /\ (length (App.thread_trace ls2) + App.steps_to_exit (App.at_place w2)
      <= App.steps_to_exit (App.at_place w1))%nat
  /\ (length (App.thread_trace ls2) <= 6)%nat
  /\ (length (List.filter App.is_wake ls2) <= 1)%nat
  /\ (App.slept w2 = App.slept w1
      \/ exists n, In (App.Wake n) ls2 /\ App.slept w2 = App.slept w1 + n)
  /\ (App.at_place w2 <> App.Exited -> App.at_place w2 <> App.Crashed ->
      exists l w3, App.is_thread_label l = true /\ App.step w2 l w3).
Proof.
  intros Hrun1 Hstop Hrun2 Hclear.
  destruct (run_trace s0 (ls1 ++ ls2) w2 (run_app _ _ _ _ _ Hrun1 Hrun2))
    as (_ & _ & _ & P3).
  destruct (run_after_stop w1 w2 ls2 Hrun2 Hstop Hclear) as (_ & Hsteps & Hwakes).
  split; [exact P3|]. split; [exact Hsteps|].
  split.
  { assert (App.steps_to_exit (App.at_place w1) <= 6)%nat
      by (destruct (App.at_place w1); simpl; lia).
    lia. }
  split.
  { destruct Hwakes as [(H & _) | (n & H & _)]; rewrite H; simpl; lia. }
  split.
  { destruct Hwakes as [(_ & H & _) | (n & Hf & H & _)]; [now left|].
    right. exists n. split; [|exact H].
    assert (Hin : In (App.Wake n) (List.filter App.is_wake ls2))
      by (rewrite Hf; now left).
    now apply filter_In in Hin as [Hin _]. }
  apply thread_can_step.
Qed.

Lemma stop_is_read_at_loop_test_witness :
  App.test_follows_wake
    (App.thread_trace (Examples.labels_before_stop ++ Examples.labels_after_stop))
  /\ (length (App.thread_trace Examples.labels_after_stop) <= 6)%nat
  /\ (length (List.filter App.is_wake Examples.labels_after_stop) <= 1)%nat.
Proof.
  destruct (stop_is_read_at_loop_test Examples.connected_session
              Examples.labels_before_stop Examples.labels_after_stop
              {| App.shared := App.set_stop_event true Examples.connected_session;
                 App.at_place := App.InCycle; App.slept := 0 |}
              {| App.shared := Examples.session_after_cycle;
                 App.at_place := App.Exited; App.slept := 60 |}
              run_before_stop eq_refl run_after_stop_example)
    as (H1 & _ & H3 & H4 & _).
  - unfold Examples.labels_after_stop.
    intros [H | [H | [H | [H | []]]]]; discriminate.
  - split; [exact H1|]. split; [exact H3 | exact H4].
Defined.

(** C8 as stated does not hold: the stop event is not read between the
    test of the [if] statement and the sleep, and when it is set as soon
    as a sleep of 60 seconds has begun, the loop is left only after the
    whole 60 seconds. *)
Lemma stop_is_read_at_loop_test_counterexample :
  ~ App.stop_checked_around_sleep /\ ~ App.exits_promptly.
Proof.
  split.
  - intros H.
    destruct (H Examples.idle_session Examples.idle_labels_before_stop _
                idle_run_before_stop 1%nat 60 eq_refl) as [b Hb].
    discriminate.
  - intros H.
    pose proof (H Examples.idle_session Examples.idle_labels_before_stop _
                  Examples.idle_labels_after_stop _
                  idle_run_before_stop eq_refl idle_run_after_stop eq_refl) as Hlt.
    simpl in Hlt. lia.
Qed.

(** ** Timestamps: the order of instants and the order of their texts *)

Section TextFacts.

Lemma compare_app (a b s t : string) :
  String.length a = String.length b ->
  String.compare (a ++ s) (b ++ t)
  = Calendar.lexicographic (String.compare a b) (String.compare s t).
Proof.
  revert b. induction a as [|c a IH]; intros [|c' b] Hlen; try discriminate.
  - rewrite !append_nil_l. reflexivity.
  - rewrite !append_cons. simpl. destruct (Ascii.compare c c'); try reflexivity.
    apply IH. simpl in Hlen. lia.
Qed.

Lemma length_append (a b : string) :
  String.length (a ++ b) = (String.length a + String.length b)%nat.
Proof.
  induction a as [|c a IH]; [rewrite append_nil_l; reflexivity|].
  rewrite append_cons. simpl. rewrite IH. reflexivity.
Qed.

End TextFacts.

(** *** Numbers written with a fixed number of digits *)

Section DigitFacts.

Import DateTime Calendar.

Lemma pretty_N_go_app (x : N) (s : string) :
  pretty_N_go x s = (pretty_N_go x "" ++ s)%string.
Proof.
  revert s. induction (N.lt_wf_0 x) as [x _ IH]. intros s.
  destruct (N.eq_dec x 0%N) as [->|Hx].
  - rewrite !pretty_N_go_0, append_nil_l. reflexivity.
  - assert (Hpos : (0 < x)%N) by lia.
    rewrite !(pretty_N_go_step x) by exact Hpos.
    assert (Hlt : (x `div` 10 < x)%N) by (apply N.div_lt; lia).
    rewrite (IH _ Hlt (String _ s)), (IH _ Hlt (String _ "")).
    rewrite append_assoc, append_cons, append_nil_l. reflexivity.
Qed.

Lemma pretty_N_go_snoc (x : N) :
  (0 < x)%N ->
  pretty_N_go x ""
  = (pretty_N_go (x `div` 10) "" ++ String (pretty_N_char (x `mod` 10)) "")%string.
Proof.
  intros Hpos. rewrite pretty_N_go_step by exact Hpos. apply pretty_N_go_app.
Qed.

Lemma zeros_snoc (n : nat) : (zeros n ++ "0")%string = zeros (S n).
Proof.
  induction n as [|n IH]; [reflexivity|].
  simpl. rewrite append_cons. f_equal. exact IH.
Qed.

Lemma fixed_width_zeros (w : nat) : fixed_width w 0 = zeros w.
Proof.
  induction w as [|w IH]; [reflexivity|].
  cbn [fixed_width]. change (0 / 10) with 0. rewrite IH.
  change (digit_char (0 mod 10)) with "0"%char. apply zeros_snoc.
Qed.

Lemma fixed_width_length (w : nat) (z : Z) : String.length (fixed_width w z) = w.
Proof.
  revert z. induction w as [|w IH]; intros z; [reflexivity|].
  cbn [fixed_width]. rewrite length_append, IH. simpl. lia.
Qed.

(** The digits of a positive number, padded to the width [w]. *)
Lemma padded_digits (w : nat) (x : N) :
  (x < 10 ^ N.of_nat w)%N ->
  (String.length (pretty_N_go x "") <= w)%nat
  /\ (zeros (w - String.length (pretty_N_go x "")) ++ pretty_N_go x "")%string
     = fixed_width w (Z.of_N x).
Proof.
  revert x. induction w as [|w IH]; intros x Hx.
  - assert (x = 0%N) as -> by (simpl in Hx; lia). split; reflexivity.
  - destruct (N.eq_dec x 0%N) as [->|Hne].
    + rewrite pretty_N_go_0. split; [simpl; lia|].
      change (Z.of_N 0) with 0. rewrite fixed_width_zeros.
      rewrite Nat.sub_0_r. apply append_nil_r.
    + assert (Hpos : (0 < x)%N) by lia.
      assert (Hdiv : (x `div` 10 < 10 ^ N.of_nat w)%N).
      { apply N.Div0.div_lt_upper_bound.
        replace (N.of_nat (S w)) with (N.succ (N.of_nat w)) in Hx by lia.
        rewrite N.pow_succ_r' in Hx. exact Hx. }
      destruct (IH _ Hdiv) as [Hlen Heq].
      rewrite (pretty_N_go_snoc x Hpos). rewrite length_append. simpl String.length.
      split; [lia|].
      replace (S w - (String.length (pretty_N_go (x `div` 10) "") + 1))%nat
        with (w - String.length (pretty_N_go (x `div` 10) ""))%nat by lia.
      rewrite <- append_assoc, Heq. cbn [fixed_width].
      replace (Z.of_N x / 10) with (Z.of_N (x `div` 10))
        by (rewrite N2Z.inj_div; reflexivity).
      replace (Z.of_N x mod 10) with (Z.of_N (x `mod` 10))
        by (rewrite N2Z.inj_mod; reflexivity).
      unfold digit_char. rewrite N2Z.id. reflexivity.
Qed.

(** [%0wd] prints the last [w] digits of a number that has no more. *)
Lemma zero_padded_fixed_width (w : nat) (z : Z) :
  0 <= z < 10 ^ Z.of_nat (S w) ->
  zero_padded (S w) z = fixed_width (S w) z.
Proof.
  intros Hz. unfold zero_padded.
  destruct z as [|p|p]; [| |lia].
  - change (pretty 0) with "0". rewrite fixed_width_zeros.
    simpl String.length. replace (S w - 1)%nat with w by lia. apply zeros_snoc.
  - change (pretty (Z.pos p)) with (pretty_N_go (N.pos p) "").
    apply (padded_digits (S w) (N.pos p)).
    apply N2Z.inj_lt. rewrite N2Z.inj_pow. rewrite nat_N_Z. exact (proj2 Hz).
Qed.

Lemma digit_char_compare (a b : Z) :
  0 <= a < 10 -> 0 <= b < 10 ->
  Ascii.compare (digit_char a) (digit_char b) = (a ?= b).
Proof.
  intros Ha Hb.
  assert (a = 0 \/ a = 1 \/ a = 2 \/ a = 3 \/ a = 4 \/ a = 5 \/ a = 6 \/ a = 7
          \/ a = 8 \/ a = 9) as Ha' by lia.
  assert (b = 0 \/ b = 1 \/ b = 2 \/ b = 3 \/ b = 4 \/ b = 5 \/ b = 6 \/ b = 7
          \/ b = 8 \/ b = 9) as Hb' by lia.
  repeat (destruct Ha' as [->|Ha']); try subst a;
    repeat (destruct Hb' as [->|Hb']); try subst b; reflexivity.
Qed.

Lemma compare_tens (x y : Z) :
  (x ?= y) = lexicographic (x / 10 ?= y / 10) (x mod 10 ?= y mod 10).
Proof.
  pose proof (Z.div_mod x 10 ltac:(lia)) as Hx.
  pose proof (Z.div_mod y 10 ltac:(lia)) as Hy.
  pose proof (Z.mod_pos_bound x 10 ltac:(lia)) as Hxb.
  pose proof (Z.mod_pos_bound y 10 ltac:(lia)) as Hyb.
  unfold lexicographic.
  destruct (Z.compare_spec (x / 10) (y / 10)) as [He|Hl|Hg].
  - destruct (Z.compare_spec (x mod 10) (y mod 10)).
    + apply Z.compare_eq_iff. lia.
    + apply Z.compare_lt_iff. lia.
    + apply Z.compare_gt_iff. lia.
  - apply Z.compare_lt_iff. lia.
  - apply Z.compare_gt_iff. lia.
Qed.

(** Numbers of the same width compare as their texts do. *)
Lemma fixed_width_compare (w : nat) (x y : Z) :
  String.compare (fixed_width w x) (fixed_width w y)
  = (x mod 10 ^ Z.of_nat w ?= y mod 10 ^ Z.of_nat w).
Proof.
  revert x y. induction w as [|w IH]; intros x y.
  - simpl. rewrite !Z.mod_1_r. reflexivity.
  - cbn [fixed_width]. rewrite compare_app by (rewrite !fixed_width_length; reflexivity).
    rewrite IH. simpl String.compare.
    rewrite digit_char_compare by (apply Z.mod_pos_bound; lia).
    replace (match x mod 10 ?= y mod 10 with Eq => Eq | c => c end)
      with (x mod 10 ?= y mod 10) by (destruct (x mod 10 ?= y mod 10); reflexivity).
    rewrite (compare_tens (x mod 10 ^ Z.of_nat (S w))).
    replace (Z.of_nat (S w)) with (Z.succ (Z.of_nat w)) by lia.
    rewrite Z.pow_succ_r by lia.
    assert (Hp : 0 < 10 ^ Z.of_nat w) by (apply Z.pow_pos_nonneg; lia).
    assert (Hd : forall v, v mod (10 * 10 ^ Z.of_nat w) / 10 = (v / 10) mod 10 ^ Z.of_nat w).
    { intros v. rewrite Z.rem_mul_r by lia.
      rewrite Z.mul_comm, Z.div_add by lia.
      rewrite (Z.div_small (v mod 10) 10) by (apply Z.mod_pos_bound; lia). lia. }
    assert (Hm : forall v, (v mod (10 * 10 ^ Z.of_nat w)) mod 10 = v mod 10).
    { intros v. rewrite Z.rem_mul_r by lia.
      rewrite Z.mul_comm, Z.mod_add by lia. apply Z.mod_mod. lia. }
    rewrite !Hd, !Hm. reflexivity.
Qed.

Lemma zero_padded_compare (w : nat) (x y : Z) :
  0 <= x < 10 ^ Z.of_nat (S w) -> 0 <= y < 10 ^ Z.of_nat (S w) ->
  String.compare (zero_padded (S w) x) (zero_padded (S w) y) = (x ?= y).
Proof.
  intros Hx Hy. rewrite !zero_padded_fixed_width by assumption.
  rewrite fixed_width_compare. rewrite !Z.mod_small by assumption. reflexivity.
Qed.

Lemma zero_padded_length (w : nat) (x : Z) :
  0 <= x < 10 ^ Z.of_nat (S w) -> String.length (zero_padded (S w) x) = S w.
Proof.
  intros Hx. rewrite zero_padded_fixed_width by assumption. apply fixed_width_length.
Qed.

End DigitFacts.

(** *** The calendar *)

Section CalendarFacts.

Import DateTime Calendar.

Lemma all_below_spec (k : nat) (p : Z -> bool) :
  all_below k p = true -> forall r, 0 <= r < Z.of_nat k -> p r = true.
Proof.
  induction k as [|k IH]; intros Hall r Hr; [lia|].
  cbn [all_below] in Hall. apply andb_true_iff in Hall as [Hk Hall].
  destruct (Z.eq_dec r (Z.of_nat k)) as [->|Hne]; [exact Hk|].
  apply IH; [exact Hall|lia].
Qed.

Lemma year_in_order_holds (leapyear : bool) : year_in_order leapyear = true.
Proof. destruct leapyear; vm_compute; reflexivity. Qed.

Lemma month_day_facts (leapyear : bool) (r : Z) :
  0 <= r <= 364 ->
  (1 <= fst (month_day r leapyear) <= 12
   /\ 1 <= snd (month_day r leapyear) <= 31)
  /\ (r < 364 ->
      day_number (month_day r leapyear) < day_number (month_day (r + 1) leapyear))
  /\ (leapyear = true ->
      day_number (month_day r leapyear) < day_number (12, 31)).
Proof.
  intros Hr.
  pose proof (all_below_spec 365 _ (year_in_order_holds leapyear) r ltac:(lia)) as H.
  cbv beta in H. unfold month_day_in_range in H.
  apply andb_true_iff in H as [H Hlast].
  apply andb_true_iff in H as [H Hnext].
  repeat (apply andb_true_iff in H as [H ?]).
  repeat split; try lia.
  intros ->. cbn [negb orb] in Hlast. lia.
Qed.

Lemma day_number_increases (leapyear : bool) (k : nat) (r : Z) :
  0 <= r -> r + 1 + Z.of_nat k <= 364 ->
  day_number (month_day r leapyear)
  < day_number (month_day (r + 1 + Z.of_nat k) leapyear).
Proof.
  intros Hr. induction k as [|k IH]; intros Hle.
  - replace (r + 1 + Z.of_nat 0) with (r + 1) by lia.
    apply month_day_facts; lia.
  - etransitivity; [apply IH; lia|].
    replace (r + 1 + Z.of_nat (S k)) with (r + 1 + Z.of_nat k + 1) by lia.
    apply month_day_facts; lia.
Qed.

Lemma day_number_mono (leapyear : bool) (r r' : Z) :
  0 <= r -> r < r' -> r' <= 364 ->
  day_number (month_day r leapyear) < day_number (month_day r' leapyear).
Proof.
  intros Hr Hlt Hle.
  replace r' with (r + 1 + Z.of_nat (Z.to_nat (r' - r - 1))) by lia.
  apply day_number_increases; lia.
Qed.

Lemma ord2ymd_eq (n : Z) :
  ord2ymd (n + 1)
  = let md := if last_of_cycle n then (12, 31)
              else month_day (left_over n) (leap_year n) in
    (year_of n, fst md, snd md).
Proof.
  unfold ord2ymd, year_of, last_of_cycle, leap_year, left_over, n1, n4, n100, n400,
    month_day.
  replace (n + 1 - 1) with n by lia. cbv zeta.
  destruct ((n mod 146097 mod 36524 mod 1461 / 365 =? 4)
            || (n mod 146097 / 36524 =? 4)).
  - cbn [fst snd]. rewrite !pair_equal_spec. repeat split; lia.
  - match goal with |- context [if ?b then (_, _, _) else _] => destruct b end;
      cbn [fst snd]; rewrite !pair_equal_spec; repeat split; lia.
Qed.

Lemma year_day_mono (n n' : Z) :
  0 <= n -> n < n' ->
  year_of n < year_of n'
  \/ (year_of n = year_of n' /\ day_of_year n < day_of_year n').
Proof.
  intros H0 Hlt.
  unfold year_of, day_of_year, last_of_cycle, left_over, n1, n4, n100, n400.
  destruct (Z.eqb_spec (n mod 146097 mod 36524 mod 1461 / 365) 4);
  destruct (Z.eqb_spec (n mod 146097 / 36524) 4);
  destruct (Z.eqb_spec (n' mod 146097 mod 36524 mod 1461 / 365) 4);
  destruct (Z.eqb_spec (n' mod 146097 / 36524) 4); cbn [orb];
  Z.to_euclidean_division_equations; lia.
Qed.

Lemma same_year_cycles (n n' : Z) :
  0 <= n -> 0 <= n' ->
  year_of n = year_of n' ->
  last_of_cycle n = false -> last_of_cycle n' = false ->
  n100 n = n100 n' /\ n4 n = n4 n' /\ n1 n = n1 n'.
Proof.
  unfold year_of, last_of_cycle, n1, n4, n100, n400.
  intros H0 H0'.
  destruct (Z.eqb_spec (n mod 146097 mod 36524 mod 1461 / 365) 4);
  destruct (Z.eqb_spec (n mod 146097 / 36524) 4);
  destruct (Z.eqb_spec (n' mod 146097 mod 36524 mod 1461 / 365) 4);
  destruct (Z.eqb_spec (n' mod 146097 / 36524) 4); cbn [orb];
  intros Hy Hs Hs'; try discriminate;
  Z.to_euclidean_division_equations; lia.
Qed.

Lemma year_before_last_day (n n' : Z) :
  0 <= n -> 0 <= n' ->
  year_of n = year_of n' ->
  last_of_cycle n = false -> last_of_cycle n' = true ->
  n1 n = 3 /\ (n4 n <> 24 \/ n100 n = 3).
Proof.
  unfold year_of, last_of_cycle, n1, n4, n100, n400.
  intros H0 H0'.
  destruct (Z.eqb_spec (n mod 146097 mod 36524 mod 1461 / 365) 4);
  destruct (Z.eqb_spec (n mod 146097 / 36524) 4);
  destruct (Z.eqb_spec (n' mod 146097 mod 36524 mod 1461 / 365) 4);
  destruct (Z.eqb_spec (n' mod 146097 / 36524) 4); cbn [orb];
  intros Hy Hs Hs'; try discriminate;
  Z.to_euclidean_division_equations; lia.
Qed.

End CalendarFacts.

Section OrderFacts.

Import DateTime Calendar.

Lemma day_number_compare (a b : Z * Z) :
  1 <= snd a <= 31 -> 1 <= snd b <= 31 ->
  day_number a < day_number b ->
  lexicographic (fst a ?= fst b) (snd a ?= snd b) = Lt.
Proof.
  unfold day_number, lexicographic. intros Ha Hb Hlt.
  destruct (Z.compare_spec (fst a) (fst b)); [|reflexivity|lia].
  apply Z.compare_lt_iff. lia.
Qed.

Lemma left_over_range (n : Z) : 0 <= left_over n <= 364.
Proof.
  unfold left_over.
  pose proof (Z.mod_pos_bound (n mod 146097 mod 36524 mod 1461) 365 ltac:(lia)). lia.
Qed.

(** Later days have later dates. *)
Lemma ord2ymd_lt (n n' : Z) :
  0 <= n -> n < n' ->
  date_compare (ord2ymd (n + 1)) (ord2ymd (n' + 1)) = Lt.
Proof.
  intros H0 Hlt. rewrite !ord2ymd_eq. cbv zeta. unfold date_compare.
  pose proof (left_over_range n) as Hr. pose proof (left_over_range n') as Hr'.
  destruct (year_day_mono n n' H0 Hlt) as [Hy|[Hy Hd]].
  - apply Z.compare_lt_iff in Hy. rewrite Hy. reflexivity.
  - rewrite Hy, Z.compare_refl. cbn [lexicographic]. unfold day_of_year in Hd.
    destruct (last_of_cycle n) eqn:Hs, (last_of_cycle n') eqn:Hs'; try lia.
    + destruct (year_before_last_day n n' H0 ltac:(lia) Hy Hs Hs') as [H1 H4].
      assert (Hleap : leap_year n = true).
      { unfold leap_year. rewrite H1. cbn [Z.eqb Pos.eqb andb].
        destruct H4 as [H4|H4].
        - apply Z.eqb_neq in H4. rewrite H4. reflexivity.
        - rewrite H4. cbn. apply orb_true_r. }
      rewrite Hleap.
      destruct (month_day_facts true (left_over n) Hr) as [[_ Hday] [_ Hlast]].
      apply (day_number_compare (month_day (left_over n) true) (12, 31));
        [exact Hday|cbn; lia|exact (Hlast eq_refl)].
    + destruct (same_year_cycles n n' H0 ltac:(lia) Hy Hs Hs') as [H100 [H4 H1]].
      assert (Hleap : leap_year n' = leap_year n).
      { unfold leap_year. rewrite H100, H4, H1. reflexivity. }
      rewrite Hleap.
      destruct (month_day_facts (leap_year n) (left_over n) Hr) as [[_ Hday] _].
      destruct (month_day_facts (leap_year n) (left_over n') Hr') as [[_ Hday'] _].
      apply (day_number_compare _ _ Hday Hday').
      apply day_number_mono; lia.
Qed.

Lemma ord2ymd_range (n : Z) :
  0 <= n -> n < max_ordinal ->
  1 <= fst (fst (ord2ymd (n + 1))) <= 9999
  /\ 1 <= snd (fst (ord2ymd (n + 1))) <= 12
  /\ 1 <= snd (ord2ymd (n + 1)) <= 31.
Proof.
  intros H0 Hmax. rewrite ord2ymd_eq. cbv zeta. cbn [fst snd].
  split.
  - revert Hmax. unfold max_ordinal, year_of, last_of_cycle, n1, n4, n100, n400.
    destruct (Z.eqb_spec (n mod 146097 mod 36524 mod 1461 / 365) 4);
    destruct (Z.eqb_spec (n mod 146097 / 36524) 4); cbn [orb]; intros Hmax;
    Z.to_euclidean_division_equations; lia.
  - destruct (last_of_cycle n); [cbn; lia|].
    destruct (month_day_facts (leap_year n) (left_over n) (left_over_range n))
      as [[Hm Hd] _]. lia.
Qed.

End OrderFacts.

Section IsoformatFacts.

Import DateTime Calendar.

Lemma lex_divmod (k n n' : Z) :
  0 < k -> n < n' ->
  n / k < n' / k \/ (n / k = n' / k /\ n mod k < n' mod k).
Proof.
  intros Hk Hlt.
  pose proof (Z.div_mod n k ltac:(lia)). pose proof (Z.div_mod n' k ltac:(lia)).
  pose proof (Z.mod_pos_bound n k Hk). pose proof (Z.mod_pos_bound n' k Hk).
  nia.
Qed.

(** Later times of the day have later fields. *)
Lemma time_of_day_lt (r r' : Z) :
  0 <= r -> r < r' ->
  lexicographic (r / usec_per_hour ?= r' / usec_per_hour)
    (lexicographic
       (r mod usec_per_hour / (60 * usec_per_second)
        ?= r' mod usec_per_hour / (60 * usec_per_second))
       (lexicographic
          (r mod (60 * usec_per_second) / usec_per_second
           ?= r' mod (60 * usec_per_second) / usec_per_second)
          (r mod usec_per_second ?= r' mod usec_per_second))) = Lt.
Proof.
  intros H0 Hlt. unfold usec_per_hour, usec_per_second.
  change (3600 * 1000000) with 3600000000. change (60 * 1000000) with 60000000.
  destruct (Z.compare_spec (r / 3600000000) (r' / 3600000000));
    cbn [lexicographic]; [|reflexivity|exfalso; Z.to_euclidean_division_equations; lia].
  destruct (Z.compare_spec (r mod 3600000000 / 60000000) (r' mod 3600000000 / 60000000));
    cbn [lexicographic]; [|reflexivity|exfalso; Z.to_euclidean_division_equations; lia].
  destruct (Z.compare_spec (r mod 60000000 / 1000000) (r' mod 60000000 / 1000000));
    cbn [lexicographic]; [|reflexivity|exfalso; Z.to_euclidean_division_equations; lia].
  apply Z.compare_lt_iff. Z.to_euclidean_division_equations; lia.
Qed.

(** Later instants have later fields. *)
Lemma fields_of_lt (t1 t2 : datetime) :
  0 <= t1 -> t1 < t2 -> fields_compare (fields_of t1) (fields_of t2) = Lt.
Proof.
  intros H0 Hlt. unfold fields_of.
  assert (Hday : 0 < usec_per_day) by (vm_compute; reflexivity).
  assert (Hn : 0 <= t1 / usec_per_day) by (apply Z.div_pos; lia).
  destruct (lex_divmod usec_per_day t1 t2 Hday Hlt) as [Hd|[Hd Hr]].
  - pose proof (ord2ymd_lt _ _ Hn Hd) as Hdate.
    destruct (ord2ymd (t1 / usec_per_day + 1)) as [[y m] d].
    destruct (ord2ymd (t2 / usec_per_day + 1)) as [[y' m'] d'].
    unfold date_compare in Hdate. unfold fields_compare.
    cbn [year month day hour minute second microsecond].
    destruct (y ?= y'), (m ?= m'), (d ?= d'); cbn [lexicographic] in *;
      congruence.
  - rewrite <- Hd.
    destruct (ord2ymd (t1 / usec_per_day + 1)) as [[y m] d].
    unfold fields_compare. cbn [year month day hour minute second microsecond].
    rewrite !Z.compare_refl. cbn [lexicographic].
    apply time_of_day_lt; [|exact Hr].
    apply Z.mod_pos_bound. exact Hday.
Qed.

Lemma fields_of_range (t : datetime) :
  representable t = true -> fields_in_range (fields_of t).
Proof.
  unfold representable. intros Ht.
  apply andb_true_iff in Ht as [Hlo Hhi].
  apply Z.leb_le in Hlo. apply Z.ltb_lt in Hhi.
  assert (Hday : 0 < usec_per_day) by (vm_compute; reflexivity).
  assert (Hn : 0 <= t / usec_per_day) by (apply Z.div_pos; lia).
  assert (Hm : t / usec_per_day < max_ordinal)
    by (apply Z.div_lt_upper_bound; lia).
  pose proof (ord2ymd_range _ Hn Hm) as Hdate.
  unfold fields_of, fields_in_range.
  destruct (ord2ymd (t / usec_per_day + 1)) as [[y m] d].
  cbn [fst snd] in Hdate. cbn [year month day hour minute second microsecond].
  pose proof (Z.mod_pos_bound t usec_per_day Hday) as Hr.
  revert Hr. generalize (t mod usec_per_day). intros r Hr.
  unfold usec_per_day, usec_per_hour, usec_per_second in *.
  change (24 * (3600 * 1000000)) with 86400000000 in Hr.
  change (3600 * 1000000) with 3600000000. change (60 * 1000000) with 60000000.
  repeat split; try lia; Z.to_euclidean_division_equations; lia.
Qed.

Lemma isoformat_render (t : datetime) : isoformat t = render (fields_of t).
Proof.
  unfold isoformat, fields_of.
  destruct (ord2ymd (t / usec_per_day + 1)) as [[y m] d]. reflexivity.
Qed.

Lemma compare_same_head (c : ascii) (s t : string) :
  String.compare (String c s) (String c t) = String.compare s t.
Proof.
  simpl. replace (Ascii.compare c c) with Eq; [reflexivity|].
  symmetry. unfold Ascii.compare. apply N.compare_refl.
Qed.

Lemma padded_field_compare (w : nat) (x y : Z) (s t : string) :
  0 <= x < 10 ^ Z.of_nat (S w) -> 0 <= y < 10 ^ Z.of_nat (S w) ->
  String.compare (zero_padded (S w) x ++ s) (zero_padded (S w) y ++ t)
  = lexicographic (x ?= y) (String.compare s t).
Proof.
  intros Hx Hy. rewrite compare_app by (rewrite !zero_padded_length; auto).
  rewrite zero_padded_compare by assumption. reflexivity.
Qed.

Lemma fraction_compare (x y : Z) :
  0 <= x < 1000000 -> 0 <= y < 1000000 ->
  String.compare (if (x =? 0)%Z then "" else "." ++ zero_padded 6 x)%string
                 (if (y =? 0)%Z then "" else "." ++ zero_padded 6 y)%string
  = (x ?= y).
Proof.
  intros Hx Hy.
  destruct (Z.eqb_spec x 0) as [->|Hx0], (Z.eqb_spec y 0) as [->|Hy0].
  - reflexivity.
  - rewrite append_cons. symmetry. apply Z.compare_lt_iff. lia.
  - rewrite append_cons. symmetry. apply Z.compare_gt_iff. lia.
  - rewrite !append_cons, !append_nil_l, compare_same_head.
    apply zero_padded_compare; change (10 ^ Z.of_nat 6) with 1000000; lia.
Qed.

(** The texts of two instants compare as their fields do. *)
Lemma render_compare (f g : fields) :
  fields_in_range f -> fields_in_range g ->
  String.compare (render f) (render g) = fields_compare f g.
Proof.
  intros (Hy & Hm & Hd & Hh & Hmi & Hs & Hu) (Hy' & Hm' & Hd' & Hh' & Hmi' & Hs' & Hu').
  unfold render, fields_compare.
  rewrite padded_field_compare by (change (10 ^ Z.of_nat 4) with 10000; lia).
  f_equal. rewrite ?append_cons, ?append_nil_l, compare_same_head.
  rewrite padded_field_compare by (change (10 ^ Z.of_nat 2) with 100; lia).
  f_equal. rewrite ?append_cons, ?append_nil_l, compare_same_head.
  rewrite padded_field_compare by (change (10 ^ Z.of_nat 2) with 100; lia).
  f_equal. rewrite ?append_cons, ?append_nil_l, compare_same_head.
  rewrite padded_field_compare by (change (10 ^ Z.of_nat 2) with 100; lia).
  f_equal. rewrite ?append_cons, ?append_nil_l, compare_same_head.
  rewrite padded_field_compare by (change (10 ^ Z.of_nat 2) with 100; lia).
  f_equal. rewrite ?append_cons, ?append_nil_l, compare_same_head.
  rewrite padded_field_compare by (change (10 ^ Z.of_nat 2) with 100; lia).
  f_equal. apply fraction_compare; assumption.
Qed.

Lemma isoformat_lt (t1 t2 : datetime) :
  representable t1 = true -> representable t2 = true -> t1 < t2 ->
  String.compare (isoformat t1) (isoformat t2) = Lt.
Proof.
  intros H1 H2 Hlt. rewrite !isoformat_render.
  rewrite render_compare by (apply fields_of_range; assumption).
  apply fields_of_lt; [|exact Hlt].
  unfold representable in H1. apply andb_true_iff in H1 as [H1 _].
  apply Z.leb_le. exact H1.
Qed.

(** The texts of two instants compare as the instants do. *)
Lemma isoformat_compare (t1 t2 : datetime) :
  representable t1 = true -> representable t2 = true ->
  String.compare (isoformat t1) (isoformat t2) = (t1 ?= t2).
Proof.
  intros H1 H2. destruct (Z.compare_spec t1 t2) as [->|Hlt|Hgt].
  - apply compare_refl.
  - apply isoformat_lt; assumption.
  - rewrite String.compare_antisym, (isoformat_lt t2 t1) by assumption. reflexivity.
Qed.

Lemma isoformat_text_le (t1 t2 : datetime) :
  representable t1 = true -> representable t2 = true ->
  Sqlite.text_le (isoformat t1) (isoformat t2) = (t1 <=? t2).
Proof.
  intros H1 H2. unfold Sqlite.text_le, String.leb, Z.leb.
  rewrite isoformat_compare by assumption. reflexivity.
Qed.

End IsoformatFacts.

(** X1.  The store keeps instants as the texts of [isoformat] and
    compares them as texts.  For two instants of the years 1 to 9999 the
    order of the texts is the order of the instants, with or without a
    fraction of a second, and different instants have different texts. *)
Theorem timestamps_order_as_instants (t1 t2 : DateTime.datetime) :
  DateTime.representable t1 = true ->
  DateTime.representable t2 = true ->
  (Sqlite.text_le (DateTime.isoformat t1) (DateTime.isoformat t2) = true
   <-> t1 <= t2)
  /\ (DateTime.isoformat t1 = DateTime.isoformat t2 <-> t1 = t2).
Proof.
  intros H1 H2. split.
  - rewrite isoformat_text_le by assumption. apply Z.leb_le.
  - split; [|intros ->; reflexivity].
    intros Heq. apply Z.compare_eq.
    rewrite <- (isoformat_compare t1 t2 H1 H2), Heq. apply compare_refl.
Qed.

Lemma timestamps_order_as_instants_witness :
  (Sqlite.text_le (DateTime.isoformat Examples.noon)
     (DateTime.isoformat (Examples.noon + 1)) = true
   <-> Examples.noon <= Examples.noon + 1)
  /\ (DateTime.isoformat Examples.noon = DateTime.isoformat (Examples.noon + 1)
      <-> Examples.noon = Examples.noon + 1).
Proof.
  apply (timestamps_order_as_instants Examples.noon (Examples.noon + 1));
    reflexivity.
Defined.

(** ** The store: what a write does to the database *)

Section WriteFacts.

Import Py Sqlite DataStore StoreNotions.

(** A loop that ends without an exception has run its body on every
    element without one. *)
Lemma for_each_returns {A T : Type} (body : A -> T -> outcome T) (P : A -> Prop) :
  (forall a t t', body a t = Returns t' -> P a) ->
  forall l t t', for_each body l t = Returns t' -> Forall P l.
Proof.
  intros Hbody l. induction l as [|a l IH]; intros t t' H; [constructor|].
  simpl in H. destruct (body a t) as [t1|e] eqn:E; [|discriminate].
  simpl in H. constructor; [eapply Hbody; exact E | eapply IH; exact H].
Qed.

Lemma bind_integer_returns (z z' : Z) :
  bind_integer z = Returns z' -> fits_int64 z = true.
Proof. unfold bind_integer. destruct (fits_int64 z); [reflexivity|discriminate]. Qed.

Lemma insert_ip_traffic_returns (data : traffic_record)
  (table table' : list ip_traffic_row) :
  insert_ip_traffic data table = Returns table' -> record_fits data.
Proof.
  unfold insert_ip_traffic, record_fits, bind_integer.
  destruct (fits_int64 (tr_tx_bytes data)); [|discriminate].
  destruct (fits_int64 (tr_rx_bytes data)); [|discriminate].
  destruct (fits_int64 (tr_total_bytes data)); [|discriminate].
  destruct (fits_int64 (tr_connections data)); [|discriminate].
  auto.
Qed.

Lemma insert_bandwidth_usage_returns (item : string * interface_counters)
  (table table' : list bandwidth_usage_row) :
  insert_bandwidth_usage item table = Returns table' -> counters_fit item.
Proof.
  destruct item as [interface data].
  unfold insert_bandwidth_usage, counters_fit, bind_integer. cbn [snd].
  destruct (fits_int64 (ic_tx_bytes data)); [|discriminate].
  destruct (fits_int64 (ic_rx_bytes data)); [|discriminate].
  destruct (fits_int64 (ic_tx_packets data)); [|discriminate].
  destruct (fits_int64 (ic_rx_packets data)); [|discriminate].
  auto.
Qed.

(** One [INSERT] appends one row that holds the item. *)
Lemma insert_bandwidth_usage_item (item : string * interface_counters)
  (table : list bandwidth_usage_row) :
  counters_fit item ->
  exists row,
    insert_bandwidth_usage item table = Returns (table ++ [row])%list
    /\ item_of_row row = item.
Proof.
  destruct item as [interface data]. intros (H1 & H2 & H3 & H4). simpl in *.
  unfold insert_bandwidth_usage.
  rewrite !bind_integer_fits by assumption. simpl.
  eexists. split; [reflexivity|]. destruct data; reflexivity.
Qed.

Lemma for_each_insert_bandwidth_items (items : list (string * interface_counters))
  (table : list bandwidth_usage_row) :
  Forall counters_fit items ->
  exists new_rows,
    for_each insert_bandwidth_usage items table = Returns (table ++ new_rows)%list
    /\ map item_of_row new_rows = items.
Proof.
  intros H. revert table. induction H as [|item items Hi _ IH]; intros table.
  - exists []. simpl. now rewrite app_nil_r.
  - destruct (insert_bandwidth_usage_item item table Hi) as (row & E & Hrow).
    destruct (IH (table ++ [row])%list) as (rest & E' & Hrest).
    exists (row :: rest). simpl. rewrite E. simpl. rewrite E'.
    split; [now rewrite <- app_assoc | now rewrite Hrow, Hrest].
Qed.

Lemma int_returns_field (data : connection_entry) (key : string) (z : Z) :
  int (dict_get data key (PInt 0)) = Returns z ->
  number_of_field data key = Some z.
Proof.
  unfold number_of_field, dict_get.
  destruct (data !! key) as [[| b | n | s]|]; simpl; intros H;
    try discriminate; try congruence.
  destruct (int_of_str s); [congruence|discriminate].
Qed.

Lemma bound_text_field (data : connection_entry) (key t : string) (p : sqlvalue) :
  bind_parameter (dict_get data key (PStr "")) = Returns p ->
  text_not_null p = Returns t ->
  text_of_field data key = Some t.
Proof.
  unfold text_of_field, dict_get.
  destruct (data !! key) as [[| b | n | s]|]; simpl; intros Hb Ht.
  - injection Hb as <-. discriminate.
  - injection Hb as <-. simpl in Ht. injection Ht as <-. destruct b; reflexivity.
  - unfold bind_integer in Hb. destruct (fits_int64 n); [|discriminate].
    simpl in Hb. injection Hb as <-. simpl in Ht. congruence.
  - injection Hb as <-. simpl in Ht. congruence.
  - injection Hb as <-. simpl in Ht. congruence.
Qed.

Lemma insert_active_connection_returns (timestamp : string)
  (data : connection_entry) (table table' : list active_connections_row) :
  insert_active_connection timestamp data table = Returns table' -> storable data.
Proof.
  unfold insert_active_connection.
  destruct (int (dict_get data "orig-bytes" (PInt 0))) as [o|] eqn:Eo; [|discriminate].
  destruct (int (dict_get data "repl-bytes" (PInt 0))) as [r|] eqn:Er; [|discriminate].
  cbn [bind].
  destruct (bind_parameter (dict_get data "src-address" (PStr ""))) as [p1|] eqn:E1;
    [|discriminate].
  destruct (bind_parameter (dict_get data "dst-address" (PStr ""))) as [p2|] eqn:E2;
    [|discriminate].
  destruct (bind_parameter (dict_get data "protocol" (PStr ""))) as [p3|] eqn:E3;
    [|discriminate].
  cbn [bind].
  destruct (bind_integer o) as [o'|] eqn:Eo'; [|discriminate].
  destruct (bind_integer r) as [r'|] eqn:Er'; [|discriminate].
  cbn [bind].
  destruct (text_not_null p1) as [t1|] eqn:T1; [|discriminate].
  destruct (text_not_null p2) as [t2|] eqn:T2; [|discriminate].
  destruct (text_not_null p3) as [t3|] eqn:T3; [|discriminate].
  intros _. unfold storable.
  rewrite (bound_text_field _ _ _ _ E1 T1), (bound_text_field _ _ _ _ E2 T2),
    (bound_text_field _ _ _ _ E3 T3).
  repeat split; eauto.
  - exists o. split; [apply int_returns_field; exact Eo|].
    eapply bind_integer_returns; exact Eo'.
  - exists r. split; [apply int_returns_field; exact Er|].
    eapply bind_integer_returns; exact Er'.
Qed.

(** A batch with an element that cannot be inserted is refused as a
    whole. *)
Lemma store_ip_traffic_refused (records : list traffic_record) (db : database) :
  ~ Forall record_fits records -> store_ip_traffic records db = (false, db).
Proof.
  intros Hnot. unfold store_ip_traffic. destruct records as [|r records]; [reflexivity|].
  destruct (for_each insert_ip_traffic (r :: records) (ip_traffic db)) as [t|e] eqn:E;
    [|reflexivity].
  exfalso. apply Hnot. eapply for_each_returns; [|exact E].
  intros a t1 t2. apply insert_ip_traffic_returns.
Qed.

Lemma store_bandwidth_usage_refused (items : list (string * interface_counters))
  (db : database) :
  ~ Forall counters_fit items -> store_bandwidth_usage items db = (false, db).
Proof.
  intros Hnot. unfold store_bandwidth_usage. destruct items as [|i items]; [reflexivity|].
  destruct (for_each insert_bandwidth_usage (i :: items) (bandwidth_usage db))
    as [t|e] eqn:E; [|reflexivity].
  exfalso. apply Hnot. eapply for_each_returns; [|exact E].
  intros a t1 t2. apply insert_bandwidth_usage_returns.
Qed.

Lemma store_active_connections_refused (now : DateTime.datetime)
  (entries : list connection_entry) (db : database) :
  ~ Forall storable entries -> store_active_connections now entries db = (false, db).
Proof.
  intros Hnot. unfold store_active_connections.
  destruct entries as [|e0 entries]; [reflexivity|].
  destruct (for_each (insert_active_connection (DateTime.isoformat now))
              (e0 :: entries) (active_connections db)) as [t|e] eqn:E; [|reflexivity].
  exfalso. apply Hnot. eapply for_each_returns; [|exact E].
  intros a t1 t2. apply insert_active_connection_returns.
Qed.

End WriteFacts.

(** X2.  A call of [store_ip_traffic] succeeds exactly when it is given at
    least one record and the numbers of every record fit 64 bits.  A
    call that fails leaves the database as it was, also when the records
    before the refused one could be inserted.  A call that succeeds
    appends the records to [ip_traffic], one row each and in their
    order, and keeps every row that the table had. *)
Theorem store_ip_traffic_all_or_nothing
  (records : list DataStore.traffic_record) (db : DataStore.database) :
  let result := DataStore.store_ip_traffic records db in
  (fst result = true <-> records <> [] /\ Forall DataStore.record_fits records)
  /\ (fst result = false -> snd result = db)
  /\ (fst result = true ->
      exists added,
        DataStore.ip_traffic (snd result) = (DataStore.ip_traffic db ++ added)%list
        /\ map DataStore.record_of_row added = records)
  /\ DataStore.bandwidth_usage (snd result) = DataStore.bandwidth_usage db
  /\ DataStore.active_connections (snd result) = DataStore.active_connections db.
Proof.
  cbv zeta. unfold DataStore.store_ip_traffic.
  destruct records as [|r records].
  { cbn. repeat split; try discriminate; try tauto; intros [H _]; congruence. }
  set (l := r :: records).
  destruct (DataStore.for_each DataStore.insert_ip_traffic l (DataStore.ip_traffic db))
    as [table|e] eqn:E; cbn [fst snd DataStore.ip_traffic DataStore.bandwidth_usage
                               DataStore.active_connections].
  - assert (Hfit : Forall DataStore.record_fits l).
    { eapply for_each_returns; [|exact E]. intros a t t'. apply insert_ip_traffic_returns. }
    destruct (for_each_insert_ip_traffic l (DataStore.ip_traffic db) Hfit)
      as (added & E' & Hadded).
    rewrite E in E'. injection E' as ->.
    repeat split; try discriminate; auto.
    intros _. exists added. split; [reflexivity|exact Hadded].
  - repeat split; try discriminate; auto.
    intros [_ Hfit].
    destruct (for_each_insert_ip_traffic l (DataStore.ip_traffic db) Hfit)
      as (added & E' & _).
    congruence.
Qed.

(** X3.  A call of [store_bandwidth_usage] succeeds exactly when it is given
    at least one interface and the counters of every interface fit 64
    bits.  A call that fails leaves the database as it was; one that
    succeeds appends the items to [bandwidth_usage], one row each and in
    their order, and keeps every row that the table had. *)
Theorem store_bandwidth_usage_all_or_nothing
  (items : list (string * DataStore.interface_counters)) (db : DataStore.database) :
  let result := DataStore.store_bandwidth_usage items db in
  (fst result = true <-> items <> [] /\ Forall DataStore.counters_fit items)
  /\ (fst result = false -> snd result = db)
  /\ (fst result = true ->
      exists added,
        DataStore.bandwidth_usage (snd result)
        = (DataStore.bandwidth_usage db ++ added)%list
        /\ map StoreNotions.item_of_row added = items)
  /\ DataStore.ip_traffic (snd result) = DataStore.ip_traffic db
  /\ DataStore.active_connections (snd result) = DataStore.active_connections db.
Proof.
  cbv zeta. unfold DataStore.store_bandwidth_usage.
  destruct items as [|i items].
  { cbn. repeat split; try discriminate; try tauto; intros [H _]; congruence. }
  set (l := i :: items).
  destruct (DataStore.for_each DataStore.insert_bandwidth_usage l
              (DataStore.bandwidth_usage db))
    as [table|e] eqn:E; cbn [fst snd DataStore.ip_traffic DataStore.bandwidth_usage
                               DataStore.active_connections].
  - assert (Hfit : Forall DataStore.counters_fit l).
    { eapply for_each_returns; [|exact E].
      intros a t t'. apply insert_bandwidth_usage_returns. }
    destruct (for_each_insert_bandwidth_items l (DataStore.bandwidth_usage db) Hfit)
      as (added & E' & Hadded).
    rewrite E in E'. injection E' as ->.
    repeat split; try discriminate; auto.
    intros _. exists added. split; [reflexivity|exact Hadded].
  - repeat split; try discriminate; auto.
    intros [_ Hfit].
    destruct (for_each_insert_bandwidth_items l (DataStore.bandwidth_usage db) Hfit)
      as (added & E' & _).
    congruence.
Qed.

(** X4.  A call of [store_active_connections] succeeds exactly when it is
    given at least one entry and every field of every entry can be
    stored.  A call that fails leaves the database as it was, whichever
    entry was refused; one that succeeds appends one row per entry, in
    order, each with the fields of its entry and the one timestamp of the
    batch, and keeps every row that the table had. *)
Theorem store_active_connections_all_or_nothing (now : DateTime.datetime)
  (entries : list DataStore.connection_entry) (db : DataStore.database) :
  let result := DataStore.store_active_connections now entries db in
  (fst result = true <-> entries <> [] /\ Forall DataStore.storable entries)
  /\ (fst result = false -> snd result = db)
  /\ (fst result = true ->
      exists added,
        DataStore.active_connections (snd result)
        = (DataStore.active_connections db ++ added)%list
        /\ Forall2 (DataStore.row_of_entry (DateTime.isoformat now)) entries added)
  /\ DataStore.ip_traffic (snd result) = DataStore.ip_traffic db
  /\ DataStore.bandwidth_usage (snd result) = DataStore.bandwidth_usage db.
Proof.
  cbv zeta. unfold DataStore.store_active_connections.
  destruct entries as [|e0 entries].
  { cbn. repeat split; try discriminate; try tauto; intros [H _]; congruence. }
  set (l := e0 :: entries).
  destruct (DataStore.for_each
              (DataStore.insert_active_connection (DateTime.isoformat now)) l
              (DataStore.active_connections db))
    as [table|e] eqn:E; cbn [fst snd DataStore.ip_traffic DataStore.bandwidth_usage
                               DataStore.active_connections].
  - assert (Hst : Forall DataStore.storable l).
    { eapply for_each_returns; [|exact E].
      intros a t t'. apply insert_active_connection_returns. }
    destruct (for_each_insert_active_connection (DateTime.isoformat now) l
                (DataStore.active_connections db) Hst) as (added & E' & Hadded).
    rewrite E in E'. injection E' as ->.
    repeat split; try discriminate; auto.
    intros _. exists added. split; [reflexivity|exact Hadded].
  - repeat split; try discriminate; auto.
    intros [_ Hst].
    destruct (for_each_insert_active_connection (DateTime.isoformat now) l
                (DataStore.active_connections db) Hst) as (added & E' & _).
    congruence.
Qed.

(** ** The store: windows of the history queries *)

Section WindowFacts.

Import Py Sqlite DataStore StoreNotions.

(** The window of a query has a start exactly when its first instant is
    one of the calendar. *)
Lemma window_start_returns (now : DateTime.datetime) (hours : Z) (start : string) :
  DateTime.window_start now hours = Returns start <->
  DateTime.representable (window_instant now hours) = true
  /\ start = DateTime.isoformat (window_instant now hours).
Proof.
  unfold DateTime.window_start, DateTime.minus_hours, window_instant.
  destruct (DateTime.representable (now - hours * DateTime.usec_per_hour)); simpl.
  - split; [intros H; injection H as <-; auto | intros [_ ->]; reflexivity].
  - split; [discriminate | intros [H _]; discriminate].
Qed.

Lemma window_start_raises (now : DateTime.datetime) (hours : Z) :
  DateTime.representable (window_instant now hours) = false ->
  exists e, DateTime.window_start now hours = Raises e.
Proof.
  unfold DateTime.window_start, DateTime.minus_hours, window_instant.
  intros ->. simpl. eauto.
Qed.

(** A window that starts earlier has the earlier text as its start. *)
Lemma window_start_mono (now now' : DateTime.datetime) (hours hours' : Z)
  (start start' : string) :
  window_instant now' hours' <= window_instant now hours ->
  DateTime.window_start now hours = Returns start ->
  DateTime.window_start now' hours' = Returns start' ->
  text_le start' start = true.
Proof.
  intros Hle H H'.
  apply window_start_returns in H as [Hr ->].
  apply window_start_returns in H' as [Hr' ->].
  rewrite isoformat_text_le by assumption. apply Z.leb_le. exact Hle.
Qed.

Lemma where_ge_app {A : Type} (column : A -> string) (bound : string)
  (l l' : list A) :
  where_ge column bound (l ++ l') = (where_ge column bound l ++ where_ge column bound l')%list.
Proof. unfold where_ge. apply List.filter_app. Qed.

(** A lower bound selects what a higher bound selects. *)
Lemma where_ge_weaken {A : Type} (column : A -> string) (bound bound' : string)
  (l : list A) (r : A) :
  text_le bound' bound = true ->
  In r (where_ge column bound l) -> In r (where_ge column bound' l).
Proof.
  intros Hle. rewrite !where_ge_In. intros [Hin Hge].
  split; [exact Hin|]. eapply text_le_trans; eassumption.
Qed.

Lemma order_by_In {A : Type} (precedes : A -> A -> bool) (l : list A) (r : A) :
  In r (order_by precedes l) <-> In r l.
Proof.
  split; intros H.
  - eapply Permutation_in; [apply order_by_perm|exact H].
  - eapply Permutation_in; [symmetry; apply order_by_perm|exact H].
Qed.

Lemma samples_ascending (interface : option string) (hours : Z)
  (now : DateTime.datetime) (db : database) :
  ascending_samples (rows (get_bandwidth_history interface hours now db)).
Proof.
  unfold get_bandwidth_history, ascending_samples.
  destruct (DateTime.window_start now hours); simpl; [|constructor].
  apply (order_by_sorted (ascending_text bu_timestamp)).
  - intros x y. apply text_le_total.
  - intros x y z. apply text_le_trans.
Qed.

End WindowFacts.

(** X5.  Samples whose counters fit 64 bits and whose timestamps are not
    before the start of the window come back from the history query
    next to what it returned before, each as it was stored: a counter
    that is lower than in an earlier sample of its interface is neither
    refused nor corrected.  The result is in ascending order of
    timestamp. *)
Theorem stored_bandwidth_is_returned
  (items : list (string * DataStore.interface_counters)) (hours : Z)
  (now : DateTime.datetime) (start : string) (db : DataStore.database) :
  items <> [] ->
  Forall DataStore.counters_fit items ->
  DateTime.window_start now hours = Py.Returns start ->
  Forall (fun item =>
            Sqlite.text_le start (DataStore.ic_timestamp (snd item)) = true) items ->
  let stored := DataStore.store_bandwidth_usage items db in
  fst stored = true
  /\ map StoreNotions.item_of_row
       (DataStore.rows (DataStore.get_bandwidth_history None hours now (snd stored)))
     ≡ₚ (map StoreNotions.item_of_row
           (DataStore.rows (DataStore.get_bandwidth_history None hours now db))
         ++ items)%list
  /\ StoreNotions.ascending_samples
       (DataStore.rows (DataStore.get_bandwidth_history None hours now (snd stored))).
Proof.
  intros Hne Hfit Hstart Hrecent. cbv zeta.
  destruct (for_each_insert_bandwidth_items items (DataStore.bandwidth_usage db) Hfit)
    as (added & Hloop & Hmap).
  assert (Hstored : DataStore.store_bandwidth_usage items db
                    = (true,
                       {| DataStore.ip_traffic := DataStore.ip_traffic db;
                          DataStore.bandwidth_usage :=
                            (DataStore.bandwidth_usage db ++ added)%list;
                          DataStore.active_connections :=
                            DataStore.active_connections db |})).
  { unfold DataStore.store_bandwidth_usage. rewrite Hloop.
    destruct items; [congruence|reflexivity]. }
  rewrite Hstored. cbn [fst snd].
  split; [reflexivity|]. split; [|apply samples_ascending].
  assert (Hall : Sqlite.where_ge DataStore.bu_timestamp start added = added).
  { apply where_ge_all. rewrite <- Hmap in Hrecent.
    rewrite Forall_map in Hrecent. exact Hrecent. }
  unfold DataStore.get_bandwidth_history. rewrite Hstart.
  cbn [DataStore.truthy DataStore.rows DataStore.bandwidth_usage].
  rewrite where_ge_app, Hall, <- Hmap, <- map_app.
  apply Permutation_map.
  etransitivity; [apply order_by_perm|].
  apply Permutation_app_tail. symmetry. apply order_by_perm.
Qed.

Lemma stored_bandwidth_is_returned_witness :
  let stored :=
    DataStore.store_bandwidth_usage Samples.bandwidth_samples
      Samples.bandwidth_database in
  fst stored = true
  /\ map StoreNotions.item_of_row
       (DataStore.rows
          (DataStore.get_bandwidth_history None 24 Examples.noon (snd stored)))
     ≡ₚ (map StoreNotions.item_of_row
           (DataStore.rows
              (DataStore.get_bandwidth_history None 24 Examples.noon
                 Samples.bandwidth_database))
         ++ Samples.bandwidth_samples)%list
  /\ StoreNotions.ascending_samples
       (DataStore.rows
          (DataStore.get_bandwidth_history None 24 Examples.noon (snd stored))).
Proof.
  apply (stored_bandwidth_is_returned Samples.bandwidth_samples 24 Examples.noon
           "2023-12-31T12:00:00" Samples.bandwidth_database).
  - discriminate.
  - repeat constructor.
  - reflexivity.
  - repeat constructor.
Defined.

(** X6.  With an address that is not empty, the history query returns
    exactly the rows of [ip_traffic] that carry this address and whose
    timestamp is not before the start of the window, each once, in
    ascending order of timestamp. *)
Theorem history_of_address (ip : string) (hours : Z) (now : DateTime.datetime)
  (start : string) (db : DataStore.database) :
  ip <> "" ->
  DateTime.window_start now hours = Py.Returns start ->
  let result :=
    DataStore.rows (DataStore.get_ip_traffic_history (Some ip) hours now db) in
  result ≡ₚ DataStore.rows_of_ip ip start db
  /\ (forall row,
        In row result <->
        In row (DataStore.ip_traffic db)
        /\ Sqlite.text_le start (DataStore.it_timestamp row) = true
        /\ DataStore.it_ip_address row = ip)
  /\ DataStore.ascending_timestamps result.
Proof.
  intros Hip Hstart. cbv zeta.
  assert (Hrows : DataStore.rows
                    (DataStore.get_ip_traffic_history (Some ip) hours now db)
                  = Sqlite.order_by (Sqlite.ascending_text DataStore.it_timestamp)
                      (DataStore.rows_of_ip ip start db)).
  { unfold DataStore.get_ip_traffic_history. rewrite Hstart.
    unfold DataStore.truthy.
    destruct (String.eqb_spec ip ""); [contradiction|]. reflexivity. }
  split; [rewrite Hrows; apply order_by_perm|].
  split; [|apply history_ascending].
  intros row. rewrite Hrows, order_by_In.
  unfold DataStore.rows_of_ip, DataStore.window_rows.
  rewrite !List.filter_In, String.eqb_eq. tauto.
Qed.

Lemma history_of_address_witness :
  let result :=
    DataStore.rows
      (DataStore.get_ip_traffic_history (Some "8.8.8.8") 24 Examples.noon
         Examples.traffic_database) in
  result ≡ₚ DataStore.rows_of_ip "8.8.8.8" "2023-12-31T12:00:00"
              Examples.traffic_database
  /\ (forall row,
        In row result <->
        In row (DataStore.ip_traffic Examples.traffic_database)
        /\ Sqlite.text_le "2023-12-31T12:00:00" (DataStore.it_timestamp row) = true
        /\ DataStore.it_ip_address row = "8.8.8.8")
  /\ DataStore.ascending_timestamps result.
Proof.
  apply (history_of_address "8.8.8.8" 24 Examples.noon "2023-12-31T12:00:00"
           Examples.traffic_database).
  - discriminate.
  - reflexivity.
Defined.

(** X7.  A window that starts earlier loses no row: when the first
    instant of one query is not after that of another, be it for more
    hours or at an earlier reading of the clock, and is an instant of the
    calendar, every row that the other query returns is returned by it
    too.  This holds for both history queries, with or without a
    filter. *)
Theorem earlier_window_keeps_rows (hours hours' : Z) (now now' : DateTime.datetime)
  (db : DataStore.database) :
  StoreNotions.window_instant now' hours' <= StoreNotions.window_instant now hours ->
  DateTime.representable (StoreNotions.window_instant now' hours') = true ->
  (forall ip_address row,
     In row (DataStore.rows (DataStore.get_ip_traffic_history ip_address hours now db)) ->
     In row (DataStore.rows (DataStore.get_ip_traffic_history ip_address hours' now' db)))
  /\ (forall interface row,
        In row (DataStore.rows (DataStore.get_bandwidth_history interface hours now db)) ->
        In row (DataStore.rows (DataStore.get_bandwidth_history interface hours' now' db))).
Proof.
  intros Hle Hrep.
  destruct (DateTime.window_start now' hours') as [start'|e] eqn:E';
    [|pose proof (proj2 (window_start_returns now' hours' _) (conj Hrep eq_refl));
      congruence].
  split.
  - intros ip_address row. unfold DataStore.get_ip_traffic_history. rewrite E'.
    destruct (DateTime.window_start now hours) as [start|e] eqn:E; [|intros []].
    pose proof (window_start_mono _ _ _ _ _ _ Hle E E') as Hstart.
    cbn [DataStore.rows]. rewrite !order_by_In.
    destruct (DataStore.truthy ip_address).
    + rewrite !where_eq_In. intros [Hin Heq]. split; [|exact Heq].
      eapply where_ge_weaken; eassumption.
    + apply where_ge_weaken. exact Hstart.
  - intros interface row. unfold DataStore.get_bandwidth_history. rewrite E'.
    destruct (DateTime.window_start now hours) as [start|e] eqn:E; [|intros []].
    pose proof (window_start_mono _ _ _ _ _ _ Hle E E') as Hstart.
    cbn [DataStore.rows]. rewrite !order_by_In.
    destruct (DataStore.truthy interface).
    + rewrite !where_eq_In. intros [Hin Heq]. split; [|exact Heq].
      eapply where_ge_weaken; eassumption.
    + apply where_ge_weaken. exact Hstart.
Qed.

Lemma earlier_window_keeps_rows_witness :
  (forall ip_address row,
     In row (DataStore.rows
               (DataStore.get_ip_traffic_history ip_address 1 Examples.noon
                  Examples.traffic_database)) ->
     In row (DataStore.rows
               (DataStore.get_ip_traffic_history ip_address 24 Examples.noon
                  Examples.traffic_database)))
  /\ (forall interface row,
        In row (DataStore.rows
                  (DataStore.get_bandwidth_history interface 1 Examples.noon
                     Examples.traffic_database)) ->
        In row (DataStore.rows
                  (DataStore.get_bandwidth_history interface 24 Examples.noon
                     Examples.traffic_database))).
Proof.
  apply (earlier_window_keeps_rows 1 24 Examples.noon Examples.noon
           Examples.traffic_database).
  - vm_compute. discriminate.
  - reflexivity.
Defined.

(** ** The store: the statistics of the connection table *)

Section StatsFacts.

Import Py Sqlite DataStore StoreNotions.

Lemma total_app (l l' : list Z) : total (l ++ l') = total l + total l'.
Proof. unfold total. induction l as [|z l IH]; simpl; lia. Qed.

Lemma total_perm (l l' : list Z) : l ≡ₚ l' -> total l = total l'.
Proof. unfold total. induction 1; simpl; lia. Qed.

Lemma total_map_add {A : Type} (f g : A -> Z) (l : list A) :
  total (map (fun a => f a + g a) l) = total (map f l) + total (map g l).
Proof. unfold total. induction l as [|a l IH]; simpl; lia. Qed.

Lemma total_zero {A : Type} (f : A -> Z) (l : list A) :
  (forall a, In a l -> f a = 0) -> total (map f l) = 0.
Proof.
  unfold total. induction l as [|a l IH]; intros H; simpl; [reflexivity|].
  rewrite (H a) by now left. rewrite IH; [reflexivity|].
  intros b Hb. apply H. now right.
Qed.

(** Among keys that are distinct, one is equal to [c] when [c] is one of
    them. *)
Lemma total_indicator (c : string) (keys : list string) :
  List.NoDup keys -> In c keys ->
  total (map (fun k => if String.eqb c k then 1 else 0) keys) = 1.
Proof.
  induction 1 as [|k keys Hk Hnd IH]; intros Hin; [destruct Hin|].
  change (total (map ?f (k :: keys))) with (f k + total (map f keys)). cbv beta.
  destruct (String.eqb_spec c k) as [->|Hne].
  - rewrite total_zero; [reflexivity|].
    intros a Ha. destruct (String.eqb_spec k a) as [->|]; [|reflexivity].
    contradiction.
  - destruct Hin as [->|Hin]; [contradiction|]. rewrite IH by exact Hin. reflexivity.
Qed.

(** The groups of a column share out the rows. *)
Lemma counts_total {A : Type} (column : A -> string) (keys : list string)
  (l : list A) :
  List.NoDup keys -> (forall r, In r l -> In (column r) keys) ->
  total (map (fun k => count_rows (where_eq column k l)) keys)
  = Z.of_nat (length l).
Proof.
  intros Hnd. induction l as [|r l IH]; intros Hin.
  - apply total_zero. reflexivity.
  - rewrite (map_ext _ (fun k => (if String.eqb (column r) k then 1 else 0)
                                 + count_rows (where_eq column k l))).
    + rewrite total_map_add, IH by (intros; apply Hin; now right).
      rewrite total_indicator by (auto; apply Hin; now left).
      simpl length. lia.
    + intros k. unfold count_rows, where_eq. simpl.
      destruct (String.eqb (column r) k); simpl length; lia.
Qed.

Lemma counts_descending_total (x y : string * Z) :
  descending_integer snd x y = false -> descending_integer snd y x = true.
Proof. unfold descending_integer. lia. Qed.

Lemma counts_descending_trans (x y z : string * Z) :
  descending_integer snd x y = true ->
  descending_integer snd y z = true ->
  descending_integer snd x z = true.
Proof. unfold descending_integer. lia. Qed.

Lemma counts_descending_sorted (l : list (string * Z)) :
  descending_counts (order_by (descending_integer snd) l).
Proof.
  unfold descending_counts.
  pose proof (order_by_sorted (descending_integer snd)
                counts_descending_total counts_descending_trans l) as H.
  induction H as [|x l' Hs IH Hx]; constructor; [exact IH|].
  eapply Forall_impl; [exact Hx|].
  intros y Hy. unfold descending_integer in Hy. simpl in Hy. lia.
Qed.

Lemma count_by_perm (column : active_connections_row -> string)
  (l : list active_connections_row) :
  count_by column l
  ≡ₚ map (fun k => (k, count_rows (where_eq column k l)))
       (group_keys (map column l)).
Proof. apply order_by_perm. Qed.

Lemma count_by_keys (column : active_connections_row -> string)
  (l : list active_connections_row) :
  map fst (count_by column l) ≡ₚ group_keys (map column l).
Proof.
  etransitivity; [apply Permutation_map, count_by_perm|].
  rewrite map_map. simpl. rewrite map_id. reflexivity.
Qed.

Lemma occurrences_positive (column : active_connections_row -> string) (k : string)
  (l : list active_connections_row) :
  0 < occurrences column k l <-> In k (map column l).
Proof.
  unfold occurrences. induction l as [|r l IH]; simpl; [lia|].
  destruct (String.eqb_spec (column r) k) as [->|Hne]; simpl length.
  - split; [auto|lia].
  - rewrite IH. split; [auto|]. intros [H|H]; [contradiction|exact H].
Qed.

(** The answer of a counting statement lists every value of the column
    once, with the number of its rows, the greater counts first. *)
Lemma count_by_counts_rows (column : active_connections_row -> string)
  (l : list active_connections_row) :
  counts_rows column l (count_by column l).
Proof.
  split; [|split].
  - eapply Permutation_NoDup; [symmetry; apply count_by_keys|].
    apply group_keys_NoDup.
  - apply List.Forall_forall. intros [k c] Hin.
    eapply Permutation_in in Hin; [|apply count_by_perm].
    apply in_map_iff in Hin as (k' & Heq & Hk). injection Heq as -> <-.
    cbn [fst snd]. split; [reflexivity|].
    apply (proj1 (group_keys_In _ _)) in Hk.
    apply (proj2 (occurrences_positive column _ _)) in Hk.
    unfold occurrences, count_rows, where_eq in *. lia.
  - apply counts_descending_sorted.
Qed.

Lemma count_by_complete (column : active_connections_row -> string) (k : string)
  (l : list active_connections_row) :
  0 < occurrences column k l -> In k (map fst (count_by column l)).
Proof.
  intros H. apply (proj1 (occurrences_positive column _ _)) in H.
  eapply Permutation_in; [symmetry; apply count_by_keys|].
  apply (proj2 (group_keys_In _ _)). exact H.
Qed.

Lemma count_by_total (column : active_connections_row -> string)
  (l : list active_connections_row) :
  total (map snd (count_by column l)) = Z.of_nat (length l).
Proof.
  rewrite (total_perm _ _ (Permutation_map snd (count_by_perm column l))).
  rewrite map_map. cbn [snd].
  apply counts_total; [apply group_keys_NoDup|].
  intros r Hr. apply (proj2 (group_keys_In _ _)). now apply in_map.
Qed.

(** The first ten groups of such an answer. *)
Lemma top_ten_counts (column : active_connections_row -> string)
  (l : list active_connections_row) :
  let top := Sqlite.limit 10 (count_by column l) in
  (length top <= 10)%nat
  /\ counts_rows column l top
  /\ (forall k,
        0 < occurrences column k l -> ~ In k (map fst top) ->
        length top = 10%nat /\ Forall (fun kc => occurrences column k l <= snd kc) top).
Proof.
  cbv zeta. change (Sqlite.limit 10 (count_by column l))
    with (take 10 (count_by column l)).
  destruct (count_by_counts_rows column l) as (Hnd & Hall & Hsorted).
  pose proof (take_drop 10 (count_by column l)) as Hsplit.
  split; [rewrite length_take; lia|]. split; [split; [|split]|].
  - rewrite <- Hsplit, map_app in Hnd. now apply NoDup_app_remove_r in Hnd.
  - apply Forall_take. exact Hall.
  - unfold descending_counts in *. rewrite <- Hsplit in Hsorted.
    now apply StronglySorted_app_1_l in Hsorted.
  - intros k Hk Hout.
    pose proof (count_by_complete column k l Hk) as Hin.
    apply in_map_iff in Hin as ([k' c] & Hfst & Hin). cbn [fst] in Hfst. subst k'.
    assert (Hc : c = occurrences column k l).
    { rewrite List.Forall_forall in Hall. exact (proj1 (Hall _ Hin)). }
    rewrite <- Hsplit in Hin. apply in_app_or in Hin as [Hin|Hin].
    { exfalso. apply Hout. apply in_map_iff. exists (k, c). auto. }
    split.
    + rewrite length_take.
      assert (Hlen : (10 < length (count_by column l))%nat).
      { destruct (Nat.lt_ge_cases 10 (length (count_by column l))) as [H|H];
          [exact H|].
        rewrite drop_ge in Hin by exact H. destruct Hin. }
      lia.
    + apply List.Forall_forall. intros e He.
      unfold descending_counts in Hsorted. rewrite <- Hsplit in Hsorted.
      apply list_elem_of_In in He, Hin.
      pose proof (StronglySorted_app_1_elem_of _ _ _ _ _ Hsorted He Hin) as H.
      cbn [snd] in H. lia.
Qed.

(** What the four statements of [get_connection_stats] return. *)
Lemma connection_stats_parts (hours : Z) (now1 now2 now3 now4 : DateTime.datetime)
  (db : database) (stats : connection_stats) :
  get_connection_stats hours now1 now2 now3 now4 db = Some stats ->
  (DateTime.representable (window_instant now1 hours) = true
   /\ DateTime.representable (window_instant now2 hours) = true
   /\ DateTime.representable (window_instant now3 hours) = true
   /\ DateTime.representable (window_instant now4 hours) = true)
  /\ total_connections stats
     = Z.of_nat (length (connections_since
                           (DateTime.isoformat (window_instant now1 hours)) db))
  /\ protocol_counts stats
     = count_by ac_protocol
         (connections_since (DateTime.isoformat (window_instant now2 hours)) db)
  /\ top_sources stats
     = Sqlite.limit 10
         (count_by ac_src_address
            (connections_since (DateTime.isoformat (window_instant now3 hours)) db))
  /\ top_destinations stats
     = Sqlite.limit 10
         (count_by ac_dst_address
            (connections_since (DateTime.isoformat (window_instant now4 hours)) db)).
Proof.
  unfold get_connection_stats.
  destruct (DateTime.window_start now1 hours) as [s1|] eqn:E1; [|discriminate].
  destruct (DateTime.window_start now2 hours) as [s2|] eqn:E2; [|discriminate].
  destruct (DateTime.window_start now3 hours) as [s3|] eqn:E3; [|discriminate].
  destruct (DateTime.window_start now4 hours) as [s4|] eqn:E4; [|discriminate].
  apply window_start_returns in E1 as [R1 ->], E2 as [R2 ->], E3 as [R3 ->],
    E4 as [R4 ->].
  cbn [bind]. intros H. injection H as <-. cbn. auto.
Qed.

Lemma connections_since_mono (start start' : string) (db : database) :
  text_le start' start = true ->
  (length (connections_since start db) <= length (connections_since start' db))%nat.
Proof.
  intros Hle. unfold connections_since.
  induction (active_connections db) as [|r l IH]; simpl; [lia|].
  destruct (text_le start (ac_timestamp r)) eqn:E.
  - rewrite (text_le_trans _ _ _ Hle E). simpl. lia.
  - destruct (text_le start' (ac_timestamp r)); simpl; lia.
Qed.

End StatsFacts.

Section StoredConnectionFacts.

Import Py Sqlite DataStore StoreNotions.

Lemma connection_stats_returns (hours : Z) (now1 now2 now3 now4 : DateTime.datetime)
  (db : database) :
  DateTime.representable (window_instant now1 hours) = true ->
  DateTime.representable (window_instant now2 hours) = true ->
  DateTime.representable (window_instant now3 hours) = true ->
  DateTime.representable (window_instant now4 hours) = true ->
  exists stats, get_connection_stats hours now1 now2 now3 now4 db = Some stats.
Proof.
  intros R1 R2 R3 R4. unfold get_connection_stats.
  rewrite (proj2 (window_start_returns now1 hours _) (conj R1 eq_refl)).
  rewrite (proj2 (window_start_returns now2 hours _) (conj R2 eq_refl)).
  rewrite (proj2 (window_start_returns now3 hours _) (conj R3 eq_refl)).
  rewrite (proj2 (window_start_returns now4 hours _) (conj R4 eq_refl)).
  cbn [bind]. eauto.
Qed.

(** Rows that carry one timestamp are in a window together or not at
    all. *)
Lemma batch_in_window (start timestamp : string) (added : list active_connections_row) :
  Forall (fun row => ac_timestamp row = timestamp) added ->
  List.filter (fun r => text_le start (ac_timestamp r)) added
  = if text_le start timestamp then added else [].
Proof.
  induction 1 as [|row added Hrow _ IH]; simpl.
  - destruct (text_le start timestamp); reflexivity.
  - rewrite Hrow, IH. destruct (text_le start timestamp); reflexivity.
Qed.

Lemma rows_of_entries_timestamp (timestamp : string) (entries : list connection_entry)
  (added : list active_connections_row) :
  Forall2 (row_of_entry timestamp) entries added ->
  Forall (fun row => ac_timestamp row = timestamp) added.
Proof.
  induction 1 as [|e row entries added Hrow _ IH]; constructor; [|exact IH].
  destruct Hrow as (_ & _ & _ & _ & _ & H). exact H.
Qed.

End StoredConnectionFacts.

(** X8.  The entries of a poll that was stored at the instant [t] are
    counted by [get_connection_stats] when [t] is not before the first
    instant of the window of its first statement, and are left out when
    it is: the total grows by the number of entries of the poll, or not
    at all.  A poll counts again every connection that is still open. *)
Theorem stored_connections_are_counted (t : DateTime.datetime) (hours : Z)
  (now1 now2 now3 now4 : DateTime.datetime)
  (entries : list DataStore.connection_entry) (db : DataStore.database)
  (stats : DataStore.connection_stats) :
  DateTime.representable t = true ->
  fst (DataStore.store_active_connections t entries db) = true ->
  DataStore.get_connection_stats hours now1 now2 now3 now4 db = Some stats ->
  exists stats',
    DataStore.get_connection_stats hours now1 now2 now3 now4
      (snd (DataStore.store_active_connections t entries db)) = Some stats'
    /\ DataStore.total_connections stats'
       = DataStore.total_connections stats
         + (if StoreNotions.window_instant now1 hours <=? t
            then Z.of_nat (length entries) else 0).
Proof.
  intros Ht Hflag Hstats.
  destruct (connection_stats_parts _ _ _ _ _ _ _ Hstats)
    as ((R1 & R2 & R3 & R4) & Htotal & _).
  destruct (connection_stats_returns hours now1 now2 now3 now4
              (snd (DataStore.store_active_connections t entries db)) R1 R2 R3 R4)
    as (stats' & Hstats').
  exists stats'. split; [exact Hstats'|].
  destruct (connection_stats_parts _ _ _ _ _ _ _ Hstats') as (_ & Htotal' & _).
  rewrite Htotal, Htotal'.
  revert Hflag. unfold DataStore.store_active_connections.
  destruct entries as [|e0 entries]; [discriminate|].
  set (l := e0 :: entries).
  destruct (DataStore.for_each
              (DataStore.insert_active_connection (DateTime.isoformat t)) l
              (DataStore.active_connections db)) as [table|e] eqn:E;
    [|discriminate].
  intros _. cbn [snd].
  assert (Hst : Forall DataStore.storable l).
  { eapply for_each_returns; [|exact E].
    intros a ta ta'. apply insert_active_connection_returns. }
  destruct (for_each_insert_active_connection (DateTime.isoformat t) l
              (DataStore.active_connections db) Hst) as (added & E' & Hadded).
  rewrite E in E'. injection E' as ->.
  unfold StoreNotions.connections_since. cbn [DataStore.active_connections].
  rewrite List.filter_app, length_app.
  rewrite (batch_in_window _ (DateTime.isoformat t) added)
    by (eapply rows_of_entries_timestamp; exact Hadded).
  rewrite isoformat_text_le by assumption.
  pose proof (Forall2_length _ _ _ Hadded) as Hlen.
  subst l. simpl length in Hlen.
  destruct (StoreNotions.window_instant now1 hours <=? t); simpl length; lia.
Qed.

Lemma stored_connections_are_counted_witness :
  exists stats',
    DataStore.get_connection_stats 24 Examples.noon Examples.noon Examples.noon
      Examples.noon
      (snd (DataStore.store_active_connections Samples.half_past_eleven
              [Examples.complete_entry; Examples.bare_entry]
              Samples.connection_database)) = Some stats'
    /\ DataStore.total_connections stats'
       = DataStore.total_connections Samples.noon_statistics
         + (if StoreNotions.window_instant Examples.noon 24
               <=? Samples.half_past_eleven
            then Z.of_nat (length [Examples.complete_entry; Examples.bare_entry])
            else 0).
Proof.
  apply (stored_connections_are_counted Samples.half_past_eleven 24
           Examples.noon Examples.noon Examples.noon Examples.noon
           [Examples.complete_entry; Examples.bare_entry]
           Samples.connection_database Samples.noon_statistics);
    reflexivity.
Defined.

(** X9.  The protocol counts of [get_connection_stats] list every
    protocol of the window of the second statement once, with the number
    of its rows, the greater counts first, and add up to the number of
    rows of that window.  The clock is read again for each statement:
    the counts add up to the total of the first statement when the two
    readings are the same, and to no more than it when the clock has
    not gone back in between. *)
Theorem protocol_counts_add_up (hours : Z) (now1 now2 now3 now4 : DateTime.datetime)
  (db : DataStore.database) (stats : DataStore.connection_stats) :
  DataStore.get_connection_stats hours now1 now2 now3 now4 db = Some stats ->
  let window :=
    StoreNotions.connections_since
      (DateTime.isoformat (StoreNotions.window_instant now2 hours)) db in
  StoreNotions.counts_rows DataStore.ac_protocol window
    (DataStore.protocol_counts stats)
  /\ (forall k,
        0 < StoreNotions.occurrences DataStore.ac_protocol k window ->
        In k (map fst (DataStore.protocol_counts stats)))
  /\ DataStore.total (map snd (DataStore.protocol_counts stats))
     = Z.of_nat (length window)
  /\ (now1 <= now2 ->
      DataStore.total (map snd (DataStore.protocol_counts stats))
      <= DataStore.total_connections stats)
  /\ (now1 = now2 ->
      DataStore.total (map snd (DataStore.protocol_counts stats))
      = DataStore.total_connections stats).
Proof.
  intros Hstats. cbv zeta.
  destruct (connection_stats_parts _ _ _ _ _ _ _ Hstats)
    as ((R1 & R2 & _ & _) & Htotal & Hprotocols & _).
  rewrite Hprotocols, Htotal, count_by_total.
  split; [apply count_by_counts_rows|].
  split; [intros k; apply count_by_complete|].
  split; [reflexivity|]. split.
  - intros Hle. apply inj_le. apply connections_since_mono.
    rewrite isoformat_text_le by assumption.
    apply Z.leb_le. unfold StoreNotions.window_instant. lia.
  - intros ->. reflexivity.
Qed.

Lemma protocol_counts_add_up_witness :
  let window :=
    StoreNotions.connections_since
      (DateTime.isoformat (StoreNotions.window_instant Examples.noon 24))
      Samples.connection_database in
  StoreNotions.counts_rows DataStore.ac_protocol window
    (DataStore.protocol_counts Samples.noon_statistics)
  /\ (forall k,
        0 < StoreNotions.occurrences DataStore.ac_protocol k window ->
        In k (map fst (DataStore.protocol_counts Samples.noon_statistics)))
  /\ DataStore.total (map snd (DataStore.protocol_counts Samples.noon_statistics))
     = Z.of_nat (length window)
  /\ (Examples.noon <= Examples.noon ->
      DataStore.total (map snd (DataStore.protocol_counts Samples.noon_statistics))
      <= DataStore.total_connections Samples.noon_statistics)
  /\ (Examples.noon = Examples.noon ->
      DataStore.total (map snd (DataStore.protocol_counts Samples.noon_statistics))
      = DataStore.total_connections Samples.noon_statistics).
Proof.
  apply (protocol_counts_add_up 24 Examples.noon Examples.noon Examples.noon
           Examples.noon Samples.connection_database Samples.noon_statistics).
  reflexivity.
Defined.

(** X10.  The top sources and the top destinations of
    [get_connection_stats] are at most ten addresses each, every one
    listed once with the number of its rows in the window of its
    statement, the greater counts first; an address of the window is
    left out only when ten are listed, and then none of the listed ones
    has fewer rows. *)
Theorem top_addresses_are_the_largest (hours : Z)
  (now1 now2 now3 now4 : DateTime.datetime)
  (db : DataStore.database) (stats : DataStore.connection_stats) :
  DataStore.get_connection_stats hours now1 now2 now3 now4 db = Some stats ->
  let sources :=
    StoreNotions.connections_since
      (DateTime.isoformat (StoreNotions.window_instant now3 hours)) db in
  let destinations :=
    StoreNotions.connections_since
      (DateTime.isoformat (StoreNotions.window_instant now4 hours)) db in
  ((length (DataStore.top_sources stats) <= 10)%nat
   /\ StoreNotions.counts_rows DataStore.ac_src_address sources
        (DataStore.top_sources stats)
   /\ (forall k,
         0 < StoreNotions.occurrences DataStore.ac_src_address k sources ->
         ~ In k (map fst (DataStore.top_sources stats)) ->
         length (DataStore.top_sources stats) = 10%nat
         /\ Forall (fun kc =>
                      StoreNotions.occurrences DataStore.ac_src_address k sources
                      <= snd kc)
              (DataStore.top_sources stats)))
  /\ ((length (DataStore.top_destinations stats) <= 10)%nat
      /\ StoreNotions.counts_rows DataStore.ac_dst_address destinations
           (DataStore.top_destinations stats)
      /\ (forall k,
            0 < StoreNotions.occurrences DataStore.ac_dst_address k destinations ->
            ~ In k (map fst (DataStore.top_destinations stats)) ->
            length (DataStore.top_destinations stats) = 10%nat
            /\ Forall (fun kc =>
                         StoreNotions.occurrences DataStore.ac_dst_address k
                           destinations
                         <= snd kc)
                 (DataStore.top_destinations stats))).
Proof.
  intros Hstats. cbv zeta.
  destruct (connection_stats_parts _ _ _ _ _ _ _ Hstats)
    as (_ & _ & _ & Hsources & Hdestinations).
  rewrite Hsources, Hdestinations.
  split; apply top_ten_counts.
Qed.

Lemma top_addresses_are_the_largest_witness :
  let sources :=
    StoreNotions.connections_since
      (DateTime.isoformat (StoreNotions.window_instant Examples.noon 24))
      Samples.connection_database in
  let destinations :=
    StoreNotions.connections_since
      (DateTime.isoformat (StoreNotions.window_instant Examples.noon 24))
      Samples.connection_database in
  ((length (DataStore.top_sources Samples.noon_statistics) <= 10)%nat
   /\ StoreNotions.counts_rows DataStore.ac_src_address sources
        (DataStore.top_sources Samples.noon_statistics)
   /\ (forall k,
         0 < StoreNotions.occurrences DataStore.ac_src_address k sources ->
         ~ In k (map fst (DataStore.top_sources Samples.noon_statistics)) ->
         length (DataStore.top_sources Samples.noon_statistics) = 10%nat
         /\ Forall (fun kc =>
                      StoreNotions.occurrences DataStore.ac_src_address k sources
                      <= snd kc)
              (DataStore.top_sources Samples.noon_statistics)))
  /\ ((length (DataStore.top_destinations Samples.noon_statistics) <= 10)%nat
      /\ StoreNotions.counts_rows DataStore.ac_dst_address destinations
           (DataStore.top_destinations Samples.noon_statistics)
      /\ (forall k,
            0 < StoreNotions.occurrences DataStore.ac_dst_address k destinations ->
            ~ In k (map fst (DataStore.top_destinations Samples.noon_statistics)) ->
            length (DataStore.top_destinations Samples.noon_statistics) = 10%nat
            /\ Forall (fun kc =>
                         StoreNotions.occurrences DataStore.ac_dst_address k
                           destinations
                         <= snd kc)
                 (DataStore.top_destinations Samples.noon_statistics))).
Proof.
  apply (top_addresses_are_the_largest 24 Examples.noon Examples.noon Examples.noon
           Examples.noon Samples.connection_database Samples.noon_statistics).
  reflexivity.
Defined.

(** ** The router client: traffic by address *)

Section ClientFacts.

Import Py DataStore Client ClientNotions.

Lemma address_of_text (conn : connection_entry) (key : string) :
  is_text (dict_get conn key (PStr "")) = true ->
  address_of conn key = Returns (endpoint conn key).
Proof.
  unfold address_of, endpoint.
  destruct (dict_get conn key (PStr "")); simpl; try discriminate. reflexivity.
Qed.

Lemma address_of_other (conn : connection_entry) (key : string) :
  is_text (dict_get conn key (PStr "")) = false ->
  address_of conn key = Raises "AttributeError".
Proof.
  unfold address_of.
  destruct (dict_get conn key (PStr "")); simpl; try discriminate; reflexivity.
Qed.

Lemma int_number (conn : connection_entry) (key : string) :
  is_number (dict_get conn key (PInt 0)) = true ->
  int (dict_get conn key (PInt 0)) = Returns (byte_count conn key).
Proof.
  unfold is_number, byte_count.
  destruct (int (dict_get conn key (PInt 0))); [reflexivity|discriminate].
Qed.

Lemma int_other (conn : connection_entry) (key : string) :
  is_number (dict_get conn key (PInt 0)) = false ->
  exists e, int (dict_get conn key (PInt 0)) = Raises e.
Proof.
  unfold is_number.
  destruct (int (dict_get conn key (PInt 0))); [discriminate|eauto].
Qed.

(** The loop body on an entry that it can read, and on one that it
    cannot. *)
Lemma count_connection_readable (conn : connection_entry)
  (d : list (string * counters)) :
  readable conn = true -> count_connection conn d = Returns (counted conn d).
Proof.
  unfold readable. rewrite !andb_true_iff. intros [[[Hs Hd] Ho] Hr].
  unfold count_connection, counted.
  rewrite (address_of_text _ _ Hs), (address_of_text _ _ Hd). cbn [bind].
  destruct (String.eqb (endpoint conn "src-address") "") eqn:Es;
    destruct (String.eqb (endpoint conn "dst-address") "") eqn:Ed;
    cbn [orb] in Ho, Hr; cbn [bind];
    rewrite ?(int_number _ _ Ho), ?(int_number _ _ Hr); cbn [bind];
    rewrite ?Ed, ?(int_number _ _ Hr); reflexivity.
Qed.

Lemma count_connection_unreadable (conn : connection_entry)
  (d : list (string * counters)) :
  readable conn = false -> exists e, count_connection conn d = Raises e.
Proof.
  unfold readable, count_connection.
  destruct (is_text (dict_get conn "src-address" (PStr ""))) eqn:Hs;
    [|rewrite (address_of_other _ _ Hs); simpl; eauto].
  destruct (is_text (dict_get conn "dst-address" (PStr ""))) eqn:Hd;
    [|rewrite (address_of_text _ _ Hs), (address_of_other _ _ Hd); simpl; eauto].
  rewrite (address_of_text _ _ Hs), (address_of_text _ _ Hd). cbn [bind andb].
  destruct (String.eqb (endpoint conn "src-address") "") eqn:Es; cbn [orb andb].
  - destruct (String.eqb (endpoint conn "dst-address") "") eqn:Ed; cbn [orb];
      [discriminate|].
    intros Hr. destruct (int_other _ _ Hr) as [e He]. rewrite He. simpl. eauto.
  - destruct (is_number (dict_get conn "orig-bytes" (PInt 0))) eqn:Ho; cbn [andb].
    + rewrite (int_number _ _ Ho). cbn [bind].
      destruct (String.eqb (endpoint conn "dst-address") "") eqn:Ed; cbn [orb];
        [discriminate|].
      intros Hr. destruct (int_other _ _ Hr) as [e He]. rewrite He. simpl. eauto.
    + intros _. destruct (int_other _ _ Ho) as [e He]. rewrite He. simpl. eauto.
Qed.

(** The loop over the entries. *)
Lemma for_each_readable (entries : list connection_entry)
  (d : list (string * counters)) :
  forallb readable entries = true ->
  for_each count_connection entries d
  = Returns (fold_left (fun d conn => counted conn d) entries d).
Proof.
  revert d. induction entries as [|conn entries IH]; intros d H; [reflexivity|].
  simpl in H. apply andb_true_iff in H as [Hc H].
  simpl. rewrite (count_connection_readable _ _ Hc). simpl. apply IH. exact H.
Qed.

Lemma for_each_unreadable (entries : list connection_entry)
  (d : list (string * counters)) :
  forallb readable entries = false ->
  exists e, for_each count_connection entries d = Raises e.
Proof.
  revert d. induction entries as [|conn entries IH]; intros d H; [discriminate|].
  simpl in H. simpl. destruct (readable conn) eqn:Hc.
  - rewrite (count_connection_readable _ _ Hc). simpl. apply IH. exact H.
  - destruct (count_connection_unreadable conn d Hc) as [e He].
    rewrite He. simpl. eauto.
Qed.

(** *** The dictionary of the loop *)

Lemma update_keys_old (ip : string) (f : counters -> counters)
  (d : list (string * counters)) :
  In ip (map fst d) -> map fst (update ip f d) = map fst d.
Proof.
  induction d as [|[k v] d IH]; intros Hin; [destruct Hin|].
  simpl. destruct (String.eqb_spec k ip) as [->|Hne]; [reflexivity|].
  simpl. rewrite IH; [reflexivity|].
  destruct Hin as [H|H]; [simpl in H; congruence|exact H].
Qed.

Lemma update_keys_new (ip : string) (f : counters -> counters)
  (d : list (string * counters)) :
  ~ In ip (map fst d) -> map fst (update ip f d) = (map fst d ++ [ip])%list.
Proof.
  induction d as [|[k v] d IH]; intros Hout; [reflexivity|].
  simpl. destruct (String.eqb_spec k ip) as [->|Hne].
  - exfalso. apply Hout. now left.
  - simpl. rewrite IH; [reflexivity|]. intros H. apply Hout. now right.
Qed.

Lemma update_In (ip ip' : string) (f : counters -> counters)
  (d : list (string * counters)) :
  In ip' (map fst (update ip f d)) <-> In ip' (map fst d) \/ ip' = ip.
Proof.
  destruct (in_dec String.string_dec ip (map fst d)) as [Hin|Hout].
  - rewrite (update_keys_old _ _ _ Hin). split; [auto|].
    intros [H| ->]; assumption.
  - rewrite (update_keys_new _ _ _ Hout), in_app_iff. simpl.
    split; intros [H|H]; auto.
    destruct H as [->|[]]. auto.
Qed.

Lemma update_NoDup (ip : string) (f : counters -> counters)
  (d : list (string * counters)) :
  List.NoDup (map fst d) -> List.NoDup (map fst (update ip f d)).
Proof.
  intros Hnd.
  destruct (in_dec String.string_dec ip (map fst d)) as [Hin|Hout].
  - rewrite (update_keys_old _ _ _ Hin). exact Hnd.
  - rewrite (update_keys_new _ _ _ Hout).
    apply NoDup_ListNoDup, NoDup_app. split; [apply NoDup_ListNoDup; exact Hnd|].
    split; [|apply NoDup_singleton].
    intros x Hx Hx'. apply list_elem_of_In in Hx. apply list_elem_of_singleton in Hx'.
    subst x. contradiction.
Qed.

Lemma counted_In (conn : connection_entry) (ip : string)
  (d : list (string * counters)) :
  In ip (map fst (counted conn d)) <-> In ip (map fst d) \/ end_of ip conn.
Proof.
  unfold counted, end_of.
  destruct (String.eqb_spec (endpoint conn "src-address") "") as [Es|Es];
    destruct (String.eqb_spec (endpoint conn "dst-address") "") as [Ed|Ed];
    rewrite ?update_In.
  - split; [auto|]. intros [H|[Hne [H|H]]]; [exact H|congruence|congruence].
  - split.
    + intros [H| ->]; [auto|]. right. split; [exact Ed|auto].
    + intros [H|[Hne [H|H]]]; [auto|congruence|auto].
  - split.
    + intros [H| ->]; [auto|]. right. split; [exact Es|auto].
    + intros [H|[Hne [H|H]]]; [auto|auto|congruence].
  - split.
    + intros [[H|H]|H]; [auto|subst ip|subst ip]; right; split; auto.
    + intros [H|[Hne [H|H]]]; auto.
Qed.

Lemma counted_NoDup (conn : connection_entry) (d : list (string * counters)) :
  List.NoDup (map fst d) -> List.NoDup (map fst (counted conn d)).
Proof.
  intros H. unfold counted.
  destruct (String.eqb (endpoint conn "src-address") "");
    destruct (String.eqb (endpoint conn "dst-address") "");
    auto using update_NoDup.
Qed.

End ClientFacts.

Section ClientSums.

Import Py DataStore Client ClientNotions.

Lemma update_sum (g : counters -> Z) (delta : Z) (ip : string)
  (f : counters -> counters) (d : list (string * counters)) :
  g no_traffic = 0 -> (forall c, g (f c) = g c + delta) ->
  total (map (fun kv => g (snd kv)) (update ip f d))
  = total (map (fun kv => g (snd kv)) d) + delta.
Proof.
  intros H0 Hf. unfold total.
  induction d as [|[k v] d IH]; simpl; [rewrite Hf, H0; lia|].
  destruct (String.eqb k ip); simpl; [rewrite Hf; lia|rewrite IH; lia].
Qed.

Lemma update_add_tx (ip : string) (n : Z) (d : list (string * counters)) :
  total (map (fun kv => tx_bytes (snd kv)) (update ip (add_tx n) d))
  = total (map (fun kv => tx_bytes (snd kv)) d) + n
  /\ total (map (fun kv => rx_bytes (snd kv)) (update ip (add_tx n) d))
     = total (map (fun kv => rx_bytes (snd kv)) d)
  /\ total (map (fun kv => connections (snd kv)) (update ip (add_tx n) d))
     = total (map (fun kv => connections (snd kv)) d) + 1.
Proof.
  split; [|split].
  - apply (update_sum tx_bytes n); [reflexivity|intros c; reflexivity].
  - rewrite (update_sum rx_bytes 0); [lia|reflexivity|intros c; simpl; lia].
  - apply (update_sum connections 1); [reflexivity|intros c; reflexivity].
Qed.

Lemma update_add_rx (ip : string) (n : Z) (d : list (string * counters)) :
  total (map (fun kv => tx_bytes (snd kv)) (update ip (add_rx n) d))
  = total (map (fun kv => tx_bytes (snd kv)) d)
  /\ total (map (fun kv => rx_bytes (snd kv)) (update ip (add_rx n) d))
     = total (map (fun kv => rx_bytes (snd kv)) d) + n
  /\ total (map (fun kv => connections (snd kv)) (update ip (add_rx n) d))
     = total (map (fun kv => connections (snd kv)) d) + 1.
Proof.
  split; [|split].
  - rewrite (update_sum tx_bytes 0); [lia|reflexivity|intros c; simpl; lia].
  - apply (update_sum rx_bytes n); [reflexivity|intros c; reflexivity].
  - apply (update_sum connections 1); [reflexivity|intros c; reflexivity].
Qed.

Lemma counted_sums (conn : connection_entry) (d : list (string * counters)) :
  total (map (fun kv => tx_bytes (snd kv)) (counted conn d))
  = total (map (fun kv => tx_bytes (snd kv)) d) + sent conn
  /\ total (map (fun kv => rx_bytes (snd kv)) (counted conn d))
     = total (map (fun kv => rx_bytes (snd kv)) d) + received conn
  /\ total (map (fun kv => connections (snd kv)) (counted conn d))
     = total (map (fun kv => connections (snd kv)) d) + ends conn.
Proof.
  unfold counted, sent, received, ends.
  destruct (String.eqb (endpoint conn "src-address") "");
    destruct (String.eqb (endpoint conn "dst-address") "").
  - repeat split; lia.
  - destruct (update_add_rx (endpoint conn "dst-address")
                (byte_count conn "repl-bytes") d) as (H1 & H2 & H3).
    rewrite H1, H2, H3. repeat split; lia.
  - destruct (update_add_tx (endpoint conn "src-address")
                (byte_count conn "orig-bytes") d) as (H1 & H2 & H3).
    rewrite H1, H2, H3. repeat split; lia.
  - destruct (update_add_tx (endpoint conn "src-address")
                (byte_count conn "orig-bytes") d) as (H1 & H2 & H3).
    destruct (update_add_rx (endpoint conn "dst-address")
                (byte_count conn "repl-bytes")
                (update (endpoint conn "src-address")
                   (add_tx (byte_count conn "orig-bytes")) d)) as (H4 & H5 & H6).
    rewrite H4, H5, H6, H1, H2, H3. repeat split; lia.
Qed.

Lemma fold_counted_sums (entries : list connection_entry)
  (d : list (string * counters)) :
  let d' := fold_left (fun d conn => counted conn d) entries d in
  total (map (fun kv => tx_bytes (snd kv)) d')
  = total (map (fun kv => tx_bytes (snd kv)) d) + total (map sent entries)
  /\ total (map (fun kv => rx_bytes (snd kv)) d')
     = total (map (fun kv => rx_bytes (snd kv)) d) + total (map received entries)
  /\ total (map (fun kv => connections (snd kv)) d')
     = total (map (fun kv => connections (snd kv)) d) + total (map ends entries).
Proof.
  cbv zeta. revert d. induction entries as [|conn entries IH]; intros d.
  - simpl. change (total []) with 0. lia.
  - simpl fold_left. destruct (IH (counted conn d)) as (H1 & H2 & H3).
    destruct (counted_sums conn d) as (C1 & C2 & C3).
    rewrite H1, H2, H3, C1, C2, C3.
    change (total (map ?f (conn :: entries))) with (f conn + total (map f entries)).
    lia.
Qed.

Lemma update_connections (ip : string) (n : Z) (d : list (string * counters)) :
  Forall (fun kv => 1 <= connections (snd kv)) d ->
  Forall (fun kv => 1 <= connections (snd kv)) (update ip (add_tx n) d)
  /\ Forall (fun kv => 1 <= connections (snd kv)) (update ip (add_rx n) d).
Proof.
  induction 1 as [|[k v] d Hv Hd [IH1 IH2]]; simpl.
  - split; repeat constructor; simpl; lia.
  - simpl in Hv. destruct (String.eqb k ip); split; constructor; simpl; auto; lia.
Qed.

Lemma counted_connections (conn : connection_entry) (d : list (string * counters)) :
  Forall (fun kv => 1 <= connections (snd kv)) d ->
  Forall (fun kv => 1 <= connections (snd kv)) (counted conn d).
Proof.
  intros H. unfold counted.
  destruct (String.eqb (endpoint conn "src-address") "");
    destruct (String.eqb (endpoint conn "dst-address") ""); auto;
    repeat (apply update_connections); exact H.
Qed.

(** What the loop leaves when every entry can be read. *)
Lemma fold_counted_invariant (entries : list connection_entry)
  (d : list (string * counters)) :
  let d' := fold_left (fun d conn => counted conn d) entries d in
  (List.NoDup (map fst d) -> List.NoDup (map fst d'))
  /\ (Forall (fun kv => 1 <= connections (snd kv)) d ->
      Forall (fun kv => 1 <= connections (snd kv)) d')
  /\ (forall ip,
        In ip (map fst d') <->
        In ip (map fst d) \/ exists conn, In conn entries /\ end_of ip conn).
Proof.
  cbv zeta. revert d. induction entries as [|conn entries IH]; intros d.
  - simpl. split; [auto|]. split; [auto|].
    intros ip. split; [auto|]. intros [H|(conn & [] & _)]. exact H.
  - simpl fold_left. destruct (IH (counted conn d)) as (H1 & H2 & H3).
    split; [intros H; apply H1, counted_NoDup, H|].
    split; [intros H; apply H2, counted_connections, H|].
    intros ip. rewrite H3, counted_In. split.
    + intros [[H|H]|(c & Hc & He)]; [auto| |].
      * right. exists conn. split; [now left|exact H].
      * right. exists c. split; [now right|exact He].
    + intros [H|(c & [->|Hc] & He)]; [auto|auto|].
      right. exists c. auto.
Qed.

Lemma records_fields (d : list (string * counters)) (clock : nat -> DateTime.datetime) :
  map tr_ip_address (records d clock) = map fst d
  /\ map tr_tx_bytes (records d clock) = map (fun kv => tx_bytes (snd kv)) d
  /\ map tr_rx_bytes (records d clock) = map (fun kv => rx_bytes (snd kv)) d
  /\ map tr_connections (records d clock) = map (fun kv => connections (snd kv)) d
  /\ map tr_timestamp (records d clock)
     = map DateTime.isoformat (readings (length d) clock)
  /\ length (records d clock) = length d.
Proof.
  revert clock. induction d as [|[ip data] d IH]; intros clock; simpl.
  - repeat split.
  - destruct (IH (fun k => clock (S k))) as (H1 & H2 & H3 & H4 & H5 & H6).
    rewrite H1, H2, H3, H4, H5, H6. repeat split.
Qed.

(** The timestamps of the records are the texts of successive readings
    of the clock. *)
Lemma traffic_by_ip_stamps (entries : list connection_entry)
  (clock : nat -> DateTime.datetime) :
  map tr_timestamp (get_traffic_by_ip entries clock)
  = map DateTime.isoformat
      (readings (length (get_traffic_by_ip entries clock)) clock).
Proof.
  unfold get_traffic_by_ip.
  destruct (for_each count_connection entries []) as [d|e]; [|reflexivity].
  destruct (records_fields d clock) as (_ & _ & _ & _ & H5 & H6).
  rewrite H5, H6. reflexivity.
Qed.

End ClientSums.

(** X11.  [get_traffic_by_ip] returns one record for each address: the
    addresses of the records are distinct and none is empty, the total
    of a record is the sum of its two directions, its number of
    connections is at least one, and its timestamp is the text of a
    reading of the clock of its own, taken in the order of the
    records. *)
Theorem traffic_by_ip_one_record_per_address
  (entries : list DataStore.connection_entry) (clock : nat -> DateTime.datetime) :
  let result := Client.get_traffic_by_ip entries clock in
  List.NoDup (map DataStore.tr_ip_address result)
  /\ Forall (fun r =>
               DataStore.tr_ip_address r <> ""
               /\ DataStore.record_consistent r
               /\ 1 <= DataStore.tr_connections r) result
  /\ map DataStore.tr_timestamp result
     = map DateTime.isoformat (ClientNotions.readings (length result) clock).
Proof.
  cbv zeta. unfold Client.get_traffic_by_ip.
  destruct (forallb ClientNotions.readable entries) eqn:Hr.
  - rewrite (for_each_readable entries [] Hr).
    set (d := fold_left (fun d conn => ClientNotions.counted conn d) entries []).
    destruct (fold_counted_invariant entries []) as (Hnd & Hpos & Hin).
    fold d in Hnd, Hpos, Hin.
    destruct (records_fields d clock) as (H1 & _ & _ & H4 & H5 & H6).
    split; [rewrite H1; apply Hnd; constructor|].
    split; [|rewrite H5, H6; reflexivity].
    apply List.Forall_forall. intros r Hin_r.
    split; [|split].
    + assert (Hip : In (DataStore.tr_ip_address r) (map fst d))
        by (rewrite <- H1; now apply in_map).
      apply Hin in Hip as [[]|(conn & _ & Hne & _)]. exact Hne.
    + pose proof (get_traffic_by_ip_consistent entries clock) as Hc.
      unfold Client.get_traffic_by_ip in Hc.
      rewrite (for_each_readable entries [] Hr) in Hc.
      rewrite List.Forall_forall in Hc. apply Hc. exact Hin_r.
    + assert (Hc : In (DataStore.tr_connections r)
                     (map (fun kv => Client.connections (snd kv)) d))
        by (rewrite <- H4; now apply in_map).
      apply in_map_iff in Hc as (kv & <- & Hkv).
      specialize (Hpos (List.Forall_nil _)). rewrite List.Forall_forall in Hpos.
      apply Hpos. exact Hkv.
  - destruct (for_each_unreadable entries [] Hr) as [e ->].
    split; [constructor|]. split; [constructor|reflexivity].
Qed.

(** X12.  When every entry can be read, [get_traffic_by_ip] loses and
    invents nothing: the sent bytes of its records add up to the bytes
    sent over the entries that have a source address, the received
    bytes to the bytes received over those that have a destination
    address, and the connection counts to the number of ends that have
    an address. *)
Theorem traffic_by_ip_conserves_bytes
  (entries : list DataStore.connection_entry) (clock : nat -> DateTime.datetime) :
  forallb ClientNotions.readable entries = true ->
  let result := Client.get_traffic_by_ip entries clock in
  DataStore.total (map DataStore.tr_tx_bytes result)
  = DataStore.total (map ClientNotions.sent entries)
  /\ DataStore.total (map DataStore.tr_rx_bytes result)
     = DataStore.total (map ClientNotions.received entries)
  /\ DataStore.total (map DataStore.tr_connections result)
     = DataStore.total (map ClientNotions.ends entries).
Proof.
  intros Hr. cbv zeta. unfold Client.get_traffic_by_ip.
  rewrite (for_each_readable entries [] Hr).
  destruct (records_fields
              (fold_left (fun d conn => ClientNotions.counted conn d) entries [])
              clock) as (_ & H2 & H3 & H4 & _).
  rewrite H2, H3, H4.
  destruct (fold_counted_sums entries []) as (S1 & S2 & S3).
  rewrite S1, S2, S3. simpl map. change (DataStore.total []) with 0. lia.
Qed.

Lemma traffic_by_ip_conserves_bytes_witness :
  let result :=
    Client.get_traffic_by_ip [Examples.complete_entry; Examples.bare_entry]
      (fun _ => Examples.noon) in
  DataStore.total (map DataStore.tr_tx_bytes result)
  = DataStore.total
      (map ClientNotions.sent [Examples.complete_entry; Examples.bare_entry])
  /\ DataStore.total (map DataStore.tr_rx_bytes result)
     = DataStore.total
         (map ClientNotions.received [Examples.complete_entry; Examples.bare_entry])
  /\ DataStore.total (map DataStore.tr_connections result)
     = DataStore.total
         (map ClientNotions.ends [Examples.complete_entry; Examples.bare_entry]).
Proof.
  apply (traffic_by_ip_conserves_bytes [Examples.complete_entry; Examples.bare_entry]
           (fun _ => Examples.noon)).
  reflexivity.
Defined.

(** X13.  The addresses of the result of [get_traffic_by_ip] are the
    addresses, not empty, of the two ends of the entries, provided every
    entry can be read.  One entry that cannot be read, be it the last,
    leaves the result empty: what was counted before it is dropped. *)
Theorem traffic_by_ip_addresses
  (entries : list DataStore.connection_entry) (clock : nat -> DateTime.datetime) :
  let result := Client.get_traffic_by_ip entries clock in
  (forall ip,
     In ip (map DataStore.tr_ip_address result) <->
     forallb ClientNotions.readable entries = true
     /\ exists conn, In conn entries /\ ClientNotions.end_of ip conn)
  /\ (forallb ClientNotions.readable entries = false -> result = []).
Proof.
  cbv zeta. unfold Client.get_traffic_by_ip.
  destruct (forallb ClientNotions.readable entries) eqn:Hr.
  - rewrite (for_each_readable entries [] Hr).
    destruct (fold_counted_invariant entries []) as (_ & _ & Hin).
    destruct (records_fields
                (fold_left (fun d conn => ClientNotions.counted conn d) entries [])
                clock) as (H1 & _).
    split; [|discriminate].
    intros ip. rewrite H1, Hin. simpl. tauto.
  - destruct (for_each_unreadable entries [] Hr) as [e ->].
    split; [|reflexivity].
    intros ip. simpl. split; [intros []|intros [H _]; discriminate].
Qed.

(** X14.  Storing what [get_traffic_by_ip] returns keeps the totals of
    [ip_traffic] right: when the total of every row of the table is the
    sum of its two directions before the call of [store_ip_traffic], it
    is so after it, whether the call succeeds or not. *)
Theorem collected_traffic_stays_consistent
  (entries : list DataStore.connection_entry) (clock : nat -> DateTime.datetime)
  (db : DataStore.database) :
  Forall DataStore.row_consistent (DataStore.ip_traffic db) ->
  Forall DataStore.row_consistent
    (DataStore.ip_traffic
       (snd (DataStore.store_ip_traffic
               (Client.get_traffic_by_ip entries clock) db))).
Proof.
  intros Hdb.
  pose proof (get_traffic_by_ip_consistent entries clock) as Hrec.
  revert Hrec. generalize (Client.get_traffic_by_ip entries clock). intros records Hrec.
  unfold DataStore.store_ip_traffic. destruct records as [|r records]; [exact Hdb|].
  set (l := r :: records) in *.
  destruct (DataStore.for_each DataStore.insert_ip_traffic l (DataStore.ip_traffic db))
    as [table|e] eqn:E; [|exact Hdb].
  cbn [snd DataStore.ip_traffic].
  assert (Hfit : Forall DataStore.record_fits l).
  { eapply for_each_returns; [|exact E]. intros a t t'. apply insert_ip_traffic_returns. }
  destruct (for_each_insert_ip_traffic l (DataStore.ip_traffic db) Hfit)
    as (added & E' & Hadded).
  rewrite E in E'. injection E' as ->.
  apply Forall_app. split; [exact Hdb|].
  rewrite <- Hadded in Hrec. rewrite Forall_map in Hrec. exact Hrec.
Qed.

Lemma collected_traffic_stays_consistent_witness :
  Forall DataStore.row_consistent
    (DataStore.ip_traffic
       (snd (DataStore.store_ip_traffic
               (Client.get_traffic_by_ip
                  [Examples.complete_entry; Examples.bare_entry]
                  (fun _ => Examples.noon))
               Examples.traffic_database))).
Proof.
  apply (collected_traffic_stays_consistent
           [Examples.complete_entry; Examples.bare_entry] (fun _ => Examples.noon)
           Examples.traffic_database).
  repeat constructor.
Defined.

(** ** The cycle and the loop: what they write to the session *)

Section SessionFacts.

Import Py DataStore App AppNotions.

Lemma when_store_returns (b : bool) (method : database -> bool * database)
  (s : session_state) :
  when b (call_store None method) s
  = (Returns tt,
     set_data_store (if b then snd (method (data_store s)) else data_store s) s).
Proof.
  unfold when, seq, call_store, ret. destruct b.
  - destruct (method (data_store s)); reflexivity.
  - rewrite set_data_store_same. reflexivity.
Qed.

(** A cycle whose requests are answered and whose store calls do not
    raise. *)
Lemma collect_steps_answered (connections : list connection_entry)
  (bandwidth : list (string * interface_counters)) (traffic : list traffic_record)
  (now_store now_update : DateTime.datetime) (s : session_state) :
  collect_steps (answered connections bandwidth traffic now_store now_update) s
  = (Returns true,
     set_last_update now_update
       (set_data_store
          (stored_by_cycle connections bandwidth traffic now_store (data_store s)) s)).
Proof.
  unfold collect_steps, answered.
  cbn [get_active_connections get_bandwidth_usage get_traffic_by_ip
       store_connections_fault store_bandwidth_fault store_traffic_fault
       now_store_connections now_last_update].
  rewrite (seq_returns _ _ _ _ _ (request_returns connections s)).
  rewrite (seq_returns _ _ _ _ _ (when_store_returns _ _ s)).
  rewrite (seq_returns _ _ _ _ _ (request_returns bandwidth _)).
  rewrite (seq_returns _ _ _ _ _ (when_store_returns _ _ _)).
  rewrite (seq_returns _ _ _ _ _ (request_returns traffic _)).
  rewrite (seq_returns _ _ _ _ _ (when_store_returns _ _ _)).
  unfold seq, ret, stored_by_cycle. destruct s; reflexivity.
Qed.

Lemma store_ip_traffic_table (records : list traffic_record) (db db' : database) :
  ip_traffic db = ip_traffic db' ->
  ip_traffic (snd (store_ip_traffic records db))
  = ip_traffic (snd (store_ip_traffic records db')).
Proof.
  intros H. unfold store_ip_traffic. destruct records as [|r records]; [exact H|].
  rewrite H. destruct (for_each _ _ _); [reflexivity|exact H].
Qed.

Lemma store_bandwidth_usage_table (items : list (string * interface_counters))
  (db db' : database) :
  bandwidth_usage db = bandwidth_usage db' ->
  bandwidth_usage (snd (store_bandwidth_usage items db))
  = bandwidth_usage (snd (store_bandwidth_usage items db')).
Proof.
  intros H. unfold store_bandwidth_usage. destruct items as [|i items]; [exact H|].
  rewrite H. destruct (for_each _ _ _); [reflexivity|exact H].
Qed.

(** The three tables after such a cycle: each is what its own store
    method leaves. *)
Lemma stored_by_cycle_tables (connections : list connection_entry)
  (bandwidth : list (string * interface_counters)) (traffic : list traffic_record)
  (now_store : DateTime.datetime) (db : database) :
  let db' := stored_by_cycle connections bandwidth traffic now_store db in
  active_connections db'
  = active_connections (snd (store_active_connections now_store connections db))
  /\ bandwidth_usage db' = bandwidth_usage (snd (store_bandwidth_usage bandwidth db))
  /\ ip_traffic db' = ip_traffic (snd (store_ip_traffic traffic db)).
Proof.
  cbv zeta. unfold stored_by_cycle.
  replace (if nonempty connections
           then snd (store_active_connections now_store connections db) else db)
    with (snd (store_active_connections now_store connections db))
    by (destruct connections; reflexivity).
  set (db1 := snd (store_active_connections now_store connections db)).
  replace (if nonempty bandwidth then snd (store_bandwidth_usage bandwidth db1) else db1)
    with (snd (store_bandwidth_usage bandwidth db1))
    by (destruct bandwidth; reflexivity).
  set (db2 := snd (store_bandwidth_usage bandwidth db1)).
  replace (if nonempty traffic then snd (store_ip_traffic traffic db2) else db2)
    with (snd (store_ip_traffic traffic db2))
    by (destruct traffic; reflexivity).
  destruct (store_active_connections_frame now_store connections db) as [H1 H2].
  destruct (store_bandwidth_usage_frame bandwidth db1) as [H3 H4].
  destruct (store_ip_traffic_frame traffic db2) as [H5 H6].
  fold db1 in H1, H2. fold db2 in H3, H4.
  split; [rewrite H6, H4; reflexivity|].
  split; [rewrite H5; apply store_bandwidth_usage_table; exact H2|].
  apply store_ip_traffic_table. rewrite H3. exact H1.
Qed.

End SessionFacts.

(** X15.  The flags that the store methods return are not looked at.  A
    cycle that is not refused, whose three requests are answered and in
    which no store method raises returns [True] and writes the time of
    the last update, also when an answer is empty or when a store method
    refuses its batch and leaves its table as it was. *)
Theorem cycle_ignores_store_results (connections : list DataStore.connection_entry)
  (bandwidth : list (string * DataStore.interface_counters))
  (traffic : list DataStore.traffic_record)
  (now_store now_update : DateTime.datetime) (s : App.session_state) :
  App.collect_refused s = false ->
  let result :=
    App.collect_data
      (AppNotions.answered connections bandwidth traffic now_store now_update) s in
  fst result = Py.Returns true
  /\ App.last_update (snd result) = Some now_update
  /\ (~ Forall DataStore.storable connections ->
      DataStore.active_connections (App.data_store (snd result))
      = DataStore.active_connections (App.data_store s))
  /\ (~ Forall DataStore.counters_fit bandwidth ->
      DataStore.bandwidth_usage (App.data_store (snd result))
      = DataStore.bandwidth_usage (App.data_store s))
  /\ (~ Forall DataStore.record_fits traffic ->
      DataStore.ip_traffic (App.data_store (snd result))
      = DataStore.ip_traffic (App.data_store s)).
Proof.
  intros Hr. cbv zeta.
  unfold App.collect_data, App.collect_guarded, App.try_except. rewrite Hr.
  rewrite collect_steps_answered. cbn [fst snd App.last_update App.set_last_update
    App.data_store App.set_data_store].
  destruct (stored_by_cycle_tables connections bandwidth traffic now_store
              (App.data_store s)) as (H1 & H2 & H3).
  split; [reflexivity|]. split; [reflexivity|].
  rewrite H1, H2, H3. repeat split; intros Hnot.
  - rewrite store_active_connections_refused by exact Hnot. reflexivity.
  - rewrite store_bandwidth_usage_refused by exact Hnot. reflexivity.
  - rewrite store_ip_traffic_refused by exact Hnot. reflexivity.
Qed.

Lemma cycle_ignores_store_results_witness :
  let result :=
    App.collect_data
      (AppNotions.answered [Examples.garbled_entry] [] [Examples.stale_record]
         Examples.noon (Examples.noon + 40))
      Examples.connected_session in
  fst result = Py.Returns true
  /\ App.last_update (snd result) = Some (Examples.noon + 40)
  /\ (~ Forall DataStore.storable [Examples.garbled_entry] ->
      DataStore.active_connections (App.data_store (snd result))
      = DataStore.active_connections (App.data_store Examples.connected_session))
  /\ (~ Forall DataStore.counters_fit [] ->
      DataStore.bandwidth_usage (App.data_store (snd result))
      = DataStore.bandwidth_usage (App.data_store Examples.connected_session))
  /\ (~ Forall DataStore.record_fits [Examples.stale_record] ->
      DataStore.ip_traffic (App.data_store (snd result))
      = DataStore.ip_traffic (App.data_store Examples.connected_session)).
Proof.
  apply (cycle_ignores_store_results [Examples.garbled_entry] []
           [Examples.stale_record] Examples.noon (Examples.noon + 40)
           Examples.connected_session).
  reflexivity.
Defined.

(** ** The loop: what the thread leaves alone *)

Section ThreadFacts.

Import Py DataStore App AppNotions.







(** The user leaves the session disconnected. *)
Lemma run_after_disconnect :
  run Samples.world_at_disconnect Samples.labels_after_disconnect
    Samples.world_after_disconnect.
Proof.
  unfold Samples.labels_after_disconnect.
  eapply run_cons; [apply step_enter_collect; reflexivity|].
  eapply run_cons; [apply step_start_sleep; reflexivity|].
  eapply run_cons; [apply step_wake; reflexivity|].
  eapply run_cons; [apply step_test_stop; reflexivity|].
  apply run_nil.
Qed.


End ThreadFacts.

(** X16.  While the session is disconnected the loop collects nothing.
    In a run that begins with the session disconnected and the thread
    outside a cycle, and in which the user interface does not set the
    session connected again, no cycle is entered, wherever the thread
    stands and whether or not the stop event has been seen: the session
    stays disconnected, and the store and the time of the last update stay
    as they were. *)
Theorem no_collection_while_disconnected (w w' : App.world) (ls : list App.label) :
  App.run w ls w' ->
  App.connected (App.shared w) = false ->
  App.at_place w <> App.InCycle ->
  ~ In (App.Ui (App.WriteConnected true)) ls ->
  App.connected (App.shared w') = false
  /\ App.at_place w' <> App.InCycle
  /\ App.data_store (App.shared w') = App.data_store (App.shared w)
  /\ App.last_update (App.shared w') = App.last_update (App.shared w)
  /\ ~ In (App.EnterCollect true) ls
  /\ (forall result, ~ In (App.LeaveCollect result) ls).
Proof.
  intros Hrun Hc Hp. induction Hrun as [w|w ls w1 l w2 Hrun IH Hstep]; intros Hui.
  - repeat split; auto.
  - destruct (IH Hc Hp) as (Hc1 & Hp1 & Hdb & Hlast & Henter & Hleave).
    { intros H. apply Hui. apply in_or_app. now left. }
    assert (Hthis : l <> App.Ui (App.WriteConnected true)).
    { intros ->. apply Hui. apply in_or_app. right. now left. }
    assert (Hin : forall x : App.label, x <> l -> ~ In x ls -> ~ In x (ls ++ [l])%list).
    { intros x Hx Hout H. apply in_app_or in H as [H|[H|[]]]; [auto|congruence]. }
    inversion Hstep as [w0 Hp0|w0 Hp0|w0 Hp0|w0 env result s' Hp0 Hcg
                        |w0 env e s' Hp0 Hcg|w0 Hp0|w0 n Hp0|w0 u Hu]; subst;
      try contradiction; cbn [App.shared App.at_place App.move].
    + split; [exact Hc1|]. split; [destruct (App.stop_event _); discriminate|].
      split; [exact Hdb|]. split; [exact Hlast|].
      split; [apply Hin; [discriminate|exact Henter]|].
      intros r. apply Hin; [discriminate|apply Hleave].
    + split; [exact Hc1|].
      split; [subst enabled; rewrite Hc1; discriminate|].
      split; [exact Hdb|]. split; [exact Hlast|].
      split; [apply Hin; [discriminate|exact Henter]|].
      intros r. apply Hin; [discriminate|apply Hleave].
    + assert (Hrefused : refused = true)
        by (subst refused; unfold App.collect_refused; rewrite Hc1; reflexivity).
      rewrite Hrefused in *. cbn [negb].
      split; [exact Hc1|]. split; [discriminate|].
      split; [exact Hdb|]. split; [exact Hlast|].
      split; [apply Hin; [discriminate|exact Henter]|].
      intros r. apply Hin; [discriminate|apply Hleave].
    + split; [exact Hc1|]. split; [discriminate|].
      split; [exact Hdb|]. split; [exact Hlast|].
      split; [apply Hin; [discriminate|exact Henter]|].
      intros r. apply Hin; [discriminate|apply Hleave].
    + split; [exact Hc1|]. split; [discriminate|].
      split; [exact Hdb|]. split; [exact Hlast|].
      split; [apply Hin; [discriminate|exact Henter]|].
      intros r. apply Hin; [discriminate|apply Hleave].
    + split.
      { destruct u as [| |b| | |]; cbn; try exact Hc1.
        destruct b; [congruence|reflexivity]. }
      split; [exact Hp1|].
      split; [destruct u; exact Hdb|]. split; [destruct u; exact Hlast|].
      split; [apply Hin; [discriminate|exact Henter]|].
      intros r. apply Hin; [discriminate|apply Hleave].
Qed.

Lemma no_collection_while_disconnected_witness :
  App.connected (App.shared Samples.world_after_disconnect) = false
  /\ App.at_place Samples.world_after_disconnect <> App.InCycle
  /\ App.data_store (App.shared Samples.world_after_disconnect)
     = App.data_store (App.shared Samples.world_at_disconnect)
  /\ App.last_update (App.shared Samples.world_after_disconnect)
     = App.last_update (App.shared Samples.world_at_disconnect)
  /\ ~ In (App.EnterCollect true) Samples.labels_after_disconnect
  /\ (forall result, ~ In (App.LeaveCollect result) Samples.labels_after_disconnect).
Proof.
  apply (no_collection_while_disconnected Samples.world_at_disconnect
           Samples.world_after_disconnect Samples.labels_after_disconnect).
  - exact run_after_disconnect.
  - reflexivity.
  - discriminate.
  - simpl. intros [H|[H|[H|[H|[]]]]]; discriminate.
Defined.



(** ** Edges of the queries and of the Connect form *)

Section EdgeFacts.

Import Py Sqlite DataStore StoreNotions.





End EdgeFacts.

(** X18.  A negative limit is no limit: with it, and with a window
    that has a start and sums that can be computed, the top list names
    every address of the window, each once. *)
Theorem top_ips_without_limit (limit hours : Z) (now : DateTime.datetime)
  (start : string) (db : DataStore.database) :
  limit < 0 ->
  Sqlite.fits_int64 limit = true ->
  DateTime.window_start now hours = Py.Returns start ->
  DataStore.sums_fit start db ->
  let result := DataStore.rows (DataStore.get_top_ips_by_traffic limit hours now db) in
  List.NoDup (map DataStore.top_ip_address result)
  /\ (forall ip,
        In ip (map DataStore.top_ip_address result)
        <-> DataStore.rows_of_ip ip start db <> [])
  /\ Forall (DataStore.summarizes start db) result.
Proof.
  intros Hneg Hfit Hstart Hsums. cbv zeta.
  rewrite (top_ips_rows limit hours now start db Hfit Hstart Hsums).
  unfold Sqlite.limit. destruct (limit <? 0) eqn:E; [|lia].
  set (keys := Sqlite.group_keys
                 (map DataStore.it_ip_address
                    (Sqlite.where_ge DataStore.it_timestamp start
                       (DataStore.ip_traffic db)))).
  set (groups := map (fun k => DataStore.summary k (DataStore.rows_of_ip k start db)) keys).
  assert (Hperm : map DataStore.top_ip_address
                    (Sqlite.order_by
                       (Sqlite.descending_integer DataStore.top_total_bytes) groups)
                  ≡ₚ keys).
  { etransitivity; [apply Permutation_map, order_by_perm|].
    unfold groups. rewrite map_map. simpl. rewrite map_id. reflexivity. }
  split; [eapply Permutation_NoDup; [symmetry; exact Hperm|apply group_keys_NoDup]|].
  split.
  - intros ip. split; intros H.
    + apply rows_of_ip_nonempty. apply (proj1 (group_keys_In _ _)).
      eapply Permutation_in; [exact Hperm|exact H].
    + apply (proj1 (rows_of_ip_nonempty _ _ _)) in H.
      apply (proj2 (group_keys_In _ _)) in H.
      eapply Permutation_in; [symmetry; exact Hperm|exact H].
  - apply List.Forall_forall. intros e He.
    apply order_by_In in He. unfold groups in He.
    apply in_map_iff in He as (k & <- & Hk).
    apply summary_summarizes. apply rows_of_ip_nonempty.
    apply (proj1 (group_keys_In _ _)). exact Hk.
Qed.

Lemma top_ips_without_limit_witness :
  let result :=
    DataStore.rows
      (DataStore.get_top_ips_by_traffic (-1) 24 Examples.noon
         Examples.traffic_database) in
  List.NoDup (map DataStore.top_ip_address result)
  /\ (forall ip,
        In ip (map DataStore.top_ip_address result)
        <-> DataStore.rows_of_ip ip "2023-12-31T12:00:00" Examples.traffic_database
            <> [])
  /\ Forall (DataStore.summarizes "2023-12-31T12:00:00" Examples.traffic_database)
       result.
Proof.
  apply (top_ips_without_limit (-1) 24 Examples.noon "2023-12-31T12:00:00"
           Examples.traffic_database).
  - lia.
  - reflexivity.
  - reflexivity.
  - apply sums_fit_nonnegative.
    + repeat constructor; simpl; lia.
    + repeat constructor; simpl; lia.
    + repeat constructor; simpl; lia.
    + vm_compute. discriminate.
    + vm_compute. discriminate.
    + vm_compute. discriminate.
Defined.



(** X20.  A window whose first instant is not one of the years 1 to
    9999 returns nothing: the subtraction raises, and every query hands
    back its empty result, the frame without columns or the empty
    dictionary.  Asking for more hours than the calendar holds before
    the reading of the clock loses every row. *)
Theorem window_outside_calendar_returns_nothing (hours : Z)
  (now : DateTime.datetime) (db : DataStore.database) :
  DateTime.representable (StoreNotions.window_instant now hours) = false ->
  (forall ip_address,
     DataStore.get_ip_traffic_history ip_address hours now db = DataStore.empty_frame)
  /\ (forall interface,
        DataStore.get_bandwidth_history interface hours now db
        = DataStore.empty_frame)
  /\ (forall limit,
        DataStore.get_top_ips_by_traffic limit hours now db = DataStore.empty_frame)
  /\ (forall now2 now3 now4,
        DataStore.get_connection_stats hours now now2 now3 now4 db = None).
Proof.
  intros H. destruct (window_start_raises now hours H) as [e He].
  unfold DataStore.get_ip_traffic_history, DataStore.get_bandwidth_history,
    DataStore.get_top_ips_by_traffic, DataStore.get_connection_stats.
  rewrite He. repeat split.
Qed.

Lemma window_outside_calendar_returns_nothing_witness :
  (forall ip_address,
     DataStore.get_ip_traffic_history ip_address 20000000 Examples.noon
       Examples.traffic_database = DataStore.empty_frame)
  /\ (forall interface,
        DataStore.get_bandwidth_history interface 20000000 Examples.noon
          Examples.traffic_database = DataStore.empty_frame)
  /\ (forall limit,
        DataStore.get_top_ips_by_traffic limit 20000000 Examples.noon
          Examples.traffic_database = DataStore.empty_frame)
  /\ (forall now2 now3 now4,
        DataStore.get_connection_stats 20000000 Examples.noon now2 now3 now4
          Examples.traffic_database = None).
Proof.
  apply (window_outside_calendar_returns_nothing 20000000 Examples.noon
           Examples.traffic_database).
  reflexivity.
Defined.

(** X21.  The Connect form refuses exactly the hosts that are neither
    four groups of one to three digits joined by dots nor a text that
    begins with http, and then changes nothing: no client is made, no
    thread is started.  A host name is refused. *)
Theorem connect_refuses_other_hosts (form : App.connection_settings)
  (authenticated : bool) (env : App.cycle_environment) (p : App.process) :
  App.connected (App.session p) = false ->
  (snd (App.connect_button form authenticated env p) = Some App.InvalidHost
   <-> ~ AppNotions.dotted_digits (App.form_host form)
       /\ Py.startswith (App.form_host form) "http" = false)
  /\ (snd (App.connect_button form authenticated env p) = Some App.InvalidHost ->
      fst (App.connect_button form authenticated env p) = p).
Proof.
  intros Hc. unfold App.connect_button. rewrite Hc.
  assert (Hvalid : HostCheck.is_valid_ip (App.form_host form) = true
                   <-> AppNotions.dotted_digits (App.form_host form))
    by apply is_valid_ip_iff.
  destruct (HostCheck.is_valid_ip (App.form_host form)) eqn:Ev;
    destruct (Py.startswith (App.form_host form) "http") eqn:Eh; cbn [negb andb].
  - split.
    + split; [|intros [_ H]; discriminate].
      destruct authenticated; [destruct (App.collect_data _ _)|]; discriminate.
    + destruct authenticated; [destruct (App.collect_data _ _)|]; discriminate.
  - split.
    + split; [|intros [H _]; exfalso; apply H, Hvalid; reflexivity].
      destruct authenticated; [destruct (App.collect_data _ _)|]; discriminate.
    + destruct authenticated; [destruct (App.collect_data _ _)|]; discriminate.
  - split.
    + split; [|intros [_ H]; discriminate].
      destruct authenticated; [destruct (App.collect_data _ _)|]; discriminate.
    + destruct authenticated; [destruct (App.collect_data _ _)|]; discriminate.
  - split; [|reflexivity].
    split; [|reflexivity].
    intros _. split; [|reflexivity].
    intros H. apply Hvalid in H. discriminate.
Qed.

Lemma connect_refuses_other_hosts_witness :
  (snd (App.connect_button Samples.named_router_form true Examples.full_cycle
          Examples.fresh_process) = Some App.InvalidHost
   <-> ~ AppNotions.dotted_digits (App.form_host Samples.named_router_form)
       /\ Py.startswith (App.form_host Samples.named_router_form) "http" = false)
  /\ (snd (App.connect_button Samples.named_router_form true Examples.full_cycle
             Examples.fresh_process) = Some App.InvalidHost ->
      fst (App.connect_button Samples.named_router_form true Examples.full_cycle
             Examples.fresh_process) = Examples.fresh_process).
Proof.
  apply (connect_refuses_other_hosts Samples.named_router_form true
           Examples.full_cycle Examples.fresh_process).
  reflexivity.
Defined.

(** ** The router client: the interface counters *)

Section InterfaceFacts.

Import Py DataStore Interfaces.

Lemma same_key_refl (k : value) : same_key k k = true.
Proof.
  destruct k as [|b|z|s]; simpl; [reflexivity|destruct b; reflexivity|lia|].
  apply String.eqb_refl.
Qed.

Lemma set_item_keys (k k0 : value) (v : interface_counters)
  (d : list (value * interface_counters)) :
  same_key k0 k = false ->
  Forall (fun kv => same_key k0 (fst kv) = false) d ->
  Forall (fun kv => same_key k0 (fst kv) = false) (set_item k v d).
Proof.
  intros Hk. induction 1 as [|[k1 v1] d H1 Hd IH]; simpl.
  - repeat constructor. exact Hk.
  - destruct (same_key k1 k); constructor; auto.
Qed.

Lemma set_item_distinct (k : value) (v : interface_counters)
  (d : list (value * interface_counters)) :
  distinct_keys d -> distinct_keys (set_item k v d).
Proof.
  induction d as [|[k1 v1] d IH]; simpl; intros H.
  - split; constructor.
  - destruct H as [H1 Hd]. destruct (same_key k1 k) eqn:E; simpl.
    + split; assumption.
    + split; [apply set_item_keys; assumption|apply IH; exact Hd].
Qed.

(** An item of the dictionary after an assignment is the one assigned
    or was there before. *)
Lemma set_item_In (k : value) (v : interface_counters)
  (d : list (value * interface_counters)) (k1 : value) (v1 : interface_counters) :
  In (k1, v1) (set_item k v d) ->
  In (k1, v1) d \/ (same_key k1 k = true /\ v1 = v).
Proof.
  induction d as [|[k2 v2] d IH]; simpl.
  - intros [H|[]]. injection H as <- <-. right. split; [apply same_key_refl|reflexivity].
  - destruct (same_key k2 k) eqn:E; simpl.
    + intros [H|H]; [|auto]. injection H as <- <-. right. auto.
    + intros [H|H]; [auto|]. destruct (IH H) as [H'|H']; auto.
Qed.

(** A key stays in the dictionary, and the key of an assignment is in
    it afterwards. *)
Lemma set_item_keeps (k : value) (v : interface_counters)
  (d : list (value * interface_counters)) (k1 : value) :
  (exists v1, In (k1, v1) d) -> exists v1, In (k1, v1) (set_item k v d).
Proof.
  induction d as [|[k2 v2] d IH]; simpl; intros [v1 H]; [destruct H|].
  destruct (same_key k2 k) eqn:E; simpl.
  - destruct H as [H|H]; [injection H as <- <-; eauto|eauto].
  - destruct H as [H|H]; [eauto|].
    destruct (IH (ex_intro _ v1 H)) as [v' H']. eauto.
Qed.

Lemma set_item_has (k : value) (v : interface_counters)
  (d : list (value * interface_counters)) :
  exists k1, In (k1, v) (set_item k v d) /\ same_key k1 k = true.
Proof.
  induction d as [|[k2 v2] d IH]; simpl.
  - exists k. split; [now left|apply same_key_refl].
  - destruct (same_key k2 k) eqn:E; simpl.
    + exists k2. split; [now left|exact E].
    + destruct IH as (k1 & H & Hk). exists k1. split; [now right|exact Hk].
Qed.

Lemma read_counters_from (interface : connection_entry) (now : DateTime.datetime)
  (data : interface_counters) :
  read_counters interface now = Returns data -> counters_from interface data.
Proof.
  unfold read_counters, counters_from.
  destruct (int (dict_get interface "tx-byte" (PInt 0))) as [tx|]; [|discriminate].
  destruct (int (dict_get interface "rx-byte" (PInt 0))) as [rx|]; [|discriminate].
  destruct (int (dict_get interface "tx-packet" (PInt 0))) as [txp|]; [|discriminate].
  destruct (int (dict_get interface "rx-packet" (PInt 0))) as [rxp|]; [|discriminate].
  intros H. injection H as <-. repeat split.
Qed.

Lemma read_counters_readable (interface : connection_entry) (now : DateTime.datetime) :
  readable_counters interface = true ->
  exists data, read_counters interface now = Returns data.
Proof.
  unfold readable_counters, read_counters.
  destruct (int (dict_get interface "tx-byte" (PInt 0))) as [tx|]; [|discriminate].
  destruct (int (dict_get interface "rx-byte" (PInt 0))) as [rx|]; [|discriminate].
  destruct (int (dict_get interface "tx-packet" (PInt 0))) as [txp|]; [|discriminate].
  destruct (int (dict_get interface "rx-packet" (PInt 0))) as [rxp|]; [|discriminate].
  intros _. simpl. eauto.
Qed.

Lemma read_counters_unreadable (interface : connection_entry)
  (now : DateTime.datetime) :
  readable_counters interface = false ->
  exists e, read_counters interface now = Raises e.
Proof.
  unfold readable_counters, read_counters.
  destruct (int (dict_get interface "tx-byte" (PInt 0))) as [tx|]; [|simpl; eauto].
  destruct (int (dict_get interface "rx-byte" (PInt 0))) as [rx|]; [|simpl; eauto].
  destruct (int (dict_get interface "tx-packet" (PInt 0))) as [txp|]; [|simpl; eauto].
  destruct (int (dict_get interface "rx-packet" (PInt 0))) as [rxp|]; [|simpl; eauto].
  discriminate.
Qed.

Lemma has_counters_name (interface : connection_entry) :
  has_counters interface = true ->
  exists n, interface !! "name" = Some n /\ dict_get interface "name" PNone = n.
Proof.
  unfold has_counters, dict_get. rewrite !andb_true_iff.
  intros [[H _] _]. apply bool_decide_eq_true_1 in H. destruct H as [n Hn].
  exists n. rewrite Hn. auto.
Qed.

(** The loop ends without an exception exactly when the counters of
    every interface that it reads are numbers. *)
Lemma collect_readable (interfaces : list connection_entry)
  (clock : nat -> DateTime.datetime) (d : list (value * interface_counters)) :
  forallb readable_counters (counted_interfaces interfaces) = true ->
  exists d', collect interfaces clock d = Returns d'.
Proof.
  revert clock d. induction interfaces as [|i rest IH]; intros clock d H; simpl.
  - eauto.
  - unfold counted_interfaces in H. simpl in H.
    destruct (has_counters i); [|apply IH; exact H].
    simpl in H. apply andb_true_iff in H as [Hi H].
    destruct (read_counters_readable i (clock O) Hi) as [data ->]. simpl.
    apply IH. exact H.
Qed.

Lemma collect_unreadable (interfaces : list connection_entry)
  (clock : nat -> DateTime.datetime) (d : list (value * interface_counters)) :
  forallb readable_counters (counted_interfaces interfaces) = false ->
  exists e, collect interfaces clock d = Raises e.
Proof.
  revert clock d. induction interfaces as [|i rest IH]; intros clock d H; simpl.
  - discriminate.
  - unfold counted_interfaces in H. simpl in H.
    destruct (has_counters i); [|apply IH; exact H].
    simpl in H. destruct (readable_counters i) eqn:Hi.
    + destruct (read_counters_readable i (clock O) Hi) as [data ->]. simpl.
      apply IH. exact H.
    + destruct (read_counters_unreadable i (clock O) Hi) as [e ->]. simpl. eauto.
Qed.

(** What the loop leaves in the dictionary. *)
Lemma collect_items (interfaces : list connection_entry)
  (clock : nat -> DateTime.datetime) (d d' : list (value * interface_counters)) :
  collect interfaces clock d = Returns d' ->
  (distinct_keys d -> distinct_keys d')
  /\ (forall k data,
        In (k, data) d' ->
        In (k, data) d
        \/ exists interface,
             In interface (counted_interfaces interfaces)
             /\ named k interface /\ counters_from interface data)
  /\ (forall k, (exists data, In (k, data) d) -> exists data, In (k, data) d')
  /\ (forall interface,
        In interface (counted_interfaces interfaces) ->
        exists k data, In (k, data) d' /\ named k interface).
Proof.
  revert clock d. induction interfaces as [|i rest IH]; intros clock d H; simpl in H.
  - injection H as <-. split; [auto|]. split; [auto|]. split; [auto|].
    intros interface [].
  - unfold counted_interfaces. simpl. destruct (has_counters i) eqn:Hi.
    + destruct (read_counters i (clock O)) as [data|] eqn:Er; [|discriminate].
      simpl in H. destruct (has_counters_name i Hi) as (n & Hn & Hget).
      rewrite Hget in H.
      destruct (IH _ _ H) as (I1 & I2 & I3 & I4).
      split; [intros Hd; apply I1, set_item_distinct, Hd|].
      split; [|split].
      * intros k data' Hin. destruct (I2 k data' Hin) as [Hset|(x & Hx & Hnamed & Hc)].
        -- apply set_item_In in Hset as [Hold|[Hk ->]]; [auto|].
           right. exists i. split; [now left|]. split.
           ++ exists n. split; [exact Hn|].
              destruct (set_item_has n data d) as (k1 & _ & _).
              clear -Hk. destruct k, n; simpl in *; try discriminate; auto;
                try (rewrite Z.eqb_sym; exact Hk);
                try (rewrite String.eqb_sym; exact Hk).
              destruct b, b0; simpl in *; auto.
           ++ eapply read_counters_from. exact Er.
        -- right. exists x. split; [now right|]. auto.
      * intros k Hk. apply I3. apply set_item_keeps. exact Hk.
      * intros interface [<-|Hin].
        -- destruct (set_item_has n data d) as (k1 & Hk1 & Hsame).
           destruct (I3 k1 (ex_intro _ data Hk1)) as [data' Hd'].
           exists k1, data'. split; [exact Hd'|].
           exists n. split; [exact Hn|].
           clear -Hsame. destruct k1, n; simpl in *; try discriminate; auto;
             try (rewrite Z.eqb_sym; exact Hsame);
             try (rewrite String.eqb_sym; exact Hsame).
           destruct b, b0; simpl in *; auto.
        -- apply I4. exact Hin.
    + destruct (IH _ _ H) as (I1 & I2 & I3 & I4). auto.
Qed.

End InterfaceFacts.

(** X22.  [get_bandwidth_usage] reads the interfaces that carry their
    name and their two byte counters and skips the others.  Its result
    has no two items with the same key; every item has the name of an
    interface that was read as key and the counters of such an
    interface, a missing packet counter as zero.  When all counters of
    the interfaces that are read are numbers, every such interface has
    an item under its name; one counter that is not a number, in any of
    them, leaves the result empty. *)
Theorem bandwidth_usage_items (interfaces : list DataStore.connection_entry)
  (clock : nat -> DateTime.datetime) :
  let result := Interfaces.get_bandwidth_usage interfaces clock in
  let counted := Interfaces.counted_interfaces interfaces in
  Interfaces.distinct_keys result
  /\ (forall k data,
        In (k, data) result ->
        exists interface,
          In interface counted
          /\ Interfaces.named k interface
          /\ Interfaces.counters_from interface data)
  /\ (forallb Interfaces.readable_counters counted = true ->
      forall interface,
        In interface counted ->
        exists k data, In (k, data) result /\ Interfaces.named k interface)
  /\ (forallb Interfaces.readable_counters counted = false -> result = []).
Proof.
  cbv zeta. unfold Interfaces.get_bandwidth_usage.
  destruct (forallb Interfaces.readable_counters
              (Interfaces.counted_interfaces interfaces)) eqn:Hr.
  - destruct (collect_readable interfaces clock [] Hr) as [d Hd].
    rewrite Hd. destruct (collect_items _ _ _ _ Hd) as (I1 & I2 & _ & I4).
    split; [apply I1; exact I|]. split.
    + intros k data Hin. destruct (I2 k data Hin) as [[]|H]. exact H.
    + split; [intros _; exact I4|discriminate].
  - destruct (collect_unreadable interfaces clock [] Hr) as [e ->].
    split; [exact I|]. split; [intros k data []|].
    split; [discriminate|reflexivity].
Qed.

(** ** What the pages show *)

Section ViewFacts.

Import Py Visualization.

(** Rounding to the nearest integer is off by at most a half. *)
Lemma round_half_even_near (a b : Z) :
  0 < b -> 2 * Z.abs (a - round_half_even a b * b) <= b.
Proof.
  intros Hb. unfold round_half_even.
  pose proof (Z.div_mod a b ltac:(lia)) as Hdiv.
  pose proof (Z.mod_pos_bound a b Hb) as Hmod.
  set (q := a / b) in *. set (r := a mod b) in *.
  destruct (Z.ltb_spec (2 * r) b); [|destruct (Z.ltb_spec b (2 * r));
    [|destruct (Z.even q)]].
  - replace (a - q * b) with r by lia. lia.
  - replace (a - (q + 1) * b) with (r - b) by lia. lia.
  - replace (a - q * b) with r by lia. lia.
  - replace (a - (q + 1) * b) with (r - b) by lia. lia.
Qed.

Lemma round_half_even_exact (q b : Z) : 0 < b -> round_half_even (q * b) b = q.
Proof.
  intros Hb. unfold round_half_even.
  rewrite Z.div_mul, Z.mod_mul by lia.
  destruct (Z.ltb_spec (2 * 0) b); [reflexivity|lia].
Qed.

(** An [int] of at most 53 bits is a double. *)
Lemma float_of_int_small (n : Z) :
  0 < n < 2 ^ 53 -> float_of_int n = Returns n.
Proof.
  intros [Hpos Hlt]. unfold float_of_int.
  rewrite Z.abs_eq by lia.
  assert (Hlog : Z.log2 n < 53) by (apply Z.log2_lt_pow2; lia).
  destruct (Z.leb_spec (Z.log2 n + 1 - 53) 0); [|lia].
  destruct (Z.leb_spec (2 ^ 1024) n) as [Hbig|_].
  - exfalso. assert (2 ^ 53 < 2 ^ 1024) by reflexivity. lia.
  - rewrite Z.sgn_pos by lia. f_equal. lia.
Qed.

(** The loop stops at the unit of the size. *)
Lemma divide_by_1024_unit (n : Z) :
  1024 <= n ->
  divide_by_1024 4 n 10 1
  = (n, 10 * Z.of_nat (unit_index n), unit_index n).
Proof.
  intros Hn. unfold unit_index.
  destruct (Z.ltb_spec n 1024); [lia|].
  cbn [divide_by_1024].
  change (1024 * 2 ^ 10) with (1024 ^ 2).
  destruct (Z.leb_spec (1024 ^ 2) n), (Z.ltb_spec n (1024 ^ 2)); try lia;
    [|reflexivity].
  change (1024 * 2 ^ (10 + 10)) with (1024 ^ 3).
  destruct (Z.leb_spec (1024 ^ 3) n), (Z.ltb_spec n (1024 ^ 3)); try lia;
    [|reflexivity].
  change (1024 * 2 ^ (10 + 10 + 10)) with (1024 ^ 4).
  destruct (Z.leb_spec (1024 ^ 4) n), (Z.ltb_spec n (1024 ^ 4)); try lia;
    [|reflexivity].
  change (1024 * 2 ^ (10 + 10 + 10 + 10)) with (1024 ^ 5).
  destruct (Z.leb_spec (1024 ^ 5) n), (Z.ltb_spec n (1024 ^ 5)); try lia;
    reflexivity.
Qed.

Lemma unit_index_bounds (n : Z) :
  0 < n ->
  (unit_index n <= 5)%nat
  /\ 1024 ^ Z.of_nat (unit_index n) <= n
  /\ ((unit_index n < 5)%nat -> n < 1024 ^ (Z.of_nat (unit_index n) + 1)).
Proof.
  intros Hn. unfold unit_index.
  destruct (Z.ltb_spec n 1024); [cbn; lia|].
  destruct (Z.ltb_spec n (1024 ^ 2)); [cbn in *; lia|].
  destruct (Z.ltb_spec n (1024 ^ 3)); [cbn in *; lia|].
  destruct (Z.ltb_spec n (1024 ^ 4)); [cbn in *; lia|].
  destruct (Z.ltb_spec n (1024 ^ 5)); [cbn in *; lia|].
  cbn in *. lia.
Qed.

(** The hundredths shown for a size of the unit [p]. *)
Lemma hundredths_of_unit (n p : Z) :
  0 < p -> p <= n -> n < 1024 * p ->
  100 <= round_half_even (100 * n) p <= 102400
  /\ (round_half_even (100 * n) p = 102400 <-> 200 * (1024 * p - n) <= p).
Proof.
  intros Hp Hlo Hhi.
  pose proof (round_half_even_near (100 * n) p Hp) as Hnear.
  set (h := round_half_even (100 * n) p) in *.
  assert (Hrange : 100 <= h <= 102400) by nia.
  split; [exact Hrange|]. split; [intros Hh; rewrite Hh in Hnear; lia|].
  intros Hclose.
  destruct (Z.eq_dec h 102400) as [|Hne]; [assumption|exfalso].
  assert (Hh : h = 102399) by nia.
  assert (Htie : 2 * (100 * n) = (2 * 102399 + 1) * p) by nia.
  (* a tie goes to the even neighbour, which is 102400 *)
  subst h. unfold round_half_even in Hh.
  pose proof (Z.div_mod (100 * n) p ltac:(lia)) as Hdiv.
  pose proof (Z.mod_pos_bound (100 * n) p Hp) as Hmod.
  set (q := 100 * n / p) in *. set (r := 100 * n mod p) in *.
  assert (Hq : q = 102399) by nia.
  assert (Hr : 2 * r = p) by nia.
  destruct (Z.ltb_spec (2 * r) p); [lia|].
  destruct (Z.ltb_spec p (2 * r)); [lia|].
  rewrite Hq in Hh. cbn in Hh. lia.
Qed.

End ViewFacts.

(** X23.  For a size of 1 to 2^53 - 1 bytes, [human_readable_size]
    shows the size in the greatest unit, up to PB, that is not above it,
    as the number of hundredths of that unit nearest to it, a tie going
    to the even number of hundredths.  What is shown is off by at most
    half a hundredth of the unit.  Below PB the number shown lies
    between 1.00 and 1024.00, and 1024.00 of a unit is shown, not 1.00 of
    the next, for the sizes that are less than the next unit by no more
    than half a hundredth of the unit. *)
Theorem human_readable_size_nearest_hundredth (n : Z) :
  0 < n < 2 ^ 53 ->
  let i := Visualization.unit_index n in
  let p := 1024 ^ Z.of_nat i in
  let h := Visualization.round_half_even (100 * n) p in
  Visualization.human_readable_size n
  = Py.Returns
      (Visualization.two_decimals h ++ " " ++ nth i Visualization.size_names "")%string
  /\ p <= n
  /\ ((i < 5)%nat -> n < 1024 * p)
  /\ 2 * Z.abs (100 * n - h * p) <= p
  /\ ((i < 5)%nat ->
      100 <= h <= 102400 /\ (h = 102400 <-> 200 * (1024 * p - n) <= p)).
Proof.
  intros Hn. cbv zeta.
  destruct (unit_index_bounds n (proj1 Hn)) as (Hi & Hlo & Hhi).
  assert (Hp : 0 < 1024 ^ Z.of_nat (Visualization.unit_index n))
    by (apply Z.pow_pos_nonneg; lia).
  assert (Hnext : (Visualization.unit_index n < 5)%nat ->
                  n < 1024 * 1024 ^ Z.of_nat (Visualization.unit_index n)).
  { intros H. specialize (Hhi H). rewrite Z.pow_add_r in Hhi by lia.
    change (1024 ^ 1) with 1024 in Hhi. lia. }
  split; [|split; [exact Hlo|split; [exact Hnext|split;
    [apply round_half_even_near; exact Hp
    |intros H; apply hundredths_of_unit; auto]]]].
  unfold Visualization.human_readable_size.
  destruct (Z.eqb_spec n 0); [lia|].
  rewrite (float_of_int_small n Hn). cbn [Py.bind].
  assert (Hpow : 2 ^ (10 * Z.of_nat (Visualization.unit_index n))
                 = 1024 ^ Z.of_nat (Visualization.unit_index n)).
  { rewrite Z.pow_mul_r by lia. reflexivity. }
  destruct (Z.leb_spec 1024 n) as [Hbig|Hsmall].
  - rewrite (divide_by_1024_unit n Hbig).
    unfold Visualization.format_2f, Visualization.hundredths.
    destruct (Z.ltb_spec n 0); [lia|].
    rewrite append_nil_l, Hpow, Z.abs_eq by lia. reflexivity.
  - assert (Hzero : Visualization.unit_index n = 0%nat).
    { unfold Visualization.unit_index. destruct (Z.ltb_spec n 1024); [reflexivity|lia]. }
    rewrite Hzero. unfold Visualization.format_2f, Visualization.hundredths.
    destruct (Z.ltb_spec n 0); [lia|].
    rewrite append_nil_l, Z.abs_eq by lia. reflexivity.
Qed.

Lemma human_readable_size_nearest_hundredth_witness :
  let i := Visualization.unit_index 1048575 in
  let p := 1024 ^ Z.of_nat i in
  let h := Visualization.round_half_even (100 * 1048575) p in
  Visualization.human_readable_size 1048575
  = Py.Returns
      (Visualization.two_decimals h ++ " " ++ nth i Visualization.size_names "")%string
  /\ p <= 1048575
  /\ ((i < 5)%nat -> 1048575 < 1024 * p)
  /\ 2 * Z.abs (100 * 1048575 - h * p) <= p
  /\ ((i < 5)%nat ->
      100 <= h <= 102400 /\ (h = 102400 <-> 200 * (1024 * p - 1048575) <= p)).
Proof.
  apply (human_readable_size_nearest_hundredth 1048575).
  split; reflexivity.
Defined.

(** X24.  The Data Age metric shows [timedelta.seconds], the whole
    seconds of the time since the last update within its day: the age
    is shown in full while it is less than a day, and every whole day of
    it is dropped, so an update of a day and an hour ago is shown as one
    of an hour ago. *)
Theorem data_age_drops_whole_days (now t : DateTime.datetime) (days : Z) :
  Dashboard.data_age (now + days * DateTime.usec_per_day) (Some t)
  = Dashboard.data_age now (Some t)
  /\ 0 <= Dashboard.timedelta_seconds (now - t) < 86400
  /\ (0 <= now - t < DateTime.usec_per_day ->
      Dashboard.timedelta_seconds (now - t) = (now - t) / DateTime.usec_per_second).
Proof.
  unfold Dashboard.data_age, Dashboard.timedelta_seconds.
  assert (Hday : 0 < DateTime.usec_per_day) by reflexivity.
  split; [|split].
  - replace (now + days * DateTime.usec_per_day - t)
      with (now - t + days * DateTime.usec_per_day) by lia.
    rewrite Z.mod_add by lia. reflexivity.
  - pose proof (Z.mod_pos_bound (now - t) DateTime.usec_per_day Hday) as H.
    revert H. generalize ((now - t) mod DateTime.usec_per_day). intros r Hr.
    unfold DateTime.usec_per_day, DateTime.usec_per_hour, DateTime.usec_per_second in *.
    change (24 * (3600 * 1000000)) with 86400000000 in Hr.
    Z.to_euclidean_division_equations; lia.
  - intros H. rewrite Z.mod_small by exact H. reflexivity.
Qed.


(** ** From the router to the pages *)

Section PipelineFacts.

Import Py Sqlite DataStore Client ClientNotions StoreNotions.

Lemma readings_Forall (P : DateTime.datetime -> Prop) (n : nat)
  (clock : nat -> DateTime.datetime) :
  (forall k, (k < n)%nat -> P (clock k)) -> Forall P (readings n clock).
Proof.
  revert clock. induction n as [|n IH]; intros clock H; simpl; constructor.
  - apply H. lia.
  - apply IH. intros k Hk. apply H. lia.
Qed.

(** Records stamped with readings of the clock that are not before the
    first instant of a window lie in the window. *)
Lemma stamped_in_window (records : list traffic_record) (hours : Z)
  (now : DateTime.datetime) (times : list DateTime.datetime) :
  DateTime.representable (window_instant now hours) = true ->
  map tr_timestamp records = map DateTime.isoformat times ->
  Forall (fun t => DateTime.representable t = true /\ window_instant now hours <= t)
    times ->
  Forall (fun r =>
            text_le (DateTime.isoformat (window_instant now hours)) (tr_timestamp r)
            = true) records.
Proof.
  intros Hw Hmap Htimes. revert records Hmap.
  induction Htimes as [|t times [Ht Hle] _ IH]; intros [|r records] Hmap;
    try discriminate; constructor.
  - simpl in Hmap. injection Hmap as -> _.
    rewrite isoformat_text_le by assumption. apply Z.leb_le. exact Hle.
  - apply IH. simpl in Hmap. injection Hmap as _ H. exact H.
Qed.

End PipelineFacts.

(** X25.  What a cycle collects is what the history shows.  When
    [get_traffic_by_ip] returns records whose numbers fit 64 bits, stamped
    with readings of the clock that are instants of the calendar, and
    [store_ip_traffic] stores them, [get_ip_traffic_history], asked at any
    reading of the clock for a window whose first instant is not after
    these readings, returns them next to what it returned before, each
    as it was built. *)
Theorem collected_traffic_is_returned (entries : list DataStore.connection_entry)
  (clock : nat -> DateTime.datetime) (hours : Z) (now : DateTime.datetime)
  (db : DataStore.database) :
  let records := Client.get_traffic_by_ip entries clock in
  records <> [] ->
  Forall DataStore.record_fits records ->
  DateTime.representable (StoreNotions.window_instant now hours) = true ->
  (forall k, (k < length records)%nat ->
     DateTime.representable (clock k) = true
     /\ StoreNotions.window_instant now hours <= clock k) ->
  let stored := DataStore.store_ip_traffic records db in
  fst stored = true
  /\ map DataStore.record_of_row
       (DataStore.rows (DataStore.get_ip_traffic_history None hours now (snd stored)))
     ≡ₚ (map DataStore.record_of_row
           (DataStore.rows (DataStore.get_ip_traffic_history None hours now db))
         ++ records)%list.
Proof.
  cbv zeta. intros Hne Hfit Hw Hclock.
  pose proof (traffic_by_ip_stamps entries clock) as Hstamps.
  pose proof (stamped_in_window _ hours now _ Hw Hstamps
                (readings_Forall _ _ _ Hclock)) as Hrecent.
  revert Hne Hfit Hrecent.
  generalize (Client.get_traffic_by_ip entries clock). intros records Hne Hfit Hrecent.
  destruct (for_each_insert_ip_traffic records (DataStore.ip_traffic db) Hfit)
    as (added & Hloop & Hmap).
  assert (Hstored : DataStore.store_ip_traffic records db
                    = (true,
                       {| DataStore.ip_traffic := (DataStore.ip_traffic db ++ added)%list;
                          DataStore.bandwidth_usage := DataStore.bandwidth_usage db;
                          DataStore.active_connections :=
                            DataStore.active_connections db |})).
  { unfold DataStore.store_ip_traffic. rewrite Hloop.
    destruct records; [congruence|reflexivity]. }
  rewrite Hstored. cbn [fst snd]. split; [reflexivity|].
  assert (Hall : Sqlite.where_ge DataStore.it_timestamp
                   (DateTime.isoformat (StoreNotions.window_instant now hours)) added
                 = added).
  { apply where_ge_all. rewrite <- Hmap in Hrecent.
    rewrite Forall_map in Hrecent. exact Hrecent. }
  unfold DataStore.get_ip_traffic_history.
  rewrite (proj2 (window_start_returns now hours _) (conj Hw eq_refl)).
  cbn [DataStore.truthy DataStore.rows DataStore.ip_traffic].
  rewrite where_ge_app, Hall, <- Hmap, <- map_app.
  apply Permutation_map.
  etransitivity; [apply order_by_perm|].
  apply Permutation_app_tail. symmetry. apply order_by_perm.
Qed.

Lemma collected_traffic_is_returned_witness :
  let records :=
    Client.get_traffic_by_ip [Examples.complete_entry; Examples.bare_entry]
      (fun _ => Samples.half_past_eleven) in
  let stored := DataStore.store_ip_traffic records Examples.traffic_database in
  fst stored = true
  /\ map DataStore.record_of_row
       (DataStore.rows
          (DataStore.get_ip_traffic_history None 24 Examples.noon (snd stored)))
     ≡ₚ (map DataStore.record_of_row
           (DataStore.rows
              (DataStore.get_ip_traffic_history None 24 Examples.noon
                 Examples.traffic_database))
         ++ records)%list.
Proof.
  apply (collected_traffic_is_returned [Examples.complete_entry; Examples.bare_entry]
           (fun _ => Samples.half_past_eleven) 24 Examples.noon
           Examples.traffic_database).
  - vm_compute. discriminate.
  - repeat (constructor; [repeat split; vm_compute; reflexivity|]). constructor.
  - reflexivity.
  - intros k _. split; [reflexivity|vm_compute; discriminate].
Defined.

(** X26.  Update Now reports success whenever the three requests of
    its cycle are answered and no store method raises, whatever the
    answers are.  With three empty answers, which is what the router
    client returns after a request that failed, the click still reports
    that the data was updated and writes the time of the last update,
    and the store is left as it was. *)
Theorem update_now_succeeds_on_any_answers
  (connections : list DataStore.connection_entry)
  (bandwidth : list (string * DataStore.interface_counters))
  (traffic : list DataStore.traffic_record)
  (now_store now_update : DateTime.datetime) (p : App.process) :
  App.connected (App.session p) = true ->
  is_Some (App.api (App.session p)) ->
  let clicked :=
    App.update_now_button
      (AppNotions.answered connections bandwidth traffic now_store now_update) p in
  snd clicked = Some App.DataUpdated
  /\ App.last_update (App.session (fst clicked)) = Some now_update
  /\ App.threads_started (fst clicked) = App.threads_started p
  /\ (connections = [] -> bandwidth = [] -> traffic = [] ->
      App.data_store (App.session (fst clicked)) = App.data_store (App.session p)).
Proof.
  intros Hc Hapi. cbv zeta. unfold App.update_now_button. rewrite Hc.
  assert (Hr : App.collect_refused (App.session p) = false).
  { unfold App.collect_refused. rewrite Hc.
    rewrite bool_decide_eq_true_2 by exact Hapi. reflexivity. }
  unfold App.collect_data, App.collect_guarded, App.try_except. rewrite Hr.
  rewrite collect_steps_answered. cbn [fst snd App.session App.threads_started
    App.last_update App.set_last_update App.data_store App.set_data_store].
  split; [reflexivity|]. split; [reflexivity|]. split; [reflexivity|].
  intros -> -> ->. reflexivity.
Qed.

Lemma update_now_succeeds_on_any_answers_witness :
  let clicked :=
    App.update_now_button
      (AppNotions.answered [] [] [] Examples.noon (Examples.noon + 40))
      {| App.session := Examples.connected_session; App.threads_started := 1 |} in
  snd clicked = Some App.DataUpdated
  /\ App.last_update (App.session (fst clicked)) = Some (Examples.noon + 40)
  /\ App.threads_started (fst clicked)
     = App.threads_started
         {| App.session := Examples.connected_session; App.threads_started := 1 |}
  /\ (@nil DataStore.connection_entry = [] ->
      @nil (string * DataStore.interface_counters) = [] ->
      @nil DataStore.traffic_record = [] ->
      App.data_store (App.session (fst clicked))
      = App.data_store
          (App.session
             {| App.session := Examples.connected_session;
                App.threads_started := 1 |})).
Proof.
  apply (update_now_succeeds_on_any_answers [] [] [] Examples.noon
           (Examples.noon + 40)
           {| App.session := Examples.connected_session; App.threads_started := 1 |}).
  - reflexivity.
  - eexists. reflexivity.
Defined.
